(** * xtended402: the Gin payment middleware, its response capture proxy,
      the payment-data accessor and the context price resolver

    A shallow embedding of the Go sources

      - [server/go/gin/middleware.go]  (package gin: [GinAdapter], the
        options, [createMiddlewareHandler], [handlePaymentError],
        [handlePaymentVerifiedSettleAfter], [handlePaymentVerifiedSettleBefore],
        [responseCapture]),
      - [server/go/types.go]           ([PaymentData], [UnmarshalOrderData],
        [GetPaymentData]),
      - [server/go/helpers.go]         ([ContextPrice], [CreateBeforeSettleHook],
        [StoreForValidation]),
      - [server/go/gin_helpers.go]     ([SetContextValueGin],
        [StoreForValidationGin]).

    Stateful code is written in state-passing style over a record [Context]
    that stands for [*gin.Context] together with the objects it points to.
    The protocol engine ([x402http.HTTPServer]) and [encoding/json] live
    outside the repository and are section variables. *)

From Stdlib Require Import ZArith Lia Ascii.
From stdpp Require Import base option list gmap strings.

Local Open Scope string_scope.
Local Open Scope Z_scope.
Local Open Scope list_scope.

Abbreviation bytes := (list Byte.byte).

(** [[]byte(s)] : a Go string is its bytes. *)
Definition bytes_of_string (s : string) : bytes := String.list_byte_of_string s.

(* ====================================================================== *)
(** ** Protocol types (package x402, consumed at the interface boundary)   *)
(* ====================================================================== *)

Record PaymentRequirements := mkPaymentRequirements {
  req_Scheme  : string;
  req_Network : string;
  req_PayTo   : string;
  req_Asset   : string;
  req_Amount  : string
}.

Record PaymentPayload := mkPaymentPayload {
  pay_Signature   : bytes;
  pay_From        : string;
  pay_To          : string;
  pay_Value       : string;
  pay_ValidAfter  : Z;
  pay_ValidBefore : Z;
  pay_Nonce       : bytes
}.

Record VerifyResponse := mkVerifyResponse {
  IsValid       : bool;
  InvalidReason : string;
  vr_Payer      : string
}.

Record SettleResponse := mkSettleResponse {
  sr_Success     : bool;
  sr_ErrorReason : string;
  sr_Transaction : string;
  sr_Network     : string;
  sr_Payer       : string
}.

(** The result of [HTTPServer.ProcessSettlement]. *)
Record ProcessSettleResult := mkProcessSettleResult {
  Success     : bool;
  ErrorReason : string;
  Transaction : string;
  Network     : string;
  Payer       : string;
  Headers     : gmap string string
}.

(* ====================================================================== *)
(** ** types.go: PaymentData                                               *)
(* ====================================================================== *)

Definition PaymentDataKey : string := "xtended402PaymentData".

Record PaymentData := mkPaymentData {
  pd_PaymentPayload      : option PaymentPayload;
  pd_SettleResponse      : option SettleResponse;
  pd_PaymentRequirements : option PaymentRequirements;
  pd_VerifyResponse      : option VerifyResponse;
  pd_RequestBody         : bytes
}.

(** Go's [interface{}] restricted to the dynamic types that flow through
    this code; [any_nil] is the nil interface value. *)
#[warnings="-register-all"]
Inductive any :=
| any_nil
| any_string (s : string)
| any_int (n : Z)
| any_H (fields : list (string * any))
| any_PaymentData (p : PaymentData).

(** [gin.H{...}] *)
Definition gin_H (fields : list (string * any)) : any := any_H fields.

(* ====================================================================== *)
(** ** context.Context: a chain of key/value bindings                      *)
(* ====================================================================== *)

Inductive ctxKey :=
| key_string (s : string)      (* a key of dynamic type string *)
| key_private (n : nat).       (* a key of some other (package private) type *)

Global Instance ctxKey_eq_dec : EqDecision ctxKey.
Proof. solve_decision. Defined.

(** Innermost binding first. *)
Definition GoContext := list (ctxKey * any).

(** [context.WithValue(parent, key, val)] *)
Definition WithValue (parent : GoContext) (key : ctxKey) (val : any) : GoContext :=
  (key, val) :: parent.

(** [ctx.Value(key)]: the innermost binding of [key], nil when there is none. *)
Fixpoint ctx_Value (ctx : GoContext) (key : ctxKey) : any :=
  match ctx with
  | [] => any_nil
  | (k, v) :: parent => if decide (k = key) then v else ctx_Value parent key
  end.

(* ====================================================================== *)
(** ** net/textproto: header keys                                          *)
(* ====================================================================== *)

Definition byte_between (lo hi : N) (a : ascii) : bool :=
  ((lo <=? N_of_ascii a) && (N_of_ascii a <=? hi))%N.

(** [validHeaderFieldByte]: the token characters of RFC 7230. *)
Definition validHeaderFieldByte (a : ascii) : bool :=
  byte_between 48 57 a || byte_between 65 90 a || byte_between 97 122 a
  || bool_decide (a ∈ ["!"; "#"; "$"; "%"; "&"; "'"; "*"; "+"; "-"; "."; "^";
                       "_"; "`"; "|"; "~"]%char).

(** The loop of [canonicalMIMEHeaderKey]: upper case for the first letter
    and for a letter after a dash, lower case for the others. *)
Fixpoint canonicalise (upper : bool) (s : string) : string :=
  match s with
  | EmptyString => EmptyString
  | String a s =>
      let a :=
        if upper && byte_between 97 122 a then ascii_of_N (N_of_ascii a - 32)
        else if negb upper && byte_between 65 90 a then ascii_of_N (N_of_ascii a + 32)
        else a in
      String a (canonicalise (bool_decide (a = "-"%char)) s)
  end.

(** [textproto.CanonicalMIMEHeaderKey]: a key with a byte that is no token
    character is returned unchanged. *)
Definition CanonicalMIMEHeaderKey (s : string) : string :=
  if forallb validHeaderFieldByte (String.list_ascii_of_string s) then canonicalise true s
  else s.

(* ====================================================================== *)
(** ** net/http and io: request bodies                                     *)
(* ====================================================================== *)

(** An [io.ReadCloser]: the bytes not yet read, and whether the stream ends
    in a read error instead of EOF. *)
Record Reader := mkReader {
  unread : bytes;
  broken : bool
}.

(** [io.ReadAll(r)]: everything up to EOF or the first error; the reader is
    left drained. Returns the data, whether [err != nil], and the reader. *)
Definition io_ReadAll (r : Reader) : bytes * bool * Reader :=
  (unread r, broken r, mkReader [] (broken r)).

(** [io.NopCloser(bytes.NewBuffer(b))] *)
Definition NewBuffer (b : bytes) : Reader := mkReader b false.

Record http_Request := mkRequest {
  Method   : string;
  URL_Path : string;
  Host     : string;
  TLS      : bool;                (* [Request.TLS != nil] *)
  Header   : gmap string string;  (* the first value of each key *)
  Body     : option Reader;       (* [None] is a nil [Request.Body] *)
  req_ctx  : GoContext            (* [Request.Context()] *)
}.

Definition Request_set_Body (b : option Reader) (r : http_Request) : http_Request :=
  mkRequest (Method r) (URL_Path r) (Host r) (TLS r) (Header r) b (req_ctx r).

Definition Request_WithContext (ctx : GoContext) (r : http_Request) : http_Request :=
  mkRequest (Method r) (URL_Path r) (Host r) (TLS r) (Header r) (Body r) ctx.

(* ====================================================================== *)
(** ** gin.ResponseWriter over the client connection                       *)
(* ====================================================================== *)

Definition noWritten : Z := -1.
Definition StatusOK : Z := 200.
Definition StatusPaymentRequired : Z := 402.

(** gin's own [responseWriter] and the connection below it ([net/http]'s
    [response]): the pending status, the size written ([noWritten] until the
    header is sent), the header map, and what has gone out on the wire: the
    informational responses, the status line ([None] until [net/http] has
    written the header) and the body bytes [net/http] has accepted. The
    connection is not hijacked, and a [Content-Length] the handler declares
    is not held against the bytes it writes. *)
Record responseWriter := mkResponseWriter {
  rw_status    : Z;
  rw_size      : Z;
  rw_header    : gmap string string;
  wire_interim : list Z;
  wire_status  : option Z;
  wire_body    : bytes
}.

Definition rw_set_status (code : Z) (w : responseWriter) : responseWriter :=
  mkResponseWriter code (rw_size w) (rw_header w) (wire_interim w) (wire_status w)
                   (wire_body w).
Definition rw_set_size (size : Z) (w : responseWriter) : responseWriter :=
  mkResponseWriter (rw_status w) size (rw_header w) (wire_interim w) (wire_status w)
                   (wire_body w).
Definition rw_set_header (h : gmap string string) (w : responseWriter) : responseWriter :=
  mkResponseWriter (rw_status w) (rw_size w) h (wire_interim w) (wire_status w)
                   (wire_body w).

Definition bodyAllowedForStatus (status : Z) : bool :=
  if (100 <=? status) && (status <=? 199) then false
  else if status =? 204 then false
  else if status =? 304 then false
  else true.

(** [net/http]: [checkWriteHeaderCode] panics on a code that has not three
    digits. *)
Definition checkWriteHeaderCode (code : Z) : bool := (100 <=? code) && (code <=? 999).

(** [net/http]: [response.WriteHeader]. A second call is superfluous; an
    informational code other than 101 is sent at once and leaves the header
    to be written. The boolean says that the call panics. *)
Definition conn_WriteHeader (code : Z) (w : responseWriter) : responseWriter * bool :=
  match wire_status w with
  | Some _ => (w, false)
  | None =>
      if negb (checkWriteHeaderCode code) then (w, true)
      else if (100 <=? code) && (code <=? 199) && negb (code =? 101) then
        (mkResponseWriter (rw_status w) (rw_size w) (rw_header w)
                          (wire_interim w ++ [code]) None (wire_body w), false)
      else
        (mkResponseWriter (rw_status w) (rw_size w) (rw_header w)
                          (wire_interim w) (Some code) (wire_body w), false)
  end.

(** [net/http]: [response.Write]. The header goes out with 200 when none was
    written; data for a status that allows no body are refused. Returns the
    count written and whether an error is returned with it. *)
Definition conn_Write (data : bytes) (w : responseWriter) : responseWriter * Z * bool :=
  let w := (conn_WriteHeader StatusOK w).1 in
  if decide (length data = 0%nat) then (w, 0, false)
  else if bodyAllowedForStatus (default StatusOK (wire_status w)) then
    (mkResponseWriter (rw_status w) (rw_size w) (rw_header w) (wire_interim w)
                      (wire_status w) (wire_body w ++ data),
     Z.of_nat (length data), false)
  else (w, 0, true).

Definition rw_Written (w : responseWriter) : bool := negb (rw_size w =? noWritten).

Definition rw_WriteHeader (code : Z) (w : responseWriter) : responseWriter :=
  if (0 <? code) && negb (rw_status w =? code) then
    if rw_Written w then w else rw_set_status code w
  else w.

(** What a call on the writer comes to besides its effect: it returns, it
    returns an error, or it panics. *)
Inductive fault :=
| no_fault
| write_error
| panics.

(** [WriteHeaderNow]: the boolean says that the call panics. *)
Definition rw_WriteHeaderNow (w : responseWriter) : responseWriter * bool :=
  if rw_Written w then (w, false)
  else conn_WriteHeader (rw_status w) (rw_set_size 0 w).

Definition rw_Write (data : bytes) (w : responseWriter) : responseWriter * fault :=
  let '(w, p) := rw_WriteHeaderNow w in
  if p then (w, panics)
  else
    let '(w, n, err) := conn_Write data w in
    (rw_set_size (rw_size w + n) w, if err then write_error else no_fault).

(** [Flush]: the header is written, with 200 by [net/http] if gin's status
    was informational, and the buffers are flushed. *)
Definition rw_Flush (w : responseWriter) : responseWriter * bool :=
  let '(w, p) := rw_WriteHeaderNow w in
  if p then (w, true) else ((conn_WriteHeader StatusOK w).1, false).

(** The writer of a context that has just been reset for a new request. *)
Definition rw_fresh : responseWriter := mkResponseWriter StatusOK noWritten ∅ [] None [].

(* ====================================================================== *)
(** ** middleware.go: responseCapture                                      *)
(* ====================================================================== *)

(** The embedded [gin.ResponseWriter] is the context's [writermem] below;
    the mutex serialises the calls, each of which is one step here. *)
Record responseCapture := mkResponseCapture {
  body       : bytes;
  statusCode : Z;
  written    : bool
}.

Definition writeHeaderLocked (code : Z) (w : responseCapture) : responseCapture :=
  if negb (written w) then mkResponseCapture (body w) code true else w.

Definition rc_WriteHeader (code : Z) (w : responseCapture) : responseCapture :=
  writeHeaderLocked code w.

Definition rc_Write (data : bytes) (w : responseCapture) : responseCapture :=
  let w := if negb (written w) then writeHeaderLocked StatusOK w else w in
  mkResponseCapture (body w ++ data) (statusCode w) (written w).

Definition rc_WriteString (s : string) (w : responseCapture) : responseCapture :=
  rc_Write (bytes_of_string s) w.

(** [&responseCapture{ResponseWriter: c.Writer, body: &bytes.Buffer{},
    statusCode: http.StatusOK}] *)
Definition newResponseCapture : responseCapture := mkResponseCapture [] StatusOK false.

(** A call made on the proxy by the code behind it. *)
Inductive CaptureCall :=
| CallWriteHeader (code : Z)
| CallWrite (data : bytes).

Definition rc_call (w : responseCapture) (call : CaptureCall) : responseCapture :=
  match call with
  | CallWriteHeader code => rc_WriteHeader code w
  | CallWrite data => rc_Write data w
  end.

Definition rc_calls (calls : list CaptureCall) (w : responseCapture) : responseCapture :=
  fold_left rc_call calls w.

(* ====================================================================== *)
(** ** The protocol engine's interface (package x402http)                  *)
(* ====================================================================== *)

(** [GinAdapter]: the engine's view of the request. *)
Record GinAdapter := mkGinAdapter { ctx : http_Request }.

(** [a.ctx.GetHeader(name)], which is [Request.Header.Get(name)]. *)
Definition GetHeader (a : GinAdapter) (name : string) : string :=
  default "" (Header (ctx a) !! CanonicalMIMEHeaderKey name).
Definition GetMethod (a : GinAdapter) : string := Method (ctx a).
Definition GetPath (a : GinAdapter) : string := URL_Path (ctx a).
Definition GetURL (a : GinAdapter) : string :=
  let scheme := if TLS (ctx a) then "https" else "http" in
  let host := if decide (Host (ctx a) = "") then GetHeader a "Host" else Host (ctx a) in
  scheme +:+ "://" +:+ host +:+ URL_Path (ctx a).
Definition GetAcceptHeader (a : GinAdapter) : string := GetHeader a "Accept".
Definition GetUserAgent (a : GinAdapter) : string := GetHeader a "User-Agent".

Record HTTPRequestContext := mkHTTPRequestContext {
  Adapter   : GinAdapter;
  rc_Path   : string;
  rc_Method : string
}.

Record HTTPResponseInstructions := mkHTTPResponseInstructions {
  ri_Status  : Z;
  ri_Headers : gmap string string;
  ri_Body    : any;
  ri_IsHTML  : bool
}.

Inductive HTTPProcessResultType :=
| ResultNoPaymentRequired
| ResultPaymentVerified
| ResultPaymentError
| ResultOther (s : string).        (* any other value of the string type *)

Record HTTPProcessResult := mkHTTPProcessResult {
  res_Type                : HTTPProcessResultType;
  res_Response            : option HTTPResponseInstructions;
  res_PaymentPayload      : option PaymentPayload;
  res_PaymentRequirements : option PaymentRequirements
}.

Record PaywallConfig := mkPaywallConfig {
  AppName : string;
  AppLogo : string;
  Testnet : bool
}.

(** The three operations the middleware consumes. The timeout context they
    are given bounds their duration only; a timed-out operation reports a
    failure like any other. *)
Record HTTPServer := mkHTTPServer {
  RequiresPayment    : HTTPRequestContext → bool;
  ProcessHTTPRequest : HTTPRequestContext → option PaywallConfig → HTTPProcessResult;
  ProcessSettlement  : PaymentPayload → PaymentRequirements → ProcessSettleResult
}.

(* ====================================================================== *)
(** ** The request's observable history                                    *)
(* ====================================================================== *)

(** One entry per call that leaves the middleware (engine, hook, callbacks,
    downstream handlers), with its result where it has one, and one per
    observation a handler makes. *)
Inductive Event :=
| EvRequiresPayment (reqCtx : HTTPRequestContext) (res : bool)
| EvProcessHTTPRequest (reqCtx : HTTPRequestContext) (res : HTTPProcessResult)
| EvBeforeSettleHook (verifyResp : VerifyResponse) (err : option string)
| EvProcessSettlement (p : PaymentPayload) (r : PaymentRequirements)
                      (res : ProcessSettleResult)
| EvErrorHandler (err : string)
| EvSettlementHandler (settleResponse : SettleResponse)
| EvHandler
| EvGetPaymentData (res : option PaymentData)
| EvReadBody (data : bytes) (err : bool).

(* ====================================================================== *)
(** ** gin.Context                                                         *)
(* ====================================================================== *)

(** What a handler can do with the context it is given. [c.Writer.Status],
    [Size] and [Written] only read the writer; a handler that hijacks the
    connection is outside this model. *)
Inductive HandlerOp :=
| OpWriteHeader (code : Z)               (* c.Status / c.Writer.WriteHeader *)
| OpWrite (data : bytes)                 (* c.Writer.Write *)
| OpWriteString (s : string)             (* c.Writer.WriteString *)
| OpWriteHeaderNow                       (* c.Writer.WriteHeaderNow *)
| OpFlush                                (* c.Writer.Flush *)
| OpHeader (key value : string)          (* c.Header *)
| OpAbort                                (* c.Abort *)
| OpSet (key : string) (value : any)     (* c.Set *)
| OpGetPaymentData                       (* xtended402.GetPaymentData(c) *)
| OpReadBody.                            (* io.ReadAll(c.Request.Body) *)

(** A [gin.HandlerFunc] of the chain behind the middleware. *)
Definition HandlerFunc := list HandlerOp.

(** Which object [c.Writer] designates. *)
Inductive WriterRef :=
| ToWritermem        (* the framework's own writer *)
| ToCapture.         (* the [responseCapture] installed by after-timing *)

(** [*gin.Context] with the objects reachable from it. [handlers] are the
    handlers of the chain that have not run yet and [aborted] says that the
    index has been moved to [abortIndex]; [panicked] says that a Go panic is
    unwinding the request; [trace] is the history so far. *)
Record Context := mkContext {
  Request   : http_Request;
  Writer    : WriterRef;
  writermem : responseWriter;
  capture   : responseCapture;
  Keys      : gmap string any;
  handlers  : list HandlerFunc;
  aborted   : bool;
  panicked  : bool;
  trace     : list Event
}.

Definition set_Request (r : http_Request) (c : Context) : Context :=
  mkContext r (Writer c) (writermem c) (capture c) (Keys c) (handlers c)
            (aborted c) (panicked c) (trace c).
Definition set_Writer (w : WriterRef) (c : Context) : Context :=
  mkContext (Request c) w (writermem c) (capture c) (Keys c) (handlers c)
            (aborted c) (panicked c) (trace c).
Definition set_writermem (w : responseWriter) (c : Context) : Context :=
  mkContext (Request c) (Writer c) w (capture c) (Keys c) (handlers c)
            (aborted c) (panicked c) (trace c).
Definition set_capture (w : responseCapture) (c : Context) : Context :=
  mkContext (Request c) (Writer c) (writermem c) w (Keys c) (handlers c)
            (aborted c) (panicked c) (trace c).
Definition set_Keys (k : gmap string any) (c : Context) : Context :=
  mkContext (Request c) (Writer c) (writermem c) (capture c) k (handlers c)
            (aborted c) (panicked c) (trace c).
Definition set_handlers (hs : list HandlerFunc) (c : Context) : Context :=
  mkContext (Request c) (Writer c) (writermem c) (capture c) (Keys c) hs
            (aborted c) (panicked c) (trace c).
Definition set_aborted (b : bool) (c : Context) : Context :=
  mkContext (Request c) (Writer c) (writermem c) (capture c) (Keys c) (handlers c)
            b (panicked c) (trace c).
Definition panic (c : Context) : Context :=
  mkContext (Request c) (Writer c) (writermem c) (capture c) (Keys c) (handlers c)
            (aborted c) true (trace c).
Definition log (e : Event) (c : Context) : Context :=
  mkContext (Request c) (Writer c) (writermem c) (capture c) (Keys c) (handlers c)
            (aborted c) (panicked c) (trace c ++ [e]).

(** Sequencing: nothing runs once a panic unwinds the request. *)
Definition andThen (c : Context) (k : Context → Context) : Context :=
  if panicked c then c else k c.

Notation "'do' c <- e ; k" := (andThen e (λ c, k))
  (at level 10, c name, e at level 100, k at level 200).

(** The context as the framework hands it to the first handler. *)
Definition newContext (r : http_Request) (hs : list HandlerFunc) : Context :=
  mkContext r ToWritermem rw_fresh newResponseCapture ∅ hs false false [].

Definition NewGinAdapter (c : Context) : GinAdapter := mkGinAdapter (Request c).

(** *** The writer [c.Writer] dispatches to *)

(** A call on the framework's writer, with what it comes to. *)
Definition on_writermem (r : responseWriter * bool) (c : Context) : Context :=
  let c := set_writermem r.1 c in
  if r.2 then panic c else c.

Definition c_Writer_WriteHeader (code : Z) (c : Context) : Context :=
  match Writer c with
  | ToWritermem => set_writermem (rw_WriteHeader code (writermem c)) c
  | ToCapture => set_capture (rc_WriteHeader code (capture c)) c
  end.

(** [c.Writer.Write(data)], with whether an error is returned. *)
Definition c_Writer_Write_err (data : bytes) (c : Context) : Context * bool :=
  match Writer c with
  | ToWritermem =>
      let '(w, f) := rw_Write data (writermem c) in
      let c := set_writermem w c in
      match f with
      | no_fault => (c, false)
      | write_error => (c, true)
      | panics => (panic c, false)
      end
  | ToCapture => (set_capture (rc_Write data (capture c)) c, false)
  end.

(** The same call with its results dropped: [_, _ = c.Writer.Write(data)]. *)
Definition c_Writer_Write (data : bytes) (c : Context) : Context :=
  (c_Writer_Write_err data c).1.

Definition c_Writer_WriteString (s : string) (c : Context) : Context :=
  match Writer c with
  | ToWritermem => c_Writer_Write (bytes_of_string s) c
  | ToCapture => set_capture (rc_WriteString s (capture c)) c
  end.

(** [WriteHeaderNow], [Flush] and [Header] are not overridden by the proxy:
    they are promoted from the embedded writer, whatever [c.Writer] is. *)
Definition c_Writer_WriteHeaderNow (c : Context) : Context :=
  on_writermem (rw_WriteHeaderNow (writermem c)) c.

Definition c_Writer_Flush (c : Context) : Context :=
  on_writermem (rw_Flush (writermem c)) c.

Definition c_Writer_Header (c : Context) : gmap string string := rw_header (writermem c).

(** *** Context methods *)

Definition c_Status (code : Z) (c : Context) : Context := c_Writer_WriteHeader code c.

(** [c.Header(key, value)]: [Header().Set] or, for an empty value,
    [Header().Del], both on the canonical form of the key. *)
Definition c_Header (key value : string) (c : Context) : Context :=
  if decide (value = "") then
    set_writermem
      (rw_set_header (delete (CanonicalMIMEHeaderKey key) (c_Writer_Header c))
                     (writermem c)) c
  else
    set_writermem
      (rw_set_header (<[CanonicalMIMEHeaderKey key := value]> (c_Writer_Header c))
                     (writermem c)) c.

(** [for key, value := range headers { c.Header(key, value) }], the keys
    taken in the order of [map_to_list]; Go leaves the order open, which
    shows when two keys of the map have one canonical form. *)
Definition range_Header (headers : gmap string string) (c : Context) : Context :=
  foldr (λ kv c, c_Header kv.1 kv.2 c) c (map_to_list headers).

Definition c_Abort (c : Context) : Context := set_aborted true c.
Definition c_IsAborted (c : Context) : bool := aborted c.

Definition c_Set (key : string) (value : any) (c : Context) : Context :=
  set_Keys (<[key := value]> (Keys c)) c.
Definition c_Get (key : string) (c : Context) : option any := Keys c !! key.

(** [render.writeContentType]: the map is read at the key as written here. *)
Definition writeContentType (value : string) (c : Context) : Context :=
  match c_Writer_Header c !! "Content-Type" with
  | Some _ => c
  | None => set_writermem
              (rw_set_header (<["Content-Type" := value]> (c_Writer_Header c)) (writermem c)) c
  end.

(** [c.Render(code, r)] for a renderer that sets the content type and writes
    [data]: a write that returns an error aborts the chain. *)
Definition c_Render (code : Z) (contentType : string) (data : bytes) (c : Context)
    : Context :=
  let c := c_Status code c in
  if negb (bodyAllowedForStatus code) then
    c_Writer_WriteHeaderNow (writeContentType contentType c)
  else
    let '(c, err) := c_Writer_Write_err data (writeContentType contentType c) in
    if panicked c then c
    else if err then c_Abort c else c.

(** [c.Data(code, contentType, data)] *)
Definition c_Data (code : Z) (contentType : string) (data : bytes) (c : Context) : Context :=
  c_Render code contentType data c.

(** The result of a call that may panic. *)
Inductive outcome (A : Type) :=
| Returns (a : A)
| Panics.
Arguments Returns {A} a.
Arguments Panics {A}.

(** types.go: [GetPaymentData]. The unchecked type assertion
    to a PaymentData pointer panics on a value of another type. *)
Definition GetPaymentData (c : Context) : outcome (option PaymentData) :=
  match c_Get PaymentDataKey c with
  | None => Returns None
  | Some (any_PaymentData p) => Returns (Some p)
  | Some _ => Panics
  end.

(** types.go: [UnmarshalOrderData], up to the decoder: the bytes handed to
    [json.Unmarshal], none for an empty body. *)
Definition UnmarshalOrderData_input (p : PaymentData) : option bytes :=
  if decide (length (pd_RequestBody p) = 0%nat) then None else Some (pd_RequestBody p).

(** gin_helpers.go *)
Definition SetContextValueGin (c : Context) (key : string) (value : any) : Context :=
  let ctx := WithValue (req_ctx (Request c)) (key_string key) value in
  set_Request (Request_WithContext ctx (Request c)) c.

Definition StoreForValidationGin (c : Context) (key : string) (value : any) : Context :=
  SetContextValueGin c key value.

(** helpers.go *)
Definition StoreForValidation (ctx : GoContext) (key : string) (value : any) : GoContext :=
  WithValue ctx (key_string key) value.

(** helpers.go: [ContextPrice]. [x402.Price] is [interface{}]; the result is
    the Go pair (price, error), the error given by its message. *)
Definition ContextPrice (key : string)
    (ctx : GoContext) (reqCtx : HTTPRequestContext) : any * option string :=
  match ctx_Value ctx (key_string key) with
  | any_string price => (any_string price, None)
  | _ => (any_nil, Some ("price not found in context with key: " +:+ key))
  end.

(** helpers.go: [CreateBeforeSettleHook]. [x402.SettleContext] is read
    through its [Ctx] field only; the result is the Go pair (result, error),
    a nil result being [None] and the error given by its message. *)
Record SettleContext := mkSettleContext { Ctx : GoContext }.

Record BeforeHookResult := mkBeforeHookResult {
  hr_Abort  : bool;
  hr_Reason : string
}.

Definition CreateBeforeSettleHook (validateFn : GoContext → option string)
    (settleCtx : SettleContext) : option BeforeHookResult * option string :=
  match validateFn (Ctx settleCtx) with
  | Some err => (Some (mkBeforeHookResult true err), None)
  | None => (None, None)
  end.

(** *** Running the handlers behind the middleware *)

Definition run_op (op : HandlerOp) (c : Context) : Context :=
  match op with
  | OpWriteHeader code => c_Writer_WriteHeader code c
  | OpWrite data => c_Writer_Write data c
  | OpWriteString s => c_Writer_WriteString s c
  | OpWriteHeaderNow => c_Writer_WriteHeaderNow c
  | OpFlush => c_Writer_Flush c
  | OpHeader key value => c_Header key value c
  | OpAbort => c_Abort c
  | OpSet key value => c_Set key value c
  | OpGetPaymentData =>
      match GetPaymentData c with
      | Returns res => log (EvGetPaymentData res) c
      | Panics => panic c
      end
  | OpReadBody =>
      match Body (Request c) with
      | None => panic c                      (* a read through a nil interface *)
      | Some r =>
          let '(data, err, r) := io_ReadAll r in
          log (EvReadBody data err) (set_Request (Request_set_Body (Some r) (Request c)) c)
      end
  end.

Fixpoint run_ops (ops : list HandlerOp) (c : Context) : Context :=
  match ops with
  | [] => c
  | op :: ops => do c <- run_op op c; run_ops ops c
  end.

(** The loop of [c.Next()]: the remaining handlers run in order until the
    chain is exhausted or aborted. *)
Fixpoint run_chain (hs : list HandlerFunc) (c : Context) : Context :=
  match hs with
  | [] => set_handlers [] c
  | h :: hs =>
      if c_IsAborted c then c
      else do c <- run_ops h (log EvHandler (set_handlers hs c)); run_chain hs c
  end.

Definition c_Next (c : Context) : Context := run_chain (handlers c) c.

(* ====================================================================== *)
(** ** middleware.go: configuration                                        *)
(* ====================================================================== *)

(** The hook and the two callbacks are handed the context: each answers,
    for the context it is called with, with what it does to it, the hook
    also with the error it returns ([None] for nil). [Routes],
    [FacilitatorClients] and [Schemes] only serve to build the engine and
    are left with it. *)
Record MiddlewareConfig := mkMiddlewareConfig {
  PaywallConfig_         : option PaywallConfig;
  SyncFacilitatorOnStart : bool;
  ErrorHandler           : option (Context → string → list HandlerOp);
  SettlementHandler      : option (Context → SettleResponse → list HandlerOp);
  Timeout                : Z;                                   (* nanoseconds *)
  SettlementTiming       : string;
  BeforeSettleHook       : option (Context → VerifyResponse
                                     → list HandlerOp * option string)
}.

Definition MiddlewareOption := MiddlewareConfig → MiddlewareConfig.

Definition WithPaywallConfig (config : option PaywallConfig) : MiddlewareOption :=
  λ c, mkMiddlewareConfig config (SyncFacilitatorOnStart c) (ErrorHandler c)
         (SettlementHandler c) (Timeout c) (SettlementTiming c) (BeforeSettleHook c).
Definition WithSyncFacilitatorOnStart (sync : bool) : MiddlewareOption :=
  λ c, mkMiddlewareConfig (PaywallConfig_ c) sync (ErrorHandler c)
         (SettlementHandler c) (Timeout c) (SettlementTiming c) (BeforeSettleHook c).
Definition WithErrorHandler (handler : option (Context → string → list HandlerOp))
    : MiddlewareOption :=
  λ c, mkMiddlewareConfig (PaywallConfig_ c) (SyncFacilitatorOnStart c) handler
         (SettlementHandler c) (Timeout c) (SettlementTiming c) (BeforeSettleHook c).
Definition WithSettlementHandler
    (handler : option (Context → SettleResponse → list HandlerOp)) : MiddlewareOption :=
  λ c, mkMiddlewareConfig (PaywallConfig_ c) (SyncFacilitatorOnStart c) (ErrorHandler c)
         handler (Timeout c) (SettlementTiming c) (BeforeSettleHook c).
Definition WithTimeout (timeout : Z) : MiddlewareOption :=
  λ c, mkMiddlewareConfig (PaywallConfig_ c) (SyncFacilitatorOnStart c) (ErrorHandler c)
         (SettlementHandler c) timeout (SettlementTiming c) (BeforeSettleHook c).
Definition WithSettlementTiming (timing : string) : MiddlewareOption :=
  λ c, mkMiddlewareConfig (PaywallConfig_ c) (SyncFacilitatorOnStart c) (ErrorHandler c)
         (SettlementHandler c) (Timeout c) timing (BeforeSettleHook c).
Definition WithBeforeSettleHook
    (hook : option (Context → VerifyResponse → list HandlerOp * option string))
    : MiddlewareOption :=
  λ c, mkMiddlewareConfig (PaywallConfig_ c) (SyncFacilitatorOnStart c) (ErrorHandler c)
         (SettlementHandler c) (Timeout c) (SettlementTiming c) hook.

Definition Second : Z := 1000000000.

(** The configuration [PaymentMiddleware] starts from, and the options
    applied to it in order. *)
Definition defaultConfig : MiddlewareConfig :=
  mkMiddlewareConfig None true None None (30 * Second) "after" None.

Definition applyOptions (opts : list MiddlewareOption) (config : MiddlewareConfig)
    : MiddlewareConfig :=
  fold_left (λ config opt, opt config) opts config.

(* ====================================================================== *)
(** ** middleware.go: the request handler                                  *)
(* ====================================================================== *)

Section Middleware.

(** [encoding/json], used by [c.JSON]. *)
Variable json_Marshal : any → bytes.

(** The protocol engine behind the middleware. *)
Variable server : HTTPServer.

(** [c.JSON(code, obj)], for values the encoder accepts. *)
Definition c_JSON (code : Z) (obj : any) (c : Context) : Context :=
  c_Render code "application/json; charset=utf-8" (json_Marshal obj) c.

(** The hook and the two callbacks are entered in the history when they are
    called, the hook with the error it is going to return. *)
Definition call_BeforeSettleHook
    (hook : Context → VerifyResponse → list HandlerOp * option string)
    (verifyResp : VerifyResponse) (c : Context) : Context :=
  run_ops (hook c verifyResp).1
          (log (EvBeforeSettleHook verifyResp (hook c verifyResp).2) c).

Definition call_ErrorHandler (handler : Context → string → list HandlerOp)
    (err : string) (c : Context) : Context :=
  run_ops (handler c err) (log (EvErrorHandler err) c).

Definition call_SettlementHandler (handler : Context → SettleResponse → list HandlerOp)
    (settleResponse : SettleResponse) (c : Context) : Context :=
  run_ops (handler c settleResponse) (log (EvSettlementHandler settleResponse) c).

(** [handlePaymentError] *)
Definition handlePaymentError (c : Context) (response : option HTTPResponseInstructions)
    (config : MiddlewareConfig) : Context :=
  match response with
  | None => panic c                                   (* nil dereference *)
  | Some response =>
      let c := c_Status (ri_Status response) c in
      let c := range_Header (ri_Headers response) c in
      if ri_IsHTML response then
        match ri_Body response with
        | any_string s =>
            do c <- c_Data (ri_Status response) "text/html; charset=utf-8"
                           (bytes_of_string s) c;
            c_Abort c
        | _ => panic c                                (* failed type assertion *)
        end
      else
        do c <- c_JSON (ri_Status response) (ri_Body response) c;
        c_Abort c
  end.

(** [handlePaymentVerifiedSettleAfter]: verify, run handler, settle. *)
Definition handlePaymentVerifiedSettleAfter (c : Context) (result : HTTPProcessResult)
    (config : MiddlewareConfig) (requestBody : bytes) : Context :=
  (* Process settlement, and what follows it *)
  let settle (c : Context) : Context :=
    match res_PaymentPayload result, res_PaymentRequirements result with
    | Some payload, Some requirements =>
        let settleResult := ProcessSettlement server payload requirements in
        let c := log (EvProcessSettlement payload requirements settleResult) c in
        if negb (Success settleResult) then
          let errorReason :=
            if decide (ErrorReason settleResult = "") then "Settlement failed"
            else ErrorReason settleResult in
          match ErrorHandler config with
          | Some handler =>
              call_ErrorHandler handler ("settlement failed: " +:+ errorReason) c
          | None =>
              c_JSON StatusPaymentRequired
                     (gin_H [("error", any_string "Settlement failed");
                         ("details", any_string errorReason)]) c
          end
        else
          let c := range_Header (Headers settleResult) c in
          do c <- match SettlementHandler config with
                  | Some handler =>
                      let settleResponse :=
                        mkSettleResponse true "" (Transaction settleResult)
                                         (Network settleResult) (Payer settleResult) in
                      call_SettlementHandler handler settleResponse c
                  | None => c
                  end;
          (* Write captured response *)
          let c := c_Writer_WriteHeader (statusCode (capture c)) c in
          c_Writer_Write (body (capture c)) c
    | _, _ => panic c                                 (* nil dereference *)
    end in
  (* Capture response for settlement *)
  let original := Writer c in
  let c := set_Writer ToCapture (set_capture newResponseCapture c) in
  (* Continue to protected handler *)
  do c <- c_Next c;
  if c_IsAborted c then c
  else
    (* Restore original writer *)
    let c := set_Writer original c in
    (* Don't settle if response failed *)
    if 400 <=? statusCode (capture c) then
      let c := c_Writer_WriteHeader (statusCode (capture c)) c in
      c_Writer_Write (body (capture c)) c
    else
      match BeforeSettleHook config with
      | Some hook =>
          let verifyResp := mkVerifyResponse true "" "" in
          let err := (hook c verifyResp).2 in
          do c <- call_BeforeSettleHook hook verifyResp c;
          match err with
          | Some err =>
              match ErrorHandler config with
              | Some handler =>
                  call_ErrorHandler handler ("before-settle hook failed: " +:+ err) c
              | None =>
                  c_JSON StatusPaymentRequired
                         (gin_H [("error", any_string "Pre-settlement validation failed");
                             ("details", any_string err)]) c
              end
          | None => settle c
          end
      | None => settle c
      end.

(** [handlePaymentVerifiedSettleBefore]: verify, settle, run handler. *)
Definition handlePaymentVerifiedSettleBefore (c : Context) (result : HTTPProcessResult)
    (config : MiddlewareConfig) (requestBody : bytes) : Context :=
  (* Process settlement BEFORE handler, and what follows it *)
  let settle (c : Context) : Context :=
    match res_PaymentPayload result, res_PaymentRequirements result with
    | Some payload, Some requirements =>
        let settleResult := ProcessSettlement server payload requirements in
        let c := log (EvProcessSettlement payload requirements settleResult) c in
        if negb (Success settleResult) then
          let errorReason :=
            if decide (ErrorReason settleResult = "") then "Settlement failed"
            else ErrorReason settleResult in
          do c <- match ErrorHandler config with
                  | Some handler =>
                      call_ErrorHandler handler ("settlement failed: " +:+ errorReason) c
                  | None =>
                      c_JSON StatusPaymentRequired
                             (gin_H [("error", any_string "Settlement failed");
                                 ("details", any_string errorReason)]) c
                  end;
          c_Abort c
        else
          let c := range_Header (Headers settleResult) c in
          (* Store PaymentData for handler *)
          let paymentData :=
            mkPaymentData
              (res_PaymentPayload result)
              (Some (mkSettleResponse true "" (Transaction settleResult)
                                      (Network settleResult) (Payer settleResult)))
              (res_PaymentRequirements result)
              (Some (mkVerifyResponse true "" ""))
              requestBody in
          let c := c_Set PaymentDataKey (any_PaymentData paymentData) c in
          do c <- match SettlementHandler config, pd_SettleResponse paymentData with
                  | Some handler, Some settleResponse =>
                      call_SettlementHandler handler settleResponse c
                  | _, _ => c
                  end;
          (* Continue to handler (payment already settled) *)
          c_Next c
    | _, _ => panic c                                 (* nil dereference *)
    end in
  match BeforeSettleHook config with
  | Some hook =>
      let verifyResp := mkVerifyResponse true "" "" in
      let err := (hook c verifyResp).2 in
      do c <- call_BeforeSettleHook hook verifyResp c;
      match err with
      | Some err =>
          do c <- match ErrorHandler config with
                  | Some handler =>
                      call_ErrorHandler handler ("before-settle hook failed: " +:+ err) c
                  | None =>
                      c_JSON StatusPaymentRequired
                             (gin_H [("error", any_string "Pre-settlement validation failed");
                                 ("details", any_string err)]) c
                  end;
          c_Abort c
      | None => settle c
      end
  | None => settle c
  end.

(** The first block of [createMiddlewareHandler]: preserve the request
    body. Returns [requestBody] (empty for Go's nil slice). *)
Definition captureRequestBody (c : Context) : bytes * Context :=
  match Body (Request c) with
  | Some b =>
      let '(bodyBytes, err, b) := io_ReadAll b in
      let c := set_Request (Request_set_Body (Some b) (Request c)) c in
      if negb err then
        (* Restore body for further reading *)
        (bodyBytes,
         set_Request (Request_set_Body (Some (NewBuffer bodyBytes)) (Request c)) c)
      else ([], c)
  | None => ([], c)
  end.

(** [createMiddlewareHandler]: the handler function itself. *)
Definition createMiddlewareHandler (config : MiddlewareConfig) (c : Context) : Context :=
  let '(requestBody, c) := captureRequestBody c in
  (* Create adapter and request context *)
  let adapter := NewGinAdapter c in
  let reqCtx :=
    mkHTTPRequestContext adapter (URL_Path (Request c)) (Method (Request c)) in
  (* Check if route requires payment *)
  let requires := RequiresPayment server reqCtx in
  let c := log (EvRequiresPayment reqCtx requires) c in
  if negb requires then c_Next c
  else
    let result := ProcessHTTPRequest server reqCtx (PaywallConfig_ config) in
    let c := log (EvProcessHTTPRequest reqCtx result) c in
    match res_Type result with
    | ResultNoPaymentRequired => c_Next c
    | ResultPaymentError => handlePaymentError c (res_Response result) config
    | ResultPaymentVerified =>
        if decide (SettlementTiming config = "before") then
          handlePaymentVerifiedSettleBefore c result config requestBody
        else
          handlePaymentVerifiedSettleAfter c result config requestBody
    | ResultOther _ => c
    end.

(** [PaymentMiddleware(routes, server, opts...)], the engine being given. *)
Definition PaymentMiddleware (opts : list MiddlewareOption) : Context → Context :=
  createMiddlewareHandler (applyOptions opts defaultConfig).

(** The framework's dispatch of a chain whose first handler is the
    middleware: the handlers it left pending run when it returns, unless
    the chain was aborted. *)
Definition serve (config : MiddlewareConfig) (c : Context) : Context :=
  do c <- createMiddlewareHandler config c; c_Next c.

End Middleware.

(* ====================================================================== *)
(** * Properties                                                           *)
(* ====================================================================== *)

(** ** The response capture proxy *)

(** The status the calls fix: the code of a leading [WriteHeader], else 200. *)
Definition first_status (calls : list CaptureCall) : Z :=
  match calls with
  | CallWriteHeader code :: _ => code
  | _ => StatusOK
  end.

(** The bytes the calls write, in call order. *)
Fixpoint written_bytes (calls : list CaptureCall) : bytes :=
  match calls with
  | [] => []
  | CallWriteHeader _ :: calls => written_bytes calls
  | CallWrite data :: calls => data ++ written_bytes calls
  end.

Lemma rc_call_fixes w call : written (rc_call w call) = true.
Proof.
  destruct call, w as [b s []]; reflexivity.
Qed.

Lemma rc_call_written w call :
  written w = true →
  statusCode (rc_call w call) = statusCode w ∧
  body (rc_call w call) = body w ++ written_bytes [call].
Proof.
  destruct w as [b s wr]; simpl; intros ->.
  destruct call; simpl; rewrite ?app_nil_r; auto.
Qed.

Lemma rc_calls_written calls : ∀ w,
  written w = true →
  statusCode (rc_calls calls w) = statusCode w ∧
  written (rc_calls calls w) = true ∧
  body (rc_calls calls w) = body w ++ written_bytes calls.
Proof.
  induction calls as [|call calls IH]; intros w Hw; simpl.
  - by rewrite app_nil_r.
  - destruct (rc_call_written w call Hw) as [Hs Hb].
    destruct (IH (rc_call w call) (rc_call_fixes w call)) as (IHs & IHw & IHb).
    rewrite IHs, IHw, IHb, Hs, Hb. split_and!; try done.
    rewrite <- app_assoc. f_equal. destruct call; simpl; by rewrite ?app_nil_r.
Qed.

Lemma rc_calls_app pre post w :
  rc_calls (pre ++ post) w = rc_calls post (rc_calls pre w).
Proof. apply fold_left_app. Qed.

Lemma rc_calls_fixed call calls w : written (rc_calls (call :: calls) w) = true.
Proof.
  simpl. by destruct (rc_calls_written calls (rc_call w call) (rc_call_fixes w call))
    as (_ & ? & _).
Qed.

(** C8. For every sequence of WriteHeader and Write calls on a freshly
    installed capture proxy: the recorded status is the code of the first
    call when that call is a WriteHeader and 200 otherwise; the buffered
    body is the concatenation, in call order, of the slices written; once a
    first call has been made the status is fixed, and a later WriteHeader
    leaves the proxy as it was. *)
Theorem responseCapture_first_status_wins (calls : list CaptureCall) :
  statusCode (rc_calls calls newResponseCapture) = first_status calls ∧
  body (rc_calls calls newResponseCapture) = written_bytes calls ∧
  (∀ call pre post,
     statusCode (rc_calls ((call :: pre) ++ post) newResponseCapture)
     = statusCode (rc_calls (call :: pre) newResponseCapture)) ∧
  (∀ call pre code,
     rc_calls ((call :: pre) ++ [CallWriteHeader code]) newResponseCapture
     = rc_calls (call :: pre) newResponseCapture).
Proof.
  split_and!.
  - destruct calls as [|call calls]; [done|]. simpl.
    destruct (rc_calls_written calls _ (rc_call_fixes newResponseCapture call)) as (-> & _).
    by destruct call.
  - destruct calls as [|call calls]; [done|]. simpl.
    destruct (rc_calls_written calls _ (rc_call_fixes newResponseCapture call))
      as (_ & _ & ->).
    by destruct call.
  - intros call pre post. rewrite rc_calls_app.
    by destruct (rc_calls_written post _ (rc_calls_fixed call pre newResponseCapture))
      as (-> & _).
  - intros call pre code. rewrite rc_calls_app. simpl.
    pose proof (rc_calls_fixed call pre newResponseCapture) as Hw.
    destruct (rc_calls _ _) as [b s wr]. simpl in Hw. by subst wr.
Qed.

(** ** The context price resolver *)

Lemma ctx_Value_no_string ctx key :
  (∀ s, (key, any_string s) ∉ ctx) → ∀ s, ctx_Value ctx key ≠ any_string s.
Proof.
  induction ctx as [|[k v] ctx IH]; intros Hno s; simpl; [done|].
  case_decide as Hk.
  - subst k. intros ->. apply (Hno s). left.
  - apply IH. intros s' Hin. apply (Hno s'). by right.
Qed.

(** What the price function answers when it finds no price. *)
Definition price_not_found (key : string) : any * option string :=
  (any_nil, Some ("price not found in context with key: " +:+ key)).

(** C7. For every key and every request context: when the value the
    context holds for the key is not a string - nothing was stored under
    the key, or what was stored last is no string - the price function of
    [ContextPrice key] returns no price (the nil price) together with the
    error "price not found in context with key: <key>"; so it does in
    particular when no string is bound to the key anywhere in the context,
    and right after a value that is no string has been stored under the
    key, whatever was stored before. When the value the context holds for
    the key is a string, and in particular right after a string has been
    stored under the key, it returns exactly that string and no error. *)
Theorem ContextPrice_not_found_is_explicit
    (key : string) (ctx : GoContext) (reqCtx : HTTPRequestContext) :
  ((∀ s, ctx_Value ctx (key_string key) ≠ any_string s) →
     ContextPrice key ctx reqCtx = price_not_found key ∧
     String.prefix "price not found"
       (default "" (ContextPrice key ctx reqCtx).2) = true) ∧
  ((∀ s, (key_string key, any_string s) ∉ ctx) →
     ContextPrice key ctx reqCtx = price_not_found key) ∧
  (∀ v, (∀ s, v ≠ any_string s) →
     ContextPrice key (StoreForValidation ctx key v) reqCtx = price_not_found key) ∧
  (∀ s, ctx_Value ctx (key_string key) = any_string s →
     ContextPrice key ctx reqCtx = (any_string s, None)) ∧
  (∀ s, ContextPrice key (StoreForValidation ctx key (any_string s)) reqCtx
        = (any_string s, None)) ∧
  (∀ s c, ContextPrice key
            (req_ctx (Request (SetContextValueGin c key (any_string s)))) reqCtx
          = (any_string s, None)).
Proof.
  assert (∀ ctx', (∀ s, ctx_Value ctx' (key_string key) ≠ any_string s) →
                  ContextPrice key ctx' reqCtx = price_not_found key) as Hnone.
  { intros ctx' Hv. unfold ContextPrice, price_not_found.
    destruct (ctx_Value ctx' (key_string key)) eqn:E; try done.
    by destruct (Hv s). }
  split_and!.
  - intros Hv. by rewrite (Hnone ctx Hv).
  - intros Hno. apply Hnone. by apply ctx_Value_no_string.
  - intros v Hv. apply Hnone. intros s. unfold StoreForValidation, WithValue. simpl.
    rewrite decide_True by done. apply Hv.
  - intros s Hs. unfold ContextPrice. by rewrite Hs.
  - intros s. unfold ContextPrice, StoreForValidation, WithValue. simpl.
    by rewrite decide_True.
  - intros s c. unfold ContextPrice, SetContextValueGin, WithValue. simpl.
    by rewrite decide_True.
Qed.

(** ** What the code behind the middleware can and cannot change *)

Definition is_observation (e : Event) : Prop :=
  match e with
  | EvGetPaymentData _ | EvReadBody _ _ => True
  | _ => False
  end.

Definition is_downstream (e : Event) : Prop :=
  match e with
  | EvHandler | EvGetPaymentData _ | EvReadBody _ _ => True
  | _ => False
  end.

Lemma observation_downstream e : is_observation e → is_downstream e.
Proof. by destruct e. Qed.

(** Two states of the framework's writer that differ at most in headers
    not yet sent. *)
Definition same_wire (w w' : responseWriter) : Prop :=
  rw_status w' = rw_status w ∧ rw_size w' = rw_size w ∧
  wire_interim w' = wire_interim w ∧
  wire_status w' = wire_status w ∧ wire_body w' = wire_body w.

Lemma same_wire_refl w : same_wire w w.
Proof. by repeat split. Qed.

Lemma same_wire_trans w1 w2 w3 : same_wire w1 w2 → same_wire w2 w3 → same_wire w1 w3.
Proof. intros (?&?&?&?&?) (?&?&?&?&?). repeat split; congruence. Qed.

(** Two states of the framework's writer between which nothing was sent. *)
Definition same_sent (w w' : responseWriter) : Prop :=
  rw_size w' = rw_size w ∧ wire_interim w' = wire_interim w ∧
  wire_status w' = wire_status w ∧ wire_body w' = wire_body w.

(** [sends w w']: [w'] is reached from [w] by calls on the writer. What
    has been sent stays sent, and a writer that has sent nothing is as it
    was in that respect. *)
Definition sends (w w' : responseWriter) : Prop :=
  (noWritten ≤ rw_size w → noWritten ≤ rw_size w') ∧
  (0 ≤ rw_size w → 0 ≤ rw_size w') ∧
  (noWritten ≤ rw_size w → rw_size w' = noWritten → same_sent w w').

Lemma sends_refl w : sends w w.
Proof. by repeat split. Qed.

Lemma sends_trans w1 w2 w3 : sends w1 w2 → sends w2 w3 → sends w1 w3.
Proof.
  unfold sends, same_sent, noWritten.
  intros (A1 & B1 & C1) (A2 & B2 & C2). split_and!; [auto..|].
  intros H1 H3. specialize (A1 H1).
  assert (rw_size w2 = -1) as H2.
  { destruct (decide (0 ≤ rw_size w2)) as [H|H]; [|lia].
    specialize (B2 H). lia. }
  destruct (C1 H1 H2) as (?&?&?&?), (C2 A1 H3) as (?&?&?&?).
  repeat split; congruence.
Qed.

Lemma rw_Written_false w : rw_Written w = false ↔ rw_size w = noWritten.
Proof. unfold rw_Written. rewrite negb_false_iff. apply Z.eqb_eq. Qed.

Lemma conn_WriteHeader_size code w :
  rw_size (conn_WriteHeader code w).1 = rw_size w.
Proof. unfold conn_WriteHeader. by repeat case_match. Qed.

Lemma conn_Write_size data w :
  rw_size (conn_Write data w).1.1 = rw_size w ∧ 0 ≤ (conn_Write data w).1.2.
Proof.
  unfold conn_Write. cbv zeta. rewrite <- (conn_WriteHeader_size StatusOK w).
  repeat case_match; simpl; split; (done || lia).
Qed.

Lemma rw_WriteHeader_sends code w : sends w (rw_WriteHeader code w).
Proof.
  unfold rw_WriteHeader. repeat case_match; try apply sends_refl.
  by repeat split.
Qed.

Lemma rw_WriteHeaderNow_sends w : sends w (rw_WriteHeaderNow w).1.
Proof.
  unfold rw_WriteHeaderNow. case_match; [apply sends_refl|].
  unfold sends. rewrite conn_WriteHeader_size. unfold noWritten. simpl.
  split_and!; intros; lia.
Qed.

Lemma rw_Write_sends data w : sends w (rw_Write data w).1.
Proof.
  unfold rw_Write.
  pose proof (rw_WriteHeaderNow_sends w) as Hn.
  assert (noWritten ≤ rw_size w → 0 ≤ rw_size (rw_WriteHeaderNow w).1) as H0.
  { unfold rw_WriteHeaderNow. destruct (rw_Written w) eqn:E; simpl.
    - apply negb_true_iff, Z.eqb_neq in E. unfold noWritten in *. lia.
    - rewrite conn_WriteHeader_size. simpl. lia. }
  destruct (rw_WriteHeaderNow w) as [w1 p]. simpl in *.
  destruct p; [done|].
  pose proof (conn_Write_size data w1) as [Hs Hn'].
  destruct (conn_Write data w1) as [[w2 n] e]. simpl in *.
  unfold sends, same_sent, noWritten in *. simpl. rewrite Hs.
  split_and!; intros; lia.
Qed.

Lemma rw_Flush_sends w : sends w (rw_Flush w).1.
Proof.
  unfold rw_Flush.
  pose proof (rw_WriteHeaderNow_sends w) as Hn.
  assert (noWritten ≤ rw_size w → 0 ≤ rw_size (rw_WriteHeaderNow w).1) as H0.
  { unfold rw_WriteHeaderNow. destruct (rw_Written w) eqn:E; simpl.
    - apply negb_true_iff, Z.eqb_neq in E. unfold noWritten in *. lia.
    - rewrite conn_WriteHeader_size. simpl. lia. }
  destruct (rw_WriteHeaderNow w) as [w1 p]. simpl in *.
  destruct p; [done|]. simpl.
  unfold sends, same_sent, noWritten in *. rewrite conn_WriteHeader_size.
  split_and!; intros; lia.
Qed.

(** [frame ev c c']: [c'] is reached from [c] by code that writes through
    [c.Writer] and the methods promoted to it, and whose entries in the
    history satisfy [ev]. *)
Record frame (ev : Event → Prop) (c c' : Context) : Prop := mkFrame {
  frame_Writer  : Writer c' = Writer c;
  frame_trace   : ∃ l, trace c' = trace c ++ l ∧ Forall ev l;
  frame_sends   : sends (writermem c) (writermem c');
  frame_status  : Writer c = ToCapture →
                  rw_status (writermem c') = rw_status (writermem c);
  frame_capture : Writer c = ToWritermem → capture c' = capture c;
  frame_aborted : aborted c = true → aborted c' = true
}.

(** The fields of a frame whose step adds nothing to the history. *)
Ltac quiet_frame :=
  split; simpl;
  [ try done; congruence
  | try done; exists []; by rewrite app_nil_r
  | try done; first [ apply sends_refl | by repeat split | eassumption ]
  | try done; congruence
  | try done; congruence
  | try done ].

Lemma frame_refl ev c : frame ev c c.
Proof. quiet_frame. Qed.

Lemma frame_trans ev c1 c2 c3 : frame ev c1 c2 → frame ev c2 c3 → frame ev c1 c3.
Proof.
  intros [W1 (l1 & T1 & F1) S1 R1 C1 A1] [W2 (l2 & T2 & F2) S2 R2 C2 A2]. split.
  - congruence.
  - exists (l1 ++ l2). rewrite T2, T1, app_assoc. split; [done|]. by apply Forall_app.
  - by eapply sends_trans.
  - intros Hw. rewrite R2, R1; [done..|]. congruence.
  - intros Hw. rewrite C2, C1; [done..|]. congruence.
  - auto.
Qed.

Lemma frame_mono (ev ev' : Event → Prop) c c' :
  (∀ e, ev e → ev' e) → frame ev c c' → frame ev' c c'.
Proof.
  intros Hev [W (l & T & F) S R C A]. split; try done.
  exists l. split; [done|]. eapply Forall_impl; eauto.
Qed.

Lemma frame_log (ev : Event → Prop) e c : ev e → frame ev c (log e c).
Proof.
  intros He. split; simpl; try done.
  exists [e]. split; [done|]. by constructor.
Qed.

(** While the proxy is installed and the framework's writer has sent
    nothing, that writer is as it was but for its headers. *)
Lemma frame_wire ev c c' :
  frame ev c c' →
  Writer c = ToCapture →
  rw_Written (writermem c) = false →
  rw_Written (writermem c') = false →
  same_wire (writermem c) (writermem c').
Proof.
  intros [_ _ (_ & _ & S) R _ _] HW HU HU'.
  apply rw_Written_false in HU, HU'.
  destruct S as (?&?&?&?); [unfold noWritten in *; lia | done |].
  specialize (R HW). by repeat split.
Qed.

(** A writer the code has its hands on that has sent nothing. *)
Lemma frame_unsent ev c c' :
  frame ev c c' →
  rw_Written (writermem c) = false →
  rw_Written (writermem c') = false →
  same_sent (writermem c) (writermem c').
Proof.
  intros [_ _ (_ & _ & S) _ _ _] HU HU'.
  apply rw_Written_false in HU, HU'.
  apply S; [unfold noWritten in *; lia | done].
Qed.

Lemma conn_WriteHeader_status code w :
  rw_status (conn_WriteHeader code w).1 = rw_status w.
Proof. unfold conn_WriteHeader. by repeat case_match. Qed.

Lemma rw_WriteHeaderNow_status w : rw_status (rw_WriteHeaderNow w).1 = rw_status w.
Proof.
  unfold rw_WriteHeaderNow. case_match; [done|]. by rewrite conn_WriteHeader_status.
Qed.

Lemma rw_Flush_status w : rw_status (rw_Flush w).1 = rw_status w.
Proof.
  unfold rw_Flush. pose proof (rw_WriteHeaderNow_status w) as H.
  destruct (rw_WriteHeaderNow w) as [w1 []]; simpl in *; [done|].
  by rewrite conn_WriteHeader_status.
Qed.

Lemma on_writermem_frame ev r c :
  sends (writermem c) r.1 → rw_status r.1 = rw_status (writermem c) →
  frame ev c (on_writermem r c).
Proof.
  intros S R. unfold on_writermem. destruct r as [w []]; simpl in *; quiet_frame.
Qed.

Lemma WriteHeader_frame ev code c : frame ev c (c_Writer_WriteHeader code c).
Proof.
  pose proof (rw_WriteHeader_sends code (writermem c)).
  unfold c_Writer_WriteHeader. destruct (Writer c) eqn:E; quiet_frame.
Qed.

Lemma Write_frame ev data c : frame ev c (c_Writer_Write data c).
Proof.
  unfold c_Writer_Write, c_Writer_Write_err. destruct (Writer c) eqn:E.
  - pose proof (rw_Write_sends data (writermem c)) as S.
    destruct (rw_Write data (writermem c)) as [w f]. simpl in S.
    destruct f; simpl; quiet_frame.
  - simpl. quiet_frame.
Qed.

Lemma WriteString_frame ev s c : frame ev c (c_Writer_WriteString s c).
Proof.
  unfold c_Writer_WriteString. destruct (Writer c) eqn:E.
  - apply Write_frame.
  - quiet_frame.
Qed.

Lemma c_Header_frame ev key value c : frame ev c (c_Header key value c).
Proof. unfold c_Header. case_decide; quiet_frame. Qed.

Lemma run_op_frame op c : frame is_observation c (run_op op c).
Proof.
  destruct op; simpl.
  - apply WriteHeader_frame.
  - apply Write_frame.
  - apply WriteString_frame.
  - apply on_writermem_frame; [apply rw_WriteHeaderNow_sends|apply rw_WriteHeaderNow_status].
  - apply on_writermem_frame; [apply rw_Flush_sends|apply rw_Flush_status].
  - apply c_Header_frame.
  - quiet_frame.
  - quiet_frame.
  - case_match; [by apply frame_log|]. quiet_frame.
  - repeat case_match; simplify_eq/=; [|quiet_frame].
    split; simpl; try done.
    eexists [_]. split; [done|]. by repeat constructor.
Qed.

Lemma run_op_handlers op c : handlers (run_op op c) = handlers c.
Proof.
  destruct op; simpl;
    unfold c_Writer_WriteHeader, c_Writer_WriteString, c_Writer_Write, c_Writer_Write_err,
           c_Writer_WriteHeaderNow, c_Writer_Flush, on_writermem, c_Header,
           c_Abort, c_Set;
    repeat case_match; simplify_eq/=; done.
Qed.

Lemma run_ops_frame ops : ∀ c, frame is_observation c (run_ops ops c).
Proof.
  induction ops as [|op ops IH]; intros c; simpl.
  - apply frame_refl.
  - unfold andThen. case_match.
    + apply run_op_frame.
    + eapply frame_trans; [apply run_op_frame | apply IH].
Qed.

Lemma run_ops_handlers ops : ∀ c, handlers (run_ops ops c) = handlers c.
Proof.
  induction ops as [|op ops IH]; intros c; simpl; [done|].
  unfold andThen. case_match.
  - apply run_op_handlers.
  - by rewrite IH, run_op_handlers.
Qed.

Lemma run_chain_frame hs : ∀ c, frame is_downstream c (run_chain hs c).
Proof.
  induction hs as [|h hs IH]; intros c; simpl.
  - split; try done. exists []. by rewrite app_nil_r.
  - case_match; [apply frame_refl|].
    assert (frame is_downstream c (run_ops h (log EvHandler (set_handlers hs c)))) as Hh.
    { eapply frame_trans with (c2 := log EvHandler (set_handlers hs c)).
      - split; simpl; try done.
        exists [EvHandler]. split; [done|]. by repeat constructor.
      - eapply frame_mono; [apply observation_downstream | apply run_ops_frame]. }
    unfold andThen. case_match; [done|].
    eapply frame_trans; [apply Hh | apply IH].
Qed.

Lemma c_Next_frame c : frame is_downstream c (c_Next c).
Proof. apply run_chain_frame. Qed.

(** When [c.Next()] returns normally, no handler is left to run. *)
Definition chain_done (c : Context) : Prop := handlers c = [] ∨ aborted c = true.

Lemma run_chain_done hs : ∀ c,
  panicked (run_chain hs c) = false → chain_done (run_chain hs c).
Proof.
  induction hs as [|h hs IH]; intros c; simpl.
  - by left.
  - unfold c_IsAborted. case_match; [by right|].
    unfold andThen. case_match; [congruence|]. apply IH.
Qed.

Lemma c_Next_done c : panicked (c_Next c) = false → chain_done (c_Next c).
Proof. apply run_chain_done. Qed.

Lemma c_Next_of_done c : chain_done c → c_Next c = c.
Proof.
  unfold c_Next. intros [Hh | Ha].
  - rewrite Hh. by destruct c; simpl in *; subst.
  - destruct (handlers c) eqn:Hh; simpl.
    + by destruct c; simpl in *; subst.
    + unfold c_IsAborted. by rewrite Ha.
Qed.

(** ** Field lemmas for the writer primitives *)

Arguments c_Next : simpl never.
Arguments run_ops : simpl never.
Arguments c_Writer_WriteHeader : simpl never.
Arguments c_Writer_Write : simpl never.
Arguments writeContentType : simpl never.
Arguments c_Render : simpl never.

Definition merge_header (headers h : gmap string string) : gmap string string :=
  foldr (λ kv h, if decide (kv.2 = "") then delete (CanonicalMIMEHeaderKey kv.1) h
                 else <[CanonicalMIMEHeaderKey kv.1 := kv.2]> h)
        h (map_to_list headers).
Arguments merge_header : simpl never.

Lemma range_Header_eq headers c :
  range_Header headers c
  = set_writermem (rw_set_header (merge_header headers (rw_header (writermem c)))
                                 (writermem c)) c.
Proof.
  unfold range_Header, merge_header.
  induction (map_to_list headers) as [|[k v] l IH]; simpl.
  - by destruct c as [? ? [? ? ? ? ? ?] ? ? ? ? ? ?].
  - rewrite IH. unfold c_Header, c_Writer_Header. simpl. by case_decide.
Qed.

(** A step that touches nothing but the two writer objects and, where a
    write fails, the flags of the chain. *)
Definition only_writes (f : Context → Context) : Prop :=
  ∀ c, Request (f c) = Request c ∧ Writer (f c) = Writer c ∧ Keys (f c) = Keys c ∧
       handlers (f c) = handlers c ∧ trace (f c) = trace c.

Lemma WriteHeader_only_writes code : only_writes (c_Writer_WriteHeader code).
Proof. intros c. unfold c_Writer_WriteHeader. destruct (Writer c) eqn:E; by repeat split. Qed.

Lemma Write_only_writes data : only_writes (c_Writer_Write data).
Proof.
  intros c. unfold c_Writer_Write, c_Writer_Write_err.
  destruct (Writer c) eqn:E; [|by repeat split].
  destruct (rw_Write data (writermem c)) as [w []]; by repeat split.
Qed.

Lemma writeContentType_only_writes value : only_writes (writeContentType value).
Proof. intros c. unfold writeContentType. case_match; by repeat split. Qed.

Lemma WriteHeaderNow_only_writes : only_writes c_Writer_WriteHeaderNow.
Proof.
  intros c. unfold c_Writer_WriteHeaderNow, on_writermem.
  destruct (rw_WriteHeaderNow (writermem c)) as [w []]; by repeat split.
Qed.

Lemma c_Render_only_writes code contentType data :
  only_writes (c_Render code contentType data).
Proof.
  intros c. unfold c_Render, c_Status.
  destruct (WriteHeader_only_writes code c) as (?&?&?&?&?).
  set (c1 := c_Writer_WriteHeader code c) in *. clearbody c1.
  destruct (writeContentType_only_writes contentType c1) as (?&?&?&?&?).
  set (c2 := writeContentType contentType c1) in *. clearbody c2.
  case_match.
  - destruct (WriteHeaderNow_only_writes c2) as (?&?&?&?&?).
    repeat split; congruence.
  - destruct (Write_only_writes data c2) as (?&?&?&?&?).
    unfold c_Writer_Write in *.
    destruct (c_Writer_Write_err data c2) as [c3 e]. simpl in *.
    repeat case_match; simpl; repeat split; congruence.
Qed.

Ltac fields_of H :=
  let c := fresh "c" in
  intros c; destruct (H c) as (?&?&?&?&?); done.

Lemma Request_WriteHeader code c : Request (c_Writer_WriteHeader code c) = Request c.
Proof. revert c. fields_of (WriteHeader_only_writes code). Qed.
Lemma Writer_WriteHeader code c : Writer (c_Writer_WriteHeader code c) = Writer c.
Proof. revert c. fields_of (WriteHeader_only_writes code). Qed.
Lemma Keys_WriteHeader code c : Keys (c_Writer_WriteHeader code c) = Keys c.
Proof. revert c. fields_of (WriteHeader_only_writes code). Qed.
Lemma handlers_WriteHeader code c : handlers (c_Writer_WriteHeader code c) = handlers c.
Proof. revert c. fields_of (WriteHeader_only_writes code). Qed.
Lemma trace_WriteHeader code c : trace (c_Writer_WriteHeader code c) = trace c.
Proof. revert c. fields_of (WriteHeader_only_writes code). Qed.
Lemma aborted_WriteHeader code c : aborted (c_Writer_WriteHeader code c) = aborted c.
Proof. unfold c_Writer_WriteHeader. by destruct (Writer c). Qed.
Lemma panicked_WriteHeader code c : panicked (c_Writer_WriteHeader code c) = panicked c.
Proof. unfold c_Writer_WriteHeader. by destruct (Writer c). Qed.

Lemma Request_Write data c : Request (c_Writer_Write data c) = Request c.
Proof. revert c. fields_of (Write_only_writes data). Qed.
Lemma Writer_Write data c : Writer (c_Writer_Write data c) = Writer c.
Proof. revert c. fields_of (Write_only_writes data). Qed.
Lemma Keys_Write data c : Keys (c_Writer_Write data c) = Keys c.
Proof. revert c. fields_of (Write_only_writes data). Qed.
Lemma handlers_Write data c : handlers (c_Writer_Write data c) = handlers c.
Proof. revert c. fields_of (Write_only_writes data). Qed.
Lemma trace_Write data c : trace (c_Writer_Write data c) = trace c.
Proof. revert c. fields_of (Write_only_writes data). Qed.
Lemma aborted_Write data c : aborted (c_Writer_Write data c) = aborted c.
Proof.
  unfold c_Writer_Write, c_Writer_Write_err. destruct (Writer c); [|done].
  by destruct (rw_Write data (writermem c)) as [w []].
Qed.

Lemma Request_writeContentType v c : Request (writeContentType v c) = Request c.
Proof. revert c. fields_of (writeContentType_only_writes v). Qed.
Lemma Writer_writeContentType v c : Writer (writeContentType v c) = Writer c.
Proof. revert c. fields_of (writeContentType_only_writes v). Qed.
Lemma Keys_writeContentType v c : Keys (writeContentType v c) = Keys c.
Proof. revert c. fields_of (writeContentType_only_writes v). Qed.
Lemma handlers_writeContentType v c : handlers (writeContentType v c) = handlers c.
Proof. revert c. fields_of (writeContentType_only_writes v). Qed.
Lemma trace_writeContentType v c : trace (writeContentType v c) = trace c.
Proof. revert c. fields_of (writeContentType_only_writes v). Qed.
Lemma aborted_writeContentType v c : aborted (writeContentType v c) = aborted c.
Proof. unfold writeContentType. by case_match. Qed.
Lemma panicked_writeContentType v c : panicked (writeContentType v c) = panicked c.
Proof. unfold writeContentType. by case_match. Qed.
Lemma capture_writeContentType v c : capture (writeContentType v c) = capture c.
Proof. unfold writeContentType. by case_match. Qed.

Lemma Request_c_Render code ct data c : Request (c_Render code ct data c) = Request c.
Proof. revert c. fields_of (c_Render_only_writes code ct data). Qed.
Lemma Writer_c_Render code ct data c : Writer (c_Render code ct data c) = Writer c.
Proof. revert c. fields_of (c_Render_only_writes code ct data). Qed.
Lemma Keys_c_Render code ct data c : Keys (c_Render code ct data c) = Keys c.
Proof. revert c. fields_of (c_Render_only_writes code ct data). Qed.
Lemma handlers_c_Render code ct data c : handlers (c_Render code ct data c) = handlers c.
Proof. revert c. fields_of (c_Render_only_writes code ct data). Qed.
Lemma trace_c_Render code ct data c : trace (c_Render code ct data c) = trace c.
Proof. revert c. fields_of (c_Render_only_writes code ct data). Qed.

Create Rewrite HintDb fields.
#[export] Hint Rewrite
  Request_WriteHeader Writer_WriteHeader Keys_WriteHeader handlers_WriteHeader
  aborted_WriteHeader panicked_WriteHeader trace_WriteHeader
  Request_Write Writer_Write Keys_Write handlers_Write
  aborted_Write trace_Write
  Request_writeContentType Writer_writeContentType Keys_writeContentType
  handlers_writeContentType aborted_writeContentType panicked_writeContentType
  trace_writeContentType capture_writeContentType
  Request_c_Render Writer_c_Render Keys_c_Render handlers_c_Render trace_c_Render
  range_Header_eq : fields.

(** A response rendered on the framework's writer adds nothing to the
    history and keeps a chain aborted. *)
Lemma c_Render_frame ev code contentType data c :
  frame ev c (c_Render code contentType data c).
Proof.
  unfold c_Render, c_Status.
  pose proof (WriteHeader_frame ev code c) as F1.
  set (c1 := c_Writer_WriteHeader code c) in *. clearbody c1.
  assert (frame ev c1 (writeContentType contentType c1)) as F2.
  { unfold writeContentType. case_match; quiet_frame. }
  set (c2 := writeContentType contentType c1) in *. clearbody c2.
  eapply frame_trans; [exact F1|]. eapply frame_trans; [exact F2|].
  case_match.
  - apply on_writermem_frame; [apply rw_WriteHeaderNow_sends|apply rw_WriteHeaderNow_status].
  - pose proof (Write_frame ev data c2) as F3. unfold c_Writer_Write in F3.
    destruct (c_Writer_Write_err data c2) as [c3 e]. simpl in F3.
    repeat case_match; try done.
    eapply frame_trans; [exact F3|]. quiet_frame.
Qed.

(** The header map once [writeContentType] has run: a content type that is
    already set is kept. *)
Definition with_content_type (value : string) (h : gmap string string)
    : gmap string string :=
  match h !! "Content-Type" with
  | Some _ => h
  | None => <["Content-Type" := value]> h
  end.

(** The middleware was handed the framework's own writer, and nothing has
    been sent to the client yet. *)
Definition unwritten (c : Context) : Prop :=
  Writer c = ToWritermem ∧ rw_Written (writermem c) = false ∧
  wire_status (writermem c) = None.

(** A status [net/http] sends as the status of the response. *)
Definition final_status (code : Z) : Prop :=
  200 ≤ code ≤ 999 ∨ code = 101.

Lemma rw_WriteHeader_unwritten code w :
  rw_Written w = false → 0 < code → rw_WriteHeader code w = rw_set_status code w.
Proof.
  intros HU Hc. unfold rw_WriteHeader. rewrite HU.
  assert ((0 <? code) = true) as -> by lia. simpl.
  destruct (rw_status w =? code) eqn:E; simpl; [|done].
  apply Z.eqb_eq in E. subst code. by destruct w.
Qed.

Lemma rw_WriteHeaderNow_unwritten w :
  rw_Written w = false → wire_status w = None → final_status (rw_status w) →
  rw_WriteHeaderNow w
  = (mkResponseWriter (rw_status w) 0 (rw_header w) (wire_interim w)
                      (Some (rw_status w)) (wire_body w), false).
Proof.
  intros HU HS Hc. unfold rw_WriteHeaderNow, conn_WriteHeader, checkWriteHeaderCode.
  rewrite HU. simpl. rewrite HS.
  destruct Hc as [Hc| ->].
  - assert ((100 <=? rw_status w) = true) as -> by lia.
    assert ((rw_status w <=? 999) = true) as -> by lia.
    assert ((rw_status w <=? 199) = false) as -> by lia. done.
  - done.
Qed.

Lemma rw_Write_unwritten data w :
  rw_Written w = false → wire_status w = None → final_status (rw_status w) →
  bodyAllowedForStatus (rw_status w) = true →
  rw_Write data w
  = (mkResponseWriter (rw_status w) (Z.of_nat (length data)) (rw_header w)
                      (wire_interim w) (Some (rw_status w)) (wire_body w ++ data),
     no_fault).
Proof.
  intros HU HS Hc Hb. unfold rw_Write.
  rewrite rw_WriteHeaderNow_unwritten by done.
  unfold conn_Write, conn_WriteHeader, rw_set_size. simpl. rewrite Hb.
  case_decide as Hd; simpl; [|done].
  apply nil_length_inv in Hd. subst data. by rewrite app_nil_r.
Qed.

(** A response rendered before anything was sent, with a status that
    [net/http] accepts and that allows a body. *)
Lemma c_Render_unwritten code contentType data c :
  unwritten c → 200 ≤ code ≤ 999 → bodyAllowedForStatus code = true →
  c_Render code contentType data c
  = set_writermem
      (mkResponseWriter code (Z.of_nat (length data))
         (with_content_type contentType (rw_header (writermem c)))
         (wire_interim (writermem c)) (Some code) (wire_body (writermem c) ++ data)) c.
Proof.
  intros (HW & HU & HS) Hcode Hbody.
  unfold c_Render, c_Status, c_Writer_WriteHeader. rewrite HW, Hbody.
  rewrite rw_WriteHeader_unwritten by (done || lia). simpl negb. cbv iota.
  unfold writeContentType, c_Writer_Header, c_Writer_Write_err, with_content_type.
  simpl.
  destruct (rw_header (writermem c) !! "Content-Type") eqn:E; simpl; rewrite HW.
  all: rewrite rw_Write_unwritten; simpl; try done; try (left; lia).
  all: by destruct (panicked c) eqn:Ep; destruct c; simpl in *; subst.
Qed.

(** ** The protocol events of a request *)

Definition is_protocol (e : Event) : bool :=
  match e with
  | EvProcessHTTPRequest _ _ | EvBeforeSettleHook _ _ | EvProcessSettlement _ _ _ => true
  | _ => false
  end.

Fixpoint protocol_events (tr : list Event) : list Event :=
  match tr with
  | [] => []
  | e :: tr => if is_protocol e then e :: protocol_events tr else protocol_events tr
  end.

Lemma protocol_events_app l1 l2 :
  protocol_events (l1 ++ l2) = protocol_events l1 ++ protocol_events l2.
Proof. induction l1 as [|e l1 IH]; simpl; [done|]. case_match; simpl; congruence. Qed.

Lemma protocol_events_downstream l : Forall is_downstream l → protocol_events l = [].
Proof. induction 1 as [|e l He _ IH]; simpl; [done|]. by destruct e. Qed.

Lemma protocol_events_observation l : Forall is_observation l → protocol_events l = [].
Proof. induction 1 as [|e l He _ IH]; simpl; [done|]. by destruct e. Qed.

(** The value both timing branches hand to the hook. *)
Definition simplifiedVerify : VerifyResponse := mkVerifyResponse true "" "".

(** The hook and settlement calls a verified request can make, in order. *)
Inductive settlement_run : list Event → Prop :=
| sr_nothing : settlement_run []
| sr_hook err : settlement_run [EvBeforeSettleHook simplifiedVerify err]
| sr_settle p r res : settlement_run [EvProcessSettlement p r res]
| sr_hook_settle p r res :
    settlement_run [EvBeforeSettleHook simplifiedVerify None; EvProcessSettlement p r res].

(** The verification, hook and settlement calls of one request, in order. *)
Inductive protocol_run : list Event → Prop :=
| pr_free : protocol_run []
| pr_unverified reqCtx res :
    res_Type res ≠ ResultPaymentVerified →
    protocol_run [EvProcessHTTPRequest reqCtx res]
| pr_verified reqCtx res l :
    res_Type res = ResultPaymentVerified →
    settlement_run l →
    protocol_run (EvProcessHTTPRequest reqCtx res :: l).

Lemma captureRequestBody_only_Request c :
  (captureRequestBody c).2 = set_Request (Request (captureRequestBody c).2) c.
Proof.
  unfold captureRequestBody, io_ReadAll.
  destruct c as [rq wr wm cap ks hs ab pn tr]; simpl.
  repeat case_match; simplify_eq/=; done.
Qed.

(** Replace the history of each [run_ops] and [c_Next] in the goal by the
    history before it and the entries it added. *)
Ltac frames :=
  repeat match goal with
  | |- context [trace (run_ops ?ops ?c)] =>
      let l := fresh "l" in let E := fresh "E" in let F := fresh "F" in
      destruct (frame_trace _ _ _ (run_ops_frame ops c)) as (l & E & F);
      rewrite E; clear E
  | |- context [trace (c_Next ?c)] =>
      let l := fresh "l" in let E := fresh "E" in let F := fresh "F" in
      destruct (frame_trace _ _ _ (c_Next_frame c)) as (l & E & F);
      rewrite E; clear E
  end.

Ltac trace_norm :=
  repeat (autorewrite with fields; simpl; frames);
  rewrite <- ?app_assoc.

Ltac quiet_events :=
  repeat match goal with
  | F : Forall is_observation ?l |- context [protocol_events ?l] =>
      rewrite (protocol_events_observation l F)
  | F : Forall is_downstream ?l |- context [protocol_events ?l] =>
      rewrite (protocol_events_downstream l F)
  end.

Ltac close_run :=
  (eexists; split; [first [reflexivity | symmetry; apply app_nil_r]|]);
  rewrite ?protocol_events_app; simpl; quiet_events; simpl; try constructor.

Lemma Forall_elem {A} (P : A → Prop) l x : Forall P l → x ∈ l → P x.
Proof. intros F. by apply Forall_forall. Qed.

(** Case analysis on a membership [H : e ∈ l] in a history made of
    explicit entries and of entries added by the code behind. *)
Ltac split_elem H :=
  repeat match type of H with
  | _ ∈ _ ++ _ => apply elem_of_app in H as [H|H]
  | _ ∈ _ :: _ => apply elem_of_cons in H as [H|H]
  | _ ∈ [] => by apply elem_of_nil in H
  | _ ∈ ?l =>
      match goal with
      | F : Forall _ l |- _ => by destruct (Forall_elem _ _ _ F H)
      end
  end.

Ltac no_elem := let H := fresh in intros H; split_elem H; simplify_eq.

Lemma app_self_nil {A} (t l : list A) : t = t ++ l → l = [].
Proof.
  intros Ht. rewrite <- (app_nil_r t) in Ht at 1. by apply app_inv_head in Ht.
Qed.

(** From [Ht : t ++ l' = t ++ l], the entries [l] a run added. *)
Ltac delta Ht l :=
  first [ apply app_inv_head in Ht | apply app_self_nil in Ht ]; subst l.

(** What the hook call adds to the history: its own entry and the
    observations it makes. *)
Definition is_hook_run (e : Event) : Prop :=
  match e with
  | EvBeforeSettleHook _ _ | EvGetPaymentData _ | EvReadBody _ _ => True
  | _ => False
  end.

Section Properties.
Variable json_Marshal : any → bytes.
Variable server : HTTPServer.

Local Abbreviation Before := (handlePaymentVerifiedSettleBefore json_Marshal server).
Local Abbreviation After := (handlePaymentVerifiedSettleAfter json_Marshal server).

Lemma Before_protocol c result config requestBody :
  ∃ l, trace (Before c result config requestBody) = trace c ++ l ∧
       settlement_run (protocol_events l).
Proof.
  unfold handlePaymentVerifiedSettleBefore, call_BeforeSettleHook, call_ErrorHandler,
         call_SettlementHandler, c_JSON, c_Abort, c_Set, andThen.
  cbv zeta.
  repeat (case_match; simplify_eq/=).
  all: trace_norm; close_run.
Qed.

Lemma After_protocol c result config requestBody :
  ∃ l, trace (After c result config requestBody) = trace c ++ l ∧
       settlement_run (protocol_events l).
Proof.
  unfold handlePaymentVerifiedSettleAfter, call_BeforeSettleHook, call_ErrorHandler,
         call_SettlementHandler, c_JSON, c_IsAborted, andThen.
  cbv zeta.
  repeat (case_match; simplify_eq/=).
  all: trace_norm; close_run.
Qed.

Lemma handlePaymentError_trace c response config :
  trace (handlePaymentError json_Marshal c response config) = trace c.
Proof.
  unfold handlePaymentError, c_JSON, c_Data, c_Status, c_Abort, andThen.
  repeat (case_match; simplify_eq/=); by repeat (autorewrite with fields; simpl).
Qed.

Lemma createMiddlewareHandler_protocol config c :
  ∃ l, trace (createMiddlewareHandler json_Marshal server config c) = trace c ++ l ∧
       protocol_run (protocol_events l).
Proof.
  unfold createMiddlewareHandler.
  pose proof (captureRequestBody_only_Request c) as Hc.
  destruct (captureRequestBody c) as [requestBody c0]. simpl in Hc.
  cbv zeta.
  repeat (case_match; simplify_eq/=).
  all: try rewrite handlePaymentError_trace.
  all: try match goal with
       | |- context [trace (Before ?c ?r ?cfg ?b)] =>
           destruct (Before_protocol c r cfg b) as (l & -> & Hl)
       | |- context [trace (After ?c ?r ?cfg ?b)] =>
           destruct (After_protocol c r cfg b) as (l & -> & Hl)
       end.
  all: rewrite Hc.
  all: trace_norm.
  all: (eexists; split; [first [reflexivity | symmetry; apply app_nil_r]|]);
    rewrite ?protocol_events_app; simpl; quiet_events;
    repeat match goal with H : protocol_events _ = [] |- _ => rewrite H; clear H end;
    simpl.
  all: try (by constructor).
  all: try (constructor; congruence).
Qed.

Lemma serve_protocol config c :
  ∃ l, trace (serve json_Marshal server config c) = trace c ++ l ∧
       protocol_run (protocol_events l).
Proof.
  unfold serve, andThen.
  destruct (createMiddlewareHandler_protocol config c) as (l & E & Hl).
  case_match; [by eauto|].
  destruct (frame_trace _ _ _ (c_Next_frame (createMiddlewareHandler json_Marshal server config c)))
    as (l' & -> & F).
  rewrite E. exists (l ++ l'). rewrite app_assoc. split; [done|].
  by rewrite protocol_events_app, (protocol_events_downstream l'), app_nil_r.
Qed.
(** *** Counting calls *)

Definition is_verification (e : Event) : bool :=
  match e with EvProcessHTTPRequest _ _ => true | _ => false end.
Definition is_settlement (e : Event) : bool :=
  match e with EvProcessSettlement _ _ _ => true | _ => false end.
Definition is_hook (e : Event) : bool :=
  match e with EvBeforeSettleHook _ _ => true | _ => false end.

Fixpoint count_events (p : Event → bool) (tr : list Event) : nat :=
  match tr with
  | [] => 0
  | e :: tr => ((if p e then 1 else 0) + count_events p tr)%nat
  end.

Lemma count_events_app p l1 l2 :
  count_events p (l1 ++ l2) = (count_events p l1 + count_events p l2)%nat.
Proof. induction l1 as [|e l1 IH]; simpl; [done|]. rewrite IH. lia. Qed.

Lemma count_protocol_events p l :
  (∀ e, p e = true → is_protocol e = true) →
  count_events p l = count_events p (protocol_events l).
Proof.
  intros Hp. induction l as [|e l IH]; simpl; [done|].
  destruct (is_protocol e) eqn:E; simpl; [by rewrite IH|].
  destruct (p e) eqn:E'; [|done]. apply Hp in E'. congruence.
Qed.

Lemma protocol_run_counts l :
  protocol_run l →
  (count_events is_verification l ≤ 1 ∧ count_events is_settlement l ≤ 1 ∧
   count_events is_hook l ≤ 1)%nat.
Proof.
  destruct 1 as [| |reqCtx res l Hv Hl]; simpl; [lia..|].
  destruct Hl; simpl; lia.
Qed.

(** C3. For every request the middleware processes, whatever the timing
    mode and whether or not a hook is configured, the engine's
    verification operation (ProcessHTTPRequest) is called at most once and
    its settlement operation (ProcessSettlement) is called at most once:
    the request adds at most one entry of each kind to the history. *)
Theorem verification_and_settlement_at_most_once config c :
  (count_events is_verification (trace (serve json_Marshal server config c))
     ≤ count_events is_verification (trace c) + 1)%nat ∧
  (count_events is_settlement (trace (serve json_Marshal server config c))
     ≤ count_events is_settlement (trace c) + 1)%nat.
Proof.
  destruct (serve_protocol config c) as (l & -> & Hl).
  apply protocol_run_counts in Hl. destruct Hl as (Hv & Hs & _).
  rewrite !count_events_app.
  rewrite (count_protocol_events is_verification l) by (by intros []).
  rewrite (count_protocol_events is_settlement l) by (by intros []).
  lia.
Qed.

Lemma elem_of_protocol_events e l :
  e ∈ l → is_protocol e = true → e ∈ protocol_events l.
Proof.
  induction 1 as [e l|e e' l Hin IH]; simpl; intros He.
  - rewrite He. left.
  - case_match; [right|]; auto.
Qed.

(** C10. In both timing modes the VerifyResponse handed to the hook is
    the record whose IsValid field is true and whose other fields are
    unset: every hook call of every request, for every engine and
    whatever its verification returned, carries that same value. *)
Theorem hook_receives_simplified_VerifyResponse config c :
  ∃ l, trace (serve json_Marshal server config c) = trace c ++ l ∧
       ∀ verifyResp err,
         EvBeforeSettleHook verifyResp err ∈ l →
         verifyResp = mkVerifyResponse true "" "".
Proof.
  destruct (serve_protocol config c) as (l & E & Hl).
  exists l. split; [done|]. intros vr err Hin.
  apply elem_of_protocol_events in Hin; [|done].
  apply list_elem_of_In in Hin.
  destruct Hl as [| |reqCtx res l' Hv Hl']; [| |destruct Hl'];
    unfold simplifiedVerify in Hin; simpl in Hin; intuition congruence.
Qed.

(** *** What goes out on the wire *)

Lemma c_JSON_unwritten code obj c :
  unwritten c → 200 ≤ code ≤ 999 → bodyAllowedForStatus code = true →
  c_JSON json_Marshal code obj c
  = set_writermem
      (mkResponseWriter code (Z.of_nat (length (json_Marshal obj)))
         (with_content_type "application/json; charset=utf-8" (rw_header (writermem c)))
         (wire_interim (writermem c)) (Some code)
         (wire_body (writermem c) ++ json_Marshal obj)) c.
Proof. apply c_Render_unwritten. Qed.

Lemma c_JSON_402 obj c :
  unwritten c →
  c_JSON json_Marshal StatusPaymentRequired obj c
  = set_writermem
      (mkResponseWriter StatusPaymentRequired (Z.of_nat (length (json_Marshal obj)))
         (with_content_type "application/json; charset=utf-8" (rw_header (writermem c)))
         (wire_interim (writermem c)) (Some StatusPaymentRequired)
         (wire_body (writermem c) ++ json_Marshal obj)) c.
Proof. intros Hu. by apply c_JSON_unwritten. Qed.

(** The captured response written out: [WriteHeader] and [Write] on a
    writer that has sent nothing. A status without body has the bytes
    refused. *)
Lemma flush_unwritten status data c :
  unwritten c → 200 ≤ status ≤ 999 →
  c_Writer_Write data (c_Writer_WriteHeader status c)
  = set_writermem
      (mkResponseWriter status
         (if bodyAllowedForStatus status then Z.of_nat (length data) else 0)
         (rw_header (writermem c)) (wire_interim (writermem c)) (Some status)
         (if bodyAllowedForStatus status then wire_body (writermem c) ++ data
          else wire_body (writermem c))) c.
Proof.
  intros (HW & HU & HS) Hst.
  unfold c_Writer_Write, c_Writer_Write_err, c_Writer_WriteHeader. rewrite HW. simpl.
  rewrite HW, rw_WriteHeader_unwritten by (done || lia).
  assert (final_status status) as Hf by (left; lia).
  destruct (bodyAllowedForStatus status) eqn:Hb.
  - rewrite rw_Write_unwritten by done. simpl. by destruct c.
  - unfold rw_Write. rewrite rw_WriteHeaderNow_unwritten by done.
    unfold conn_Write, conn_WriteHeader. simpl. rewrite Hb.
    case_decide as Hd; simpl; by destruct c.
Qed.

Lemma c_JSON_only_writes code obj : only_writes (c_JSON json_Marshal code obj).
Proof. apply c_Render_only_writes. Qed.

Lemma Request_c_JSON code obj c : Request (c_JSON json_Marshal code obj c) = Request c.
Proof. revert c. fields_of (c_JSON_only_writes code obj). Qed.
Lemma Writer_c_JSON code obj c : Writer (c_JSON json_Marshal code obj c) = Writer c.
Proof. revert c. fields_of (c_JSON_only_writes code obj). Qed.
Lemma Keys_c_JSON code obj c : Keys (c_JSON json_Marshal code obj c) = Keys c.
Proof. revert c. fields_of (c_JSON_only_writes code obj). Qed.
Lemma handlers_c_JSON code obj c : handlers (c_JSON json_Marshal code obj c) = handlers c.
Proof. revert c. fields_of (c_JSON_only_writes code obj). Qed.
Lemma trace_c_JSON code obj c : trace (c_JSON json_Marshal code obj c) = trace c.
Proof. revert c. fields_of (c_JSON_only_writes code obj). Qed.

Hint Rewrite Request_c_JSON Writer_c_JSON Keys_c_JSON handlers_c_JSON trace_c_JSON
  : fields.

(** The context as the framework hands it to the middleware: its own
    writer with nothing sent yet, the chain neither aborted nor unwinding. *)
Definition entry (c : Context) : Prop :=
  unwritten c ∧ aborted c = false ∧ panicked c = false.

(** *** The hook *)

(** The context once the hook, if there is one, has been called. *)
Definition hooked (config : MiddlewareConfig) (c : Context) : Context :=
  match BeforeSettleHook config with
  | Some hook => call_BeforeSettleHook hook simplifiedVerify c
  | None => c
  end.

Lemma hooked_frame config c : frame is_hook_run c (hooked config c).
Proof.
  unfold hooked, call_BeforeSettleHook.
  destruct (BeforeSettleHook config) as [hook|]; [|apply frame_refl].
  eapply frame_trans;
    [apply (frame_log is_hook_run (EvBeforeSettleHook simplifiedVerify
                                     (hook c simplifiedVerify).2)); exact I|].
  eapply frame_mono; [|apply run_ops_frame]. intros e He. by destruct e.
Qed.


Lemma hooked_Writer config c : Writer (hooked config c) = Writer c.
Proof. apply (frame_Writer _ _ _ (hooked_frame config c)). Qed.

(** *** Rejections: a vetoing hook, a failed settlement *)

Definition failure_reason (res : ProcessSettleResult) : string :=
  if decide (ErrorReason res = "") then "Settlement failed" else ErrorReason res.

(** [rejection l error details err]: the history [l] holds a hook veto or
    a failed settlement; [error] and [details] are the fields of the JSON
    answer the code builds for it and [err] the error it builds for a
    custom error handler. *)
Inductive rejection (l : list Event) : string → string → string → Prop :=
| rejected_by_hook verifyResp reason :
    EvBeforeSettleHook verifyResp (Some reason) ∈ l →
    rejection l "Pre-settlement validation failed" reason
              ("before-settle hook failed: " +:+ reason)
| rejected_by_settlement p r res :
    EvProcessSettlement p r res ∈ l →
    Success res = false →
    rejection l "Settlement failed" (failure_reason res)
              ("settlement failed: " +:+ failure_reason res).

Definition error_body (error details : string) : bytes :=
  json_Marshal (gin_H [("error", any_string error); ("details", any_string details)]).

(** What both branches do about a rejection: the custom error handler is
    called if there is one, and the 402 JSON answer is written if not. *)
Definition reject (config : MiddlewareConfig) (error details err : string)
    (c : Context) : Context :=
  match ErrorHandler config with
  | Some handler => call_ErrorHandler handler err c
  | None =>
      c_JSON json_Marshal StatusPaymentRequired
             (gin_H [("error", any_string error); ("details", any_string details)]) c
  end.

Lemma Before_rejected c result config requestBody l error details err :
  panicked c = false →
  trace (Before c result config requestBody) = trace c ++ l →
  rejection l error details err →
  (EvHandler ∉ l) ∧
  (panicked (Before c result config requestBody) = false →
   aborted (Before c result config requestBody) = true) ∧
  (((∀ p r res, EvProcessSettlement p r res ∉ l) → panicked (hooked config c) = false) →
   panicked (hooked config c) = false ∧
   (ErrorHandler config ≠ None → EvErrorHandler err ∈ l) ∧
   ∃ x, writermem x = writermem (hooked config c) ∧ Writer x = Writer c ∧
        panicked x = false ∧
        Before c result config requestBody
        = andThen (reject config error details err x) c_Abort).
Proof.
  intros Hp Ht Hrej. revert Ht.
  pose proof (hooked_Writer config c) as HWh. revert HWh.
  unfold handlePaymentVerifiedSettleBefore, hooked, reject, call_BeforeSettleHook,
         call_ErrorHandler, call_SettlementHandler, c_Abort, c_Set, andThen.
  cbv zeta.
  repeat (case_match; simplify_eq/=).
  all: intros HWh; trace_norm; intros Ht; delta Ht l.
  all: destruct Hrej as [vr reason Hin|p' r' res' Hin Hfail]; split_elem Hin; simplify_eq.
  all: try match goal with
       | H1 : ?b = false, H2 : negb ?b = false |- _ => rewrite H1 in H2; discriminate
       end.
  all: unfold failure_reason; rewrite ?decide_True, ?decide_False by done.
  all: change (mkVerifyResponse true "" "") with simplifiedVerify in *.
  all: split_and!; [ no_elem | try done; try congruence | ].
  all: intros Hph.
  all: try (exfalso;
            assert (∀ b : bool, b = true → b = false → False) as Hbool by (by intros []);
            eapply Hbool; [eassumption|]; apply Hph; intros; no_elem).
  all: (split; [ try done; congruence | ]).
  all: (split; [ intros Hne; try done; rewrite ?elem_of_app, ?elem_of_cons; by intuition | ]).
  all: match goal with
       | |- context [log (EvErrorHandler _) ?y] => exists y
       | |- context [c_JSON _ _ _ ?y] => exists y
       end.
  all: split_and!; simpl; try done; try congruence.
  all: repeat match goal with
       | H : panicked _ = _ |- _ => rewrite H
       end; try done.
Qed.

(** After-timing: the context once the handlers have run against the
    proxy and the writer has been put back. *)
Definition handled (c : Context) : Context :=
  set_Writer (Writer c)
             (c_Next (set_Writer ToCapture (set_capture newResponseCapture c))).

Lemma After_rejected c result config requestBody l error details err :
  trace (After c result config requestBody) = trace c ++ l →
  rejection l error details err →
  ((∀ p r res, EvProcessSettlement p r res ∉ l) →
   panicked (hooked config (handled c)) = false) →
  panicked (hooked config (handled c)) = false ∧
  (ErrorHandler config ≠ None → EvErrorHandler err ∈ l) ∧
  ∃ x, writermem x = writermem (hooked config (handled c)) ∧ Writer x = Writer c ∧
       panicked x = false ∧
       After c result config requestBody = reject config error details err x.
Proof.
  intros Ht Hrej. revert Ht.
  pose proof (hooked_Writer config (handled c)) as HWh. revert HWh.
  unfold handlePaymentVerifiedSettleAfter, hooked, handled, reject, call_BeforeSettleHook,
         call_ErrorHandler, call_SettlementHandler, c_IsAborted, andThen.
  cbv zeta.
  destruct (c_Next_frame (set_Writer ToCapture (set_capture newResponseCapture c)))
    as [_ (l1 & FT & FD) _ _ _ _].
  simpl in FT.
  set (c1 := c_Next _) in *. clearbody c1.
  repeat (case_match; simplify_eq/=).
  all: intros HWh; trace_norm; rewrite ?FT, <- ?app_assoc; intros Ht; delta Ht l.
  all: destruct Hrej as [vr reason Hin|p' r' res' Hin Hfail]; split_elem Hin; simplify_eq.
  all: try match goal with
       | H1 : ?b = false, H2 : negb ?b = false |- _ => rewrite H1 in H2; discriminate
       end.
  all: unfold failure_reason; rewrite ?decide_True, ?decide_False by done.
  all: change (mkVerifyResponse true "" "") with simplifiedVerify in *.
  all: intros Hph.
  all: try (exfalso;
            assert (∀ b : bool, b = true → b = false → False) as Hbool by (by intros []);
            eapply Hbool; [eassumption|]; apply Hph; intros; no_elem).
  all: (split; [ try done; congruence | ]).
  all: (split; [ intros Hne; try done; rewrite ?elem_of_app, ?elem_of_cons; by intuition | ]).
  all: match goal with
       | |- context [log (EvErrorHandler _) ?y] => exists y
       | |- context [c_JSON _ _ _ ?y] => exists y
       end.
  all: split_and!; simpl; try done; try congruence.
Qed.

End Properties.

#[export] Hint Rewrite Request_c_JSON Writer_c_JSON Keys_c_JSON handlers_c_JSON
  trace_c_JSON : fields.

(** ** The request as a whole *)

Section Requests.
Variable json_Marshal : any → bytes.
Variable server : HTTPServer.

Local Abbreviation Before := (handlePaymentVerifiedSettleBefore json_Marshal server).
Local Abbreviation After := (handlePaymentVerifiedSettleAfter json_Marshal server).
Local Abbreviation serve := (serve json_Marshal server).

Lemma andThen_done c : (panicked c = false → chain_done c) → andThen c c_Next = c.
Proof.
  intros Hd. unfold andThen. destruct (panicked c) eqn:E; [done|].
  by apply c_Next_of_done, Hd.
Qed.

Lemma Before_done c result config requestBody :
  panicked (Before c result config requestBody) = false →
  chain_done (Before c result config requestBody).
Proof.
  unfold handlePaymentVerifiedSettleBefore, c_Abort, andThen. cbv zeta.
  repeat (case_match; simplify_eq/=); intros Hp; try congruence;
    try (by right); by apply c_Next_done.
Qed.

Lemma After_done c result config requestBody :
  panicked (After c result config requestBody) = false →
  chain_done (After c result config requestBody).
Proof.
  unfold handlePaymentVerifiedSettleAfter, call_BeforeSettleHook, call_ErrorHandler,
         call_SettlementHandler, c_IsAborted, andThen.
  cbv zeta.
  pose proof (c_Next_done (set_Writer ToCapture (set_capture newResponseCapture c)))
    as Hd.
  set (c1 := c_Next _) in *. clearbody c1.
  repeat (case_match; simplify_eq/=); intros Hp; try congruence; try (by right).
  all: destruct (Hd eq_refl) as [Hh|Hh]; [|congruence].
  all: left; autorewrite with fields; simpl;
    rewrite ?run_ops_handlers; autorewrite with fields; simpl;
    rewrite ?run_ops_handlers; autorewrite with fields; simpl;
    by rewrite ?run_ops_handlers.
Qed.

Lemma handlePaymentError_stops c response config :
  panicked (handlePaymentError json_Marshal c response config) = false →
  chain_done (handlePaymentError json_Marshal c response config).
Proof.
  unfold handlePaymentError, c_Abort, andThen.
  repeat (case_match; simplify_eq/=); intros Hp; try done; try congruence; by right.
Qed.

(** The request context the engine is shown, its two answers, and the
    context in which the branch on the result is taken. *)
Definition engine_view (c : Context) : HTTPRequestContext :=
  let c := (captureRequestBody c).2 in
  mkHTTPRequestContext (NewGinAdapter c) (URL_Path (Request c)) (Method (Request c)).

Definition engine_requires (c : Context) : bool :=
  RequiresPayment server (engine_view c).

Definition engine_result (config : MiddlewareConfig) (c : Context) : HTTPProcessResult :=
  ProcessHTTPRequest server (engine_view c) (PaywallConfig_ config).

Definition required_context (c : Context) : Context :=
  log (EvRequiresPayment (engine_view c) (engine_requires c)) (captureRequestBody c).2.

Definition processed_context (config : MiddlewareConfig) (c : Context) : Context :=
  log (EvProcessHTTPRequest (engine_view c) (engine_result config c))
      (required_context c).

(** The five ways a request is served. *)
Inductive served (config : MiddlewareConfig) (c : Context) : Prop :=
| served_free :
    engine_requires c = false →
    serve config c = c_Next (required_context c) →
    served config c
| served_passed :
    engine_requires c = true →
    res_Type (engine_result config c) ≠ ResultPaymentVerified →
    res_Type (engine_result config c) ≠ ResultPaymentError →
    serve config c = c_Next (processed_context config c) →
    served config c
| served_error :
    engine_requires c = true →
    res_Type (engine_result config c) = ResultPaymentError →
    serve config c
    = handlePaymentError json_Marshal (processed_context config c)
                         (res_Response (engine_result config c)) config →
    served config c
| served_before :
    engine_requires c = true →
    res_Type (engine_result config c) = ResultPaymentVerified →
    SettlementTiming config = "before" →
    serve config c
    = Before (processed_context config c) (engine_result config c) config
             (captureRequestBody c).1 →
    served config c
| served_after :
    engine_requires c = true →
    res_Type (engine_result config c) = ResultPaymentVerified →
    SettlementTiming config ≠ "before" →
    serve config c
    = After (processed_context config c) (engine_result config c) config
            (captureRequestBody c).1 →
    served config c.

Lemma captureRequestBody_panicked c :
  panicked (captureRequestBody c).2 = panicked c.
Proof. by rewrite captureRequestBody_only_Request. Qed.

Lemma serve_cases config c : panicked c = false → served config c.
Proof.
  intros Hp.
  assert (serve config c
          = andThen (createMiddlewareHandler json_Marshal server config c) c_Next)
    as Hs by done.
  unfold createMiddlewareHandler in Hs.
  destruct (captureRequestBody c) as [requestBody c0] eqn:Hc.
  assert (c0 = (captureRequestBody c).2) as Hc0 by (by rewrite Hc).
  assert (requestBody = (captureRequestBody c).1) as Hrb by (by rewrite Hc).
  cbv zeta in Hs.
  assert (engine_view c
          = mkHTTPRequestContext (NewGinAdapter c0) (URL_Path (Request c0))
                                 (Method (Request c0))) as Hv
    by (unfold engine_view; by rewrite <- Hc0).
  rewrite <- Hv in Hs.
  fold (engine_requires c) in Hs. fold (engine_result config c) in Hs.
  rewrite Hc0 in Hs. fold (required_context c) in Hs.
  fold (processed_context config c) in Hs. rewrite Hrb in Hs.
  destruct (engine_requires c) eqn:Hr; simpl in Hs.
  - destruct (res_Type (engine_result config c)) eqn:Ht.
    + apply served_passed; try done; try congruence.
      rewrite Hs. apply andThen_done, c_Next_done.
    + destruct (decide (SettlementTiming config = "before")) as [Hb|Hb].
      * apply served_before; try done. rewrite Hs. apply andThen_done, Before_done.
      * apply served_after; try done. rewrite Hs. apply andThen_done, After_done.
    + apply served_error; try done. rewrite Hs.
      apply andThen_done, handlePaymentError_stops.
    + apply served_passed; try done; try congruence.
      rewrite Hs. unfold andThen.
      assert (panicked (processed_context config c) = false) as ->; [|done].
      unfold processed_context, required_context. simpl.
      by rewrite captureRequestBody_panicked.
  - apply served_free; [done|]. rewrite Hs. apply andThen_done, c_Next_done.
Qed.

Lemma processed_context_eq config c :
  processed_context config c
  = log (EvProcessHTTPRequest (engine_view c) (engine_result config c))
        (log (EvRequiresPayment (engine_view c) (engine_requires c))
             (set_Request (Request (captureRequestBody c).2) c)).
Proof.
  unfold processed_context, required_context.
  by rewrite captureRequestBody_only_Request at 1.
Qed.

Lemma required_context_eq c :
  required_context c
  = log (EvRequiresPayment (engine_view c) (engine_requires c))
        (set_Request (Request (captureRequestBody c).2) c).
Proof. unfold required_context. by rewrite captureRequestBody_only_Request at 1. Qed.

Lemma entry_processed config c : entry c → entry (processed_context config c).
Proof. rewrite processed_context_eq. by intros ((? & ? & ?) & ? & ?). Qed.

(** A rejection can only happen on a verified request, inside the timing
    branch. *)
Lemma serve_rejected config c l error details err :
  entry c →
  trace (serve config c) = trace c ++ l →
  rejection l error details err →
  ∃ l',
    l = [EvRequiresPayment (engine_view c) true;
         EvProcessHTTPRequest (engine_view c) (engine_result config c)] ++ l' ∧
    rejection l' error details err ∧
    ((SettlementTiming config = "before" ∧
      serve config c
      = Before (processed_context config c) (engine_result config c) config
               (captureRequestBody c).1 ∧
      trace (serve config c) = trace (processed_context config c) ++ l') ∨
     (SettlementTiming config ≠ "before" ∧
      serve config c
      = After (processed_context config c) (engine_result config c) config
              (captureRequestBody c).1 ∧
      trace (serve config c) = trace (processed_context config c) ++ l')).
Proof.
  intros He Ht Hrej.
  destruct (serve_cases config c) as [Hr Hs|Hr Hv He' Hs|Hr Hv Hs|Hr Hv Hb Hs|Hr Hv Hb Hs];
    [by destruct He as (_ & _ & ?)|..].
  - exfalso. rewrite Hs, required_context_eq in Ht. revert Ht. trace_norm.
    intros Ht. delta Ht l.
    destruct Hrej as [vr reason Hin|p r res Hin Hf]; split_elem Hin; simplify_eq.
  - exfalso. rewrite Hs, processed_context_eq in Ht. revert Ht. trace_norm.
    intros Ht. delta Ht l.
    destruct Hrej as [vr reason Hin|p r res Hin Hf]; split_elem Hin; simplify_eq.
  - exfalso. rewrite Hs, handlePaymentError_trace, processed_context_eq in Ht.
    revert Ht. trace_norm. intros Ht. delta Ht l.
    destruct Hrej as [vr reason Hin|p r res Hin Hf]; split_elem Hin; simplify_eq.
  - destruct (Before_protocol json_Marshal server (processed_context config c)
                (engine_result config c) config (captureRequestBody c).1)
      as (l' & Hl' & _).
    exists l'. rewrite Hs in Ht |- *. rewrite Hl' in Ht.
    rewrite processed_context_eq in Ht at 1. simpl in Ht.
    rewrite <- !app_assoc in Ht. delta Ht l. rewrite Hr.
    split_and!; [done| |left; by split_and!].
    destruct Hrej as [vr reason Hin|p r res Hin Hf].
    + split_elem Hin; simplify_eq. by eapply rejected_by_hook.
    + split_elem Hin; simplify_eq. by eapply rejected_by_settlement.
  - destruct (After_protocol json_Marshal server (processed_context config c)
                (engine_result config c) config (captureRequestBody c).1)
      as (l' & Hl' & _).
    exists l'. rewrite Hs in Ht |- *. rewrite Hl' in Ht.
    rewrite processed_context_eq in Ht at 1. simpl in Ht.
    rewrite <- !app_assoc in Ht. delta Ht l. rewrite Hr.
    split_and!; [done| |right; by split_and!].
    destruct Hrej as [vr reason Hin|p r res Hin Hf].
    + split_elem Hin; simplify_eq. by eapply rejected_by_hook.
    + split_elem Hin; simplify_eq. by eapply rejected_by_settlement.
Qed.

Lemma elem_of_protocol_events_inv e l : e ∈ protocol_events l → e ∈ l ∧ is_protocol e = true.
Proof.
  induction l as [|e' l IH]; simpl; [by intros ?%elem_of_nil|].
  destruct (is_protocol e') eqn:E.
  - intros [->|Hin]%elem_of_cons; [split; [left|done]|].
    destruct (IH Hin). split; [by right|done].
  - intros Hin. destruct (IH Hin). split; [by right|done].
Qed.

(** Where a hook call stands among the protocol calls of a request. *)
Lemma hook_position l pre verifyResp err post :
  protocol_run (protocol_events l) →
  l = pre ++ EvBeforeSettleHook verifyResp err :: post →
  (∃ reqCtx res, EvProcessHTTPRequest reqCtx res ∈ pre ∧
                 res_Type res = ResultPaymentVerified) ∧
  (∀ p r sres, EvProcessSettlement p r sres ∉ pre) ∧
  (∀ reason, err = Some reason → ∀ p r sres, EvProcessSettlement p r sres ∉ l).
Proof.
  intros Hrun ->. rewrite protocol_events_app in Hrun. simpl in Hrun.
  assert (∀ p r sres, EvProcessSettlement p r sres ∈ pre →
                      EvProcessSettlement p r sres ∈ protocol_events pre) as Hpre
    by (intros; by apply elem_of_protocol_events).
  assert (∀ p r sres, EvProcessSettlement p r sres ∈ post →
                      EvProcessSettlement p r sres ∈ protocol_events post) as Hpost
    by (intros; by apply elem_of_protocol_events).
  assert (∀ e, e ∈ protocol_events pre → e ∈ pre) as Hin
    by (intros e He; by apply elem_of_protocol_events_inv in He as [? _]).
  remember (protocol_events pre) as pp eqn:Epp.
  remember (protocol_events post) as pq eqn:Epq.
  clear Epp Epq.
  inversion Hrun as [E|reqCtx res Hv E|reqCtx res sl Hv Hsl E]; clear Hrun.
  - by destruct pp.
  - destruct pp as [|? [|? ?]]; simplify_eq/=.
  - destruct pp as [|e pp]; simplify_eq/=.
    inversion Hsl as [E'|err' E'|p r sres E'|p r sres E']; clear Hsl;
      destruct pp as [|? [|? [|? ?]]]; simplify_eq/=.
    + split_and!.
      * exists reqCtx, res. split; [|done]. apply Hin. left.
      * intros p r sres Hp. apply Hpre in Hp. split_elem Hp. simplify_eq.
      * intros reason _ p r sres Hp. split_elem Hp; simplify_eq.
        -- apply Hpre in Hp. split_elem Hp. simplify_eq.
        -- apply Hpost in Hp. by apply elem_of_nil in Hp.
    + split_and!.
      * exists reqCtx, res. split; [|done]. apply Hin. left.
      * intros p' r' sres' Hp. apply Hpre in Hp. split_elem Hp. simplify_eq.
      * intros reason Hr. discriminate Hr.
Qed.

(** The context at the moment [c.Next()] returns to the after-timing
    branch: the handlers have run against the capture proxy. *)
Definition after_handler (config : MiddlewareConfig) (c : Context) : Context :=
  c_Next (set_Writer ToCapture
            (set_capture newResponseCapture (processed_context config c))).

(** The context in which a verified request comes to its settlement: in
    before-timing behind the hook, in after-timing behind the handlers,
    the writer put back, and the hook. *)
Definition settling (config : MiddlewareConfig) (c : Context) : Context :=
  hooked config
         (if decide (SettlementTiming config = "before") then processed_context config c
          else set_Writer (Writer c) (after_handler config c)).

Lemma settling_before config c :
  SettlementTiming config = "before" →
  settling config c = hooked config (processed_context config c).
Proof. intros Hb. unfold settling. by rewrite decide_True. Qed.

Lemma settling_after config c :
  SettlementTiming config ≠ "before" →
  settling config c = hooked config (handled (processed_context config c)).
Proof.
  intros Hb. unfold settling, handled, after_handler. rewrite decide_False by done.
  by rewrite processed_context_eq.
Qed.

Lemma sends_unsent w w' :
  sends w w' → rw_Written w = false → rw_Written w' = false → same_sent w w'.
Proof.
  intros (_ & _ & S) HU HU'. apply rw_Written_false in HU, HU'.
  apply S; [unfold noWritten in *; lia|done].
Qed.

Lemma settling_sends config c :
  sends (writermem c) (writermem (settling config c)).
Proof.
  assert (writermem (processed_context config c) = writermem c) as Hwm
    by (by rewrite processed_context_eq).
  rewrite <- Hwm.
  destruct (decide (SettlementTiming config = "before")) as [Hb|Hb].
  - rewrite settling_before by done. apply (frame_sends _ _ _ (hooked_frame config _)).
  - rewrite settling_after by done.
    eapply sends_trans; [|apply (frame_sends _ _ _ (hooked_frame config _))].
    unfold handled. simpl.
    apply (frame_sends _ _ _
             (c_Next_frame (set_Writer ToCapture
                              (set_capture newResponseCapture
                                           (processed_context config c))))).
Qed.

Lemma settling_Writer config c : Writer (settling config c) = Writer c.
Proof.
  unfold settling. rewrite hooked_Writer. case_decide; [|done].
  by rewrite processed_context_eq.
Qed.

(** Nothing sent when the settlement is reached: nothing was sent on the
    way, and the writer is the framework's again. *)
Lemma settling_unwritten config c :
  entry c →
  rw_Written (writermem (settling config c)) = false →
  unwritten (settling config c) ∧
  wire_body (writermem (settling config c)) = wire_body (writermem c) ∧
  wire_interim (writermem (settling config c)) = wire_interim (writermem c).
Proof.
  intros ((HW & HU & HS) & _ & _) HU'.
  destruct (sends_unsent _ _ (settling_sends config c) HU HU') as (_ & Hi & Hs & Hb).
  unfold unwritten. rewrite settling_Writer. split_and!; congruence.
Qed.

(** The 402 answer on a writer that is as it was when the settlement was
    reached. *)
Lemma reject_402 config c x error details err :
  entry c →
  rw_Written (writermem (settling config c)) = false →
  ErrorHandler config = None →
  writermem x = writermem (settling config c) → Writer x = Writer c →
  reject json_Marshal config error details err x
  = set_writermem
      (mkResponseWriter StatusPaymentRequired
         (Z.of_nat (length (error_body json_Marshal error details)))
         (with_content_type "application/json; charset=utf-8"
                            (rw_header (writermem (settling config c))))
         (wire_interim (writermem c)) (Some StatusPaymentRequired)
         (wire_body (writermem c) ++ error_body json_Marshal error details)) x.
Proof.
  intros He HU Hnone Hx HWx.
  destruct (settling_unwritten config c He HU) as ((HW & _ & HS) & Hb & Hi).
  unfold reject. rewrite Hnone, c_JSON_402.
  - by rewrite Hx, Hb, Hi.
  - unfold unwritten. rewrite Hx, HWx, <- (settling_Writer config c). by split_and!.
Qed.

(** The outcome of a rejected request under before-timing. *)
Definition rejected_before_handler (config : MiddlewareConfig) (c : Context)
    (l : list Event) (error details err : string) : Prop :=
  (EvHandler ∉ l) ∧
  (panicked (serve config c) = false → aborted (serve config c) = true) ∧
  (panicked (settling config c) = false →
   match ErrorHandler config with
   | None =>
       rw_Written (writermem (settling config c)) = false →
       panicked (serve config c) = false ∧
       aborted (serve config c) = true ∧
       wire_status (writermem (serve config c)) = Some StatusPaymentRequired ∧
       wire_body (writermem (serve config c))
         = wire_body (writermem c) ++ error_body json_Marshal error details
   | Some handler =>
       EvErrorHandler err ∈ l ∧
       ∃ x, writermem x = writermem (settling config c) ∧
            serve config c = andThen (call_ErrorHandler handler err x) c_Abort
   end).


(** The outcome of a failed settlement under after-timing. *)
Definition settlement_failed_after_handler (config : MiddlewareConfig) (c : Context)
    (l : list Event) (res : ProcessSettleResult) : Prop :=
  match ErrorHandler config with
  | None =>
      wire_status (writermem (serve config c)) = Some StatusPaymentRequired ∧
      wire_body (writermem (serve config c))
        = wire_body (writermem c)
          ++ error_body json_Marshal "Settlement failed" (failure_reason res) ∧
      wire_interim (writermem (serve config c)) = wire_interim (writermem c)
  | Some handler =>
      EvErrorHandler ("settlement failed: " +:+ failure_reason res) ∈ l ∧
      ∃ x, writermem x = writermem (settling config c) ∧
           same_sent (writermem c) (writermem x) ∧ Writer x = ToWritermem ∧
           serve config c
           = call_ErrorHandler handler ("settlement failed: " +:+ failure_reason res) x
  end.


(** The place and the effect of the hook call in the history [l] a
    request adds. *)
Definition hook_discipline (config : MiddlewareConfig) (c : Context)
    (l : list Event) : Prop :=
  (count_events is_hook l ≤ 1)%nat ∧
  ∀ pre verifyResp err post,
    l = pre ++ EvBeforeSettleHook verifyResp err :: post →
    (∃ reqCtx res, EvProcessHTTPRequest reqCtx res ∈ pre ∧
                   res_Type res = ResultPaymentVerified) ∧
    (∀ p r sres, EvProcessSettlement p r sres ∉ pre) ∧
    (∀ reason, err = Some reason →
       (∀ p r sres, EvProcessSettlement p r sres ∉ l) ∧
       (ErrorHandler config = None →
        panicked (settling config c) = false →
        rw_Written (writermem (settling config c)) = false →
          wire_status (writermem (serve config c)) = Some StatusPaymentRequired ∧
          wire_body (writermem (serve config c))
            = wire_body (writermem c)
              ++ error_body json_Marshal "Pre-settlement validation failed" reason)).

End Requests.

(** ** After-timing: a handler that fails *)

Section HandlerFailure.
Variable json_Marshal : any → bytes.
Variable server : HTTPServer.

Local Abbreviation After := (handlePaymentVerifiedSettleAfter json_Marshal server).
Local Abbreviation serve := (serve json_Marshal server).

Definition flushed_unsettled (config : MiddlewareConfig) (c : Context) : Prop :=
  wire_status (writermem (serve config c))
    = Some (statusCode (capture (after_handler server config c))) ∧
  wire_body (writermem (serve config c))
    = wire_body (writermem c) ++ body (capture (after_handler server config c)) ∧
  ∃ l, trace (serve config c) = trace c ++ l ∧
       count_events is_settlement l = 0%nat ∧
       count_events is_hook l = 0%nat.

(** The handlers have run against the proxy and have sent nothing through
    the framework's writer. *)
Lemma after_handler_unwritten config c :
  entry c →
  rw_Written (writermem (after_handler server config c)) = false →
  unwritten (set_Writer ToWritermem (after_handler server config c)) ∧
  same_wire (writermem c) (writermem (after_handler server config c)).
Proof.
  intros He HU'.
  destruct (entry_processed server config c He) as ((HW & HU & HS) & _ & _).
  assert (writermem (processed_context server config c) = writermem c) as Hwm
    by (by rewrite processed_context_eq).
  unfold after_handler in *.
  set (pc := processed_context server config c) in *. clearbody pc.
  pose proof (frame_wire _ _ _
                (c_Next_frame (set_Writer ToCapture (set_capture newResponseCapture pc)))
                eq_refl HU HU') as Hsw.
  simpl in Hsw. rewrite Hwm in Hsw. split; [|done].
  destruct Hsw as (_ & _ & _ & Hs & _). unfold unwritten. simpl.
  rewrite Hs, <- Hwm. by split_and!.
Qed.

End HandlerFailure.

(** ** The scope of PaymentData *)

Definition stores_PaymentData (op : HandlerOp) : bool :=
  match op with
  | OpSet key _ => bool_decide (key = PaymentDataKey)
  | _ => false
  end.

(** Code that does not itself write the PaymentData key. *)
Definition leaves_PaymentData (ops : list HandlerOp) : Prop :=
  Forall (λ op, stores_PaymentData op = false) ops.

(** What [GetPaymentData] answers when the key holds [k]. *)
Definition view (k : option any) : outcome (option PaymentData) :=
  match k with
  | None => Returns None
  | Some (any_PaymentData p) => Returns (Some p)
  | Some _ => Panics
  end.

Lemma GetPaymentData_view c : GetPaymentData c = view (Keys c !! PaymentDataKey).
Proof. done. Qed.

(** An entry of the history that is consistent with the key holding [k]. *)
Definition sees (k : option any) (e : Event) : Prop :=
  match e with
  | EvGetPaymentData res => view k = Returns res
  | _ => True
  end.

Lemma run_op_keys op c :
  stores_PaymentData op = false →
  ∃ l, trace (run_op op c) = trace c ++ l ∧
       Forall (sees (Keys c !! PaymentDataKey)) l ∧
       Keys (run_op op c) !! PaymentDataKey = Keys c !! PaymentDataKey.
Proof.
  intros Hop.
  destruct op; simpl in *.
  - exists []. rewrite app_nil_r. by autorewrite with fields.
  - exists []. rewrite app_nil_r. by autorewrite with fields.
  - exists []. rewrite app_nil_r. unfold c_Writer_WriteString.
    destruct (Writer c); [by autorewrite with fields|done].
  - exists []. rewrite app_nil_r.
    by destruct (WriteHeaderNow_only_writes c) as (_ & _ & -> & _ & ->).
  - exists []. rewrite app_nil_r. unfold c_Writer_Flush, on_writermem.
    by destruct (rw_Flush (writermem c)) as [w []].
  - exists []. rewrite app_nil_r. unfold c_Header. by case_decide.
  - exists []. by rewrite app_nil_r.
  - exists []. rewrite app_nil_r. simpl. split_and!; [done..|].
    apply lookup_insert_ne. by apply bool_decide_eq_false in Hop.
  - rewrite GetPaymentData_view.
    destruct (view (Keys c !! PaymentDataKey)) as [res|] eqn:E; simpl.
    + exists [EvGetPaymentData res]. split_and!; [done| |done].
      by repeat constructor.
    + exists []. by rewrite app_nil_r.
  - destruct (Body (Request c)); simpl.
    + eexists [_]. split_and!; [done| |done]. by repeat constructor.
    + exists []. by rewrite app_nil_r.
Qed.

Lemma run_ops_keys ops : ∀ c,
  leaves_PaymentData ops →
  ∃ l, trace (run_ops ops c) = trace c ++ l ∧
       Forall (sees (Keys c !! PaymentDataKey)) l ∧
       Keys (run_ops ops c) !! PaymentDataKey = Keys c !! PaymentDataKey.
Proof.
  induction ops as [|op ops IH]; intros c Hops.
  - exists []. by rewrite app_nil_r.
  - apply Forall_cons in Hops as [Hop Hops].
    destruct (run_op_keys op c Hop) as (l1 & T1 & F1 & K1).
    change (run_ops (op :: ops) c) with (andThen (run_op op c) (run_ops ops)).
    unfold andThen. case_match; [by exists l1|].
    destruct (IH (run_op op c) Hops) as (l2 & T2 & F2 & K2).
    exists (l1 ++ l2). rewrite T2, T1, K2, K1, app_assoc. split_and!; try done.
    apply Forall_app. split; [done|]. by rewrite <- K1.
Qed.

Lemma run_chain_keys hs : ∀ c,
  Forall leaves_PaymentData hs →
  ∃ l, trace (run_chain hs c) = trace c ++ l ∧
       Forall (sees (Keys c !! PaymentDataKey)) l ∧
       Keys (run_chain hs c) !! PaymentDataKey = Keys c !! PaymentDataKey.
Proof.
  induction hs as [|h hs IH]; intros c Hhs; simpl.
  - exists []. by rewrite app_nil_r.
  - apply Forall_cons in Hhs as [Hh Hhs].
    unfold c_IsAborted. case_match; [exists []; by rewrite app_nil_r|].
    destruct (run_ops_keys h (log EvHandler (set_handlers hs c)) Hh)
      as (l1 & T1 & F1 & K1). simpl in T1, F1, K1.
    unfold andThen. case_match.
    + exists ([EvHandler] ++ l1). rewrite T1, <- app_assoc. split_and!; try done.
      by constructor.
    + destruct (IH (run_ops h (log EvHandler (set_handlers hs c))) Hhs)
        as (l2 & T2 & F2 & K2).
      exists ([EvHandler] ++ l1 ++ l2). rewrite T2, T1, K2, K1, <- !app_assoc.
      split_and!; try done. constructor; [done|].
      apply Forall_app. split; [done|]. by rewrite <- K1.
Qed.

Lemma c_Next_keys c :
  Forall leaves_PaymentData (handlers c) →
  ∃ l, trace (c_Next c) = trace c ++ l ∧
       Forall (sees (Keys c !! PaymentDataKey)) l ∧
       Keys (c_Next c) !! PaymentDataKey = Keys c !! PaymentDataKey.
Proof. apply run_chain_keys. Qed.

Ltac use_eqs :=
  repeat match goal with
  | K : Keys ?x !! PaymentDataKey = _,
    F : Forall (sees (Keys ?x !! PaymentDataKey)) _ |- _ => rewrite K in F
  end;
  repeat match goal with
  | T : trace _ = _ |- _ => try rewrite T; clear T
  | K : Keys _ !! PaymentDataKey = _ |- _ => try rewrite K; clear K
  end.

Section PaymentDataScope.
Variable json_Marshal : any → bytes.
Variable server : HTTPServer.

Local Abbreviation Before := (handlePaymentVerifiedSettleBefore json_Marshal server).
Local Abbreviation After := (handlePaymentVerifiedSettleAfter json_Marshal server).
Local Abbreviation serve := (serve json_Marshal server).

(** Neither the handlers behind the middleware nor the two callbacks nor
    the hook write the PaymentData key themselves. *)
Definition user_code_leaves_PaymentData (config : MiddlewareConfig) (c : Context) : Prop :=
  Forall leaves_PaymentData (handlers c) ∧
  (∀ h x e, ErrorHandler config = Some h → leaves_PaymentData (h x e)) ∧
  (∀ h x s, SettlementHandler config = Some h → leaves_PaymentData (h x s)) ∧
  (∀ h x v, BeforeSettleHook config = Some h → leaves_PaymentData (h x v).1).

Ltac keys_step HE HS HH :=
  match goal with
  | |- context [run_ops (?h ?x ?e).1 ?c] =>
      let l := fresh "l" in let T := fresh "T" in
      let F := fresh "F" in let K := fresh "K" in
      let Hn := fresh "Hn" in
      destruct (run_ops_keys (h x e).1 c (HH h x e ltac:(done))) as (l & T & F & K);
      pose proof (run_ops_handlers (h x e).1 c) as Hn;
      let c' := fresh "c" in set (c' := run_ops (h x e).1 c) in *; clearbody c'
  | |- context [run_ops (?h ?x ?e) ?c] =>
      let l := fresh "l" in let T := fresh "T" in
      let F := fresh "F" in let K := fresh "K" in
      let Hn := fresh "Hn" in
      first [ destruct (run_ops_keys (h x e) c (HE h x e ltac:(done))) as (l & T & F & K)
            | destruct (run_ops_keys (h x e) c (HS h x e ltac:(done))) as (l & T & F & K) ];
      pose proof (run_ops_handlers (h x e) c) as Hn;
      let c' := fresh "c" in set (c' := run_ops (h x e) c) in *; clearbody c'
  end.

Lemma After_keys c result config requestBody :
  user_code_leaves_PaymentData config c →
  ∃ l, trace (After c result config requestBody) = trace c ++ l ∧
       Forall (sees (Keys c !! PaymentDataKey)) l ∧
       Keys (After c result config requestBody) !! PaymentDataKey
         = Keys c !! PaymentDataKey.
Proof.
  intros (Hh & HE & HS & HH).
  unfold handlePaymentVerifiedSettleAfter, call_BeforeSettleHook, call_ErrorHandler,
         call_SettlementHandler, c_IsAborted, andThen.
  cbv zeta.
  destruct (c_Next_keys (set_Writer ToCapture (set_capture newResponseCapture c)) Hh)
    as (l1 & T1 & F1 & K1).
  simpl in T1, F1, K1.
  set (c1 := c_Next _) in *. clearbody c1.
  repeat (case_match; simplify_eq/=).
  all: repeat keys_step HE HS HH.
  all: autorewrite with fields in *; simpl in *.
  all: use_eqs.
  all: eexists; split_and!;
    [ rewrite <- ?app_assoc; first [reflexivity | symmetry; apply app_nil_r]
    | rewrite ?Forall_app, ?Forall_cons; split_and?; try done
    | try done ].
Qed.

(** The PaymentData that before-timing stores once settlement succeeded. *)
Definition paymentData_of (result : HTTPProcessResult) (settleResult : ProcessSettleResult)
    (requestBody : bytes) : PaymentData :=
  mkPaymentData
    (res_PaymentPayload result)
    (Some (mkSettleResponse true "" (Transaction settleResult) (Network settleResult)
                            (Payer settleResult)))
    (res_PaymentRequirements result)
    (Some (mkVerifyResponse true "" ""))
    requestBody.

(** Either the key is never written, or it is written right after a
    successful settlement and holds the PaymentData from then on. *)
Definition stored_after_settlement (result : HTTPProcessResult) (requestBody : bytes)
    (l : list Event) (final : option any) : Prop :=
  (final = None ∧ Forall (sees None) l) ∨
  (∃ pre p r res post,
     l = pre ++ EvProcessSettlement p r res :: post ∧
     Success res = true ∧
     Forall (sees None) pre ∧
     Forall (sees (Some (any_PaymentData (paymentData_of result res requestBody)))) post ∧
     final = Some (any_PaymentData (paymentData_of result res requestBody))).

(** Split an explicit history at its settlement call. *)
Ltac split_at_settlement L k :=
  lazymatch L with
  | EvProcessSettlement ?p ?r ?res :: ?post => k (@nil Event) p r res post
  | [EvProcessSettlement ?p ?r ?res] ++ ?post => k (@nil Event) p r res post
  | ?a :: ?rest =>
      split_at_settlement rest
        ltac:(fun pre p r res post => k (a :: pre) p r res post)
  | ?x ++ ?rest =>
      split_at_settlement rest
        ltac:(fun pre p r res post => k (x ++ pre) p r res post)
  end.

Ltac next_step Hh :=
  match goal with
  | |- context [c_Next ?x] =>
      let l := fresh "l" in let T := fresh "T" in
      let F := fresh "F" in let K := fresh "K" in
      let Hx := fresh "Hx" in
      assert (Forall leaves_PaymentData (handlers x)) as Hx
        by (autorewrite with fields; simpl;
            repeat match goal with E : handlers _ = _ |- _ => rewrite E end;
            by autorewrite with fields);
      destruct (c_Next_keys x Hx) as (l & T & F & K); clear Hx;
      let c' := fresh "c" in set (c' := c_Next x) in *; clearbody c'
  end.

Lemma Before_keys c result config requestBody l :
  user_code_leaves_PaymentData config c →
  Keys c !! PaymentDataKey = None →
  trace (Before c result config requestBody) = trace c ++ l →
  stored_after_settlement result requestBody l
    (Keys (Before c result config requestBody) !! PaymentDataKey).
Proof.
  intros (Hh & HE & HS & HH) Hk.
  unfold handlePaymentVerifiedSettleBefore, call_BeforeSettleHook, call_ErrorHandler,
         call_SettlementHandler, c_Abort, c_Set, andThen.
  cbv zeta.
  repeat (case_match; simplify_eq/=).
  all: repeat keys_step HE HS HH.
  all: autorewrite with fields in *; simpl in *.
  all: repeat next_step Hh.
  all: autorewrite with fields in *; simpl in *.
  all: rewrite ?lookup_insert_eq in *.
  all: use_eqs.
  all: rewrite <- ?app_assoc; intros Ht; delta Ht l.
  all: unfold stored_after_settlement, paymentData_of.
  all: repeat match goal with
       | E : res_PaymentPayload _ = _ |- _ => rewrite E; clear E
       | E : res_PaymentRequirements _ = _ |- _ => rewrite E; clear E
       end.
  all: try (left; split; [done|];
            rewrite ?Forall_app, ?Forall_cons; split_and?; by rewrite <- ?Hk).
  all: right;
    lazymatch goal with
    | |- ∃ pre p r res post, ?L = _ ∧ _ =>
        split_at_settlement L
          ltac:(fun pre p r res post =>
                  exists pre, p, r, res, post;
                  split; [by rewrite ?app_nil_r, <- ?app_assoc|])
    end.
  all: split_and!; try done; try (by destruct (Success _)).
  all: try (by repeat constructor).
  all: rewrite ?Forall_app, ?Forall_cons; split_and?; try done.
Qed.

Lemma handlePaymentError_Keys c response config :
  Keys (handlePaymentError json_Marshal c response config) = Keys c.
Proof.
  unfold handlePaymentError, c_JSON, c_Data, c_Status, c_Abort, andThen.
  repeat (case_match; simplify_eq/=); by repeat (autorewrite with fields; simpl).
Qed.

Lemma user_code_processed config c :
  user_code_leaves_PaymentData config c →
  user_code_leaves_PaymentData config (processed_context server config c).
Proof. rewrite processed_context_eq. by intros (? & ? & ? & ?). Qed.

Lemma serve_keys config c l :
  panicked c = false →
  Keys c !! PaymentDataKey = None →
  user_code_leaves_PaymentData config c →
  trace (serve config c) = trace c ++ l →
  (Keys (serve config c) !! PaymentDataKey = None ∧ Forall (sees None) l) ∨
  (SettlementTiming config = "before" ∧
   stored_after_settlement (engine_result server config c) (captureRequestBody c).1 l
     (Keys (serve config c) !! PaymentDataKey)).
Proof.
  intros Hp Hk Hu Ht.
  pose proof (user_code_processed config c Hu) as Hu'.
  assert (Keys (processed_context server config c) !! PaymentDataKey = None) as Hk'
    by (by rewrite processed_context_eq).
  destruct (serve_cases json_Marshal server config c Hp)
    as [Hr Hs|Hr Hv He' Hs|Hr Hv Hs|Hr Hv Hb Hs|Hr Hv Hb Hs]; rewrite Hs in Ht |- *.
  - left. destruct (c_Next_keys (required_context server c)) as (l1 & T & F & K).
    { rewrite required_context_eq. by destruct Hu. }
    assert (Keys (required_context server c) !! PaymentDataKey = None) as Hkr
      by (by rewrite required_context_eq).
    rewrite Hkr in F, K. rewrite T, required_context_eq in Ht. simpl in Ht.
    rewrite <- app_assoc in Ht. delta Ht l. split; [done|].
    by constructor.
  - left. destruct (c_Next_keys (processed_context server config c)) as (l1 & T & F & K).
    { by destruct Hu'. }
    rewrite Hk' in F, K. rewrite T, processed_context_eq in Ht. simpl in Ht.
    rewrite <- !app_assoc in Ht. delta Ht l. split; [done|].
    by repeat (constructor; [done|]).
  - left. rewrite handlePaymentError_Keys, Hk'. split; [done|].
    rewrite handlePaymentError_trace, processed_context_eq in Ht. simpl in Ht.
    rewrite <- !app_assoc in Ht. delta Ht l. by repeat constructor.
  - right. split; [done|].
    destruct (Before_protocol json_Marshal server (processed_context server config c)
                (engine_result server config c) config (captureRequestBody c).1)
      as (l' & Hl' & _).
    pose proof (Before_keys _ _ _ _ _ Hu' Hk' Hl') as Hst.
    rewrite Hl', processed_context_eq in Ht. simpl in Ht.
    rewrite <- !app_assoc in Ht. delta Ht l.
    destruct Hst as [[Hn F]|(pre & p & r & res & post & -> & Hok & Fpre & Fpost & Hfin)].
    + left. split; [done|]. by repeat (constructor; [done|]).
    + right.
      exists ([EvRequiresPayment (engine_view c) (engine_requires server c);
               EvProcessHTTPRequest (engine_view c) (engine_result server config c)]
              ++ pre), p, r, res, post.
      split_and!; try done. by repeat (constructor; [done|]).
  - left. destruct (After_keys (processed_context server config c)
                      (engine_result server config c) config (captureRequestBody c).1 Hu')
      as (l' & Hl' & F & K).
    rewrite Hk' in F, K. rewrite Hl', processed_context_eq in Ht. simpl in Ht.
    rewrite <- !app_assoc in Ht. delta Ht l. split; [done|].
    by repeat (constructor; [done|]).
Qed.

Lemma sees_None_observation l res :
  Forall (sees None) l → EvGetPaymentData res ∈ l → res = None.
Proof.
  intros F Hin. pose proof (Forall_elem _ _ _ F Hin) as Hs. simpl in Hs. congruence.
Qed.

(** Where and when PaymentData is in the request scope: never under
    after-timing, which is the default; and an answer of [GetPaymentData]
    other than nil, during or at the end of the request, happens only under
    before-timing and only after a settlement that succeeded. *)
Definition PaymentData_scope (config : MiddlewareConfig) (c : Context)
    (l : list Event) : Prop :=
  SettlementTiming defaultConfig = "after" ∧
  (SettlementTiming config ≠ "before" →
     GetPaymentData (serve config c) = Returns None ∧
     ∀ res, EvGetPaymentData res ∈ l → res = None) ∧
  (∀ pre pd post,
     l = pre ++ EvGetPaymentData (Some pd) :: post →
     SettlementTiming config = "before" ∧
     ∃ p r res, EvProcessSettlement p r res ∈ pre ∧ Success res = true) ∧
  (∀ pd,
     GetPaymentData (serve config c) = Returns (Some pd) →
     SettlementTiming config = "before" ∧
     ∃ p r res, EvProcessSettlement p r res ∈ l ∧ Success res = true).

(** C9. For every request whose scope holds no PaymentData when the
    middleware is entered, and whose handlers, callbacks and hook do not
    write that key themselves: under settlementTiming "after" (the default, and
    any value other than "before") GetPaymentData returns nil whenever a
    handler or callback asks and at the end of the request, also after a
    successful settlement; PaymentData is found in the scope only under
    before-timing, and only after the settlement has succeeded. *)
Theorem PaymentData_only_after_settlement_in_before_timing config c l :
  panicked c = false →
  Keys c !! PaymentDataKey = None →
  user_code_leaves_PaymentData config c →
  trace (serve config c) = trace c ++ l →
  PaymentData_scope config c l.
Proof.
  intros Hp Hk Hu Ht.
  pose proof (serve_keys config c l Hp Hk Hu Ht) as Hcases.
  split_and!.
  - done.
  - intros Hnb. destruct Hcases as [[Hn F]|[Hb _]]; [|done].
    rewrite GetPaymentData_view, Hn. split; [done|].
    intros res. by apply sees_None_observation.
  - intros pre pd post Hl.
    destruct Hcases
      as [[Hn F]|[Hb [[Hn F]|(pre' & p & r & res & post' & Hl' & Hok & Fpre & Fpost & Hfin)]]].
    + exfalso. assert (Some pd = None) as Habs; [|done].
      eapply sees_None_observation; [done|]. rewrite Hl. apply elem_of_app. right. left.
    + exfalso. assert (Some pd = None) as Habs; [|done].
      eapply sees_None_observation; [done|]. rewrite Hl. apply elem_of_app. right. left.
    + split; [done|]. exists p, r, res. split; [|done].
      rewrite Hl in Hl'. apply app_eq_inv in Hl' as [(k & -> & Hk')|(k & -> & Hk')].
      * destruct k as [|e k]; simplify_eq/=.
        apply elem_of_app. right. left.
      * exfalso. destruct k as [|e k]; simplify_eq/=.
        apply Forall_app in Fpre as [_ Fk].
        apply Forall_cons in Fk as [Habs _]. simpl in Habs. congruence.
  - intros pd Hpd. rewrite GetPaymentData_view in Hpd.
    destruct Hcases
      as [[Hn F]|[Hb [[Hn F]|(pre' & p & r & res & post' & Hl' & Hok & Fpre & Fpost & Hfin)]]].
    + by rewrite Hn in Hpd.
    + by rewrite Hn in Hpd.
    + split; [done|]. exists p, r, res. split; [|done].
      rewrite Hl'. apply elem_of_app. right. left.
Qed.
End PaymentDataScope.

(** ** The request body *)

(** The first body read recorded in a history: its data and whether it
    ended in an error. *)
Fixpoint first_read (l : list Event) : option (bytes * bool) :=
  match l with
  | [] => None
  | EvReadBody data err :: _ => Some (data, err)
  | _ :: l => first_read l
  end.

Lemma first_read_app l1 l2 :
  first_read (l1 ++ l2)
  = match first_read l1 with Some x => Some x | None => first_read l2 end.
Proof. induction l1 as [|[] l1 IH]; simpl; try done. Qed.

(** [body_kept data t0 c]: since the history was [t0], either nobody has
    read the body and the stream still is the fresh view over [data], or
    the first read got exactly [data]. *)
Definition body_kept (data : bytes) (t0 : list Event) (c : Context) : Prop :=
  ∃ l, trace c = t0 ++ l ∧
       match first_read l with
       | Some x => x = (data, false)
       | None => Body (Request c) = Some (NewBuffer data)
       end.

Lemma body_kept_ext data t0 c c' :
  trace c' = trace c → Request c' = Request c →
  body_kept data t0 c → body_kept data t0 c'.
Proof. intros Ht Hr (l & T & B). exists l. rewrite Ht, Hr. by split. Qed.

Lemma body_kept_log data t0 e c :
  first_read [e] = None → body_kept data t0 c → body_kept data t0 (log e c).
Proof.
  intros He (l & T & B). exists (l ++ [e]). simpl. rewrite T, app_assoc. split; [done|].
  rewrite first_read_app, He. by destruct (first_read l).
Qed.

Lemma body_kept_run_op data t0 op c :
  body_kept data t0 c → body_kept data t0 (run_op op c).
Proof.
  intros B.
  destruct op; simpl.
  - eapply body_kept_ext; [| |exact B]; by autorewrite with fields.
  - eapply body_kept_ext; [| |exact B]; by autorewrite with fields.
  - eapply body_kept_ext; [| |exact B]; unfold c_Writer_WriteString;
      destruct (Writer c); by autorewrite with fields.
  - destruct (WriteHeaderNow_only_writes c) as (? & _ & _ & _ & ?).
    by eapply body_kept_ext; [| |exact B].
  - eapply body_kept_ext; [| |exact B]; unfold c_Writer_Flush, on_writermem;
      by destruct (rw_Flush (writermem c)) as [w []].
  - eapply body_kept_ext; [| |exact B]; unfold c_Header; by case_decide.
  - by eapply body_kept_ext; [| |exact B].
  - by eapply body_kept_ext; [| |exact B].
  - case_match; [by apply body_kept_log|]. by eapply body_kept_ext; [| |exact B].
  - destruct B as (l & T & B).
    destruct (Body (Request c)) as [r|] eqn:Hb; unfold io_ReadAll; simpl.
    + exists (l ++ [EvReadBody (unread r) (broken r)]). simpl. rewrite T, app_assoc.
      split; [done|]. rewrite first_read_app.
      destruct (first_read l); [done|]. simpl. by simplify_eq.
    + exists l. split; [done|]. by destruct (first_read l).
Qed.

Lemma body_kept_run_ops data t0 ops : ∀ c,
  body_kept data t0 c → body_kept data t0 (run_ops ops c).
Proof.
  induction ops as [|op ops IH]; intros c B; [done|].
  change (run_ops (op :: ops) c) with (andThen (run_op op c) (run_ops ops)).
  unfold andThen. case_match; [by apply body_kept_run_op|].
  by apply IH, body_kept_run_op.
Qed.

Lemma body_kept_run_chain data t0 hs : ∀ c,
  body_kept data t0 c → body_kept data t0 (run_chain hs c).
Proof.
  induction hs as [|h hs IH]; intros c B; simpl.
  - by eapply body_kept_ext; [| |exact B].
  - unfold c_IsAborted, andThen. case_match; [done|].
    assert (body_kept data t0 (run_ops h (log EvHandler (set_handlers hs c)))) as B'.
    { apply body_kept_run_ops, body_kept_log; [done|].
      by eapply body_kept_ext; [| |exact B]. }
    case_match; [done|]. by apply IH.
Qed.

Lemma body_kept_c_Next data t0 c :
  body_kept data t0 c → body_kept data t0 (c_Next c).
Proof. apply body_kept_run_chain. Qed.

(** Peel the outermost step off a goal [body_kept data t0 (f x)]. *)
Ltac peel :=
  lazymatch goal with
  | |- body_kept _ _ (c_Next _) => apply body_kept_c_Next
  | |- body_kept _ _ (run_ops _ _) => apply body_kept_run_ops
  | |- body_kept _ _ (log _ _) => apply body_kept_log; [done|]
  | |- body_kept ?data ?t0 (?f ?x) =>
      apply (body_kept_ext data t0 x);
      [ by repeat (autorewrite with fields; simpl)
      | by repeat (autorewrite with fields; simpl) | ]
  end.

Section RequestBody.
Variable json_Marshal : any → bytes.
Variable server : HTTPServer.

Local Abbreviation Before := (handlePaymentVerifiedSettleBefore json_Marshal server).
Local Abbreviation After := (handlePaymentVerifiedSettleAfter json_Marshal server).
Local Abbreviation serve := (serve json_Marshal server).

Lemma body_kept_Before data t0 c result config requestBody :
  body_kept data t0 c → body_kept data t0 (Before c result config requestBody).
Proof.
  intros B.
  unfold handlePaymentVerifiedSettleBefore, call_BeforeSettleHook, call_ErrorHandler,
         call_SettlementHandler, andThen.
  cbv zeta.
  repeat (case_match; simplify_eq/=); repeat peel; done.
Qed.

Lemma body_kept_After data t0 c result config requestBody :
  body_kept data t0 c → body_kept data t0 (After c result config requestBody).
Proof.
  intros B.
  unfold handlePaymentVerifiedSettleAfter, call_BeforeSettleHook, call_ErrorHandler,
         call_SettlementHandler, c_IsAborted, andThen.
  cbv zeta.
  repeat (case_match; simplify_eq/=); repeat peel; done.
Qed.

Lemma body_kept_handlePaymentError data t0 c response config :
  body_kept data t0 c →
  body_kept data t0 (handlePaymentError json_Marshal c response config).
Proof.
  intros B. unfold handlePaymentError, c_JSON, c_Data, c_Status, andThen.
  repeat (case_match; simplify_eq/=); repeat peel; done.
Qed.

Lemma captureRequestBody_absent c :
  Body (Request c) = None → captureRequestBody c = ([], c).
Proof. intros Hb. unfold captureRequestBody. by rewrite Hb. Qed.

Lemma captureRequestBody_read c r :
  Body (Request c) = Some r → broken r = false →
  captureRequestBody c
  = (unread r,
     set_Request (Request_set_Body (Some (NewBuffer (unread r))) (Request c)) c).
Proof.
  intros Hb Hr. unfold captureRequestBody, io_ReadAll. rewrite Hb, Hr.
  by destruct c as [[] ? ? ? ? ? ? ? ?].
Qed.

Lemma captureRequestBody_failed c r :
  Body (Request c) = Some r → broken r = true →
  captureRequestBody c
  = ([], set_Request (Request_set_Body (Some (mkReader [] true)) (Request c)) c).
Proof.
  intros Hb Hr. unfold captureRequestBody, io_ReadAll. by rewrite Hb, Hr.
Qed.

Lemma serve_body config c r :
  panicked c = false →
  Body (Request c) = Some r → broken r = false →
  body_kept (unread r) (trace c) (serve config c).
Proof.
  intros Hp Hb Hr.
  assert (body_kept (unread r) (trace c) (captureRequestBody c).2) as B.
  { rewrite (captureRequestBody_read c r Hb Hr). exists []. simpl.
    by rewrite app_nil_r. }
  destruct (serve_cases json_Marshal server config c Hp)
    as [_ Hs|_ _ _ Hs|_ _ Hs|_ _ _ Hs|_ _ _ Hs]; rewrite Hs;
    unfold processed_context, required_context.
  - by repeat peel.
  - by repeat peel.
  - apply body_kept_handlePaymentError. by repeat peel.
  - apply body_kept_Before. by repeat peel.
  - apply body_kept_After. by repeat peel.
Qed.

(** What body capture achieves, by the state of the body stream: absent,
    failing, or readable to the end. *)
Definition body_capture_outcome (config : MiddlewareConfig) (c : Context)
    (l : list Event) : Prop :=
  match Body (Request c) with
  | None => captureRequestBody c = ([], c)
  | Some r =>
      if broken r then
        captureRequestBody c
        = ([], set_Request (Request_set_Body (Some (mkReader [] true)) (Request c)) c)
      else
        captureRequestBody c
        = (unread r,
           set_Request (Request_set_Body (Some (NewBuffer (unread r))) (Request c)) c) ∧
        Body (ctx (Adapter (engine_view c))) = Some (NewBuffer (unread r)) ∧
        (∀ data err, first_read l = Some (data, err) → data = unread r ∧ err = false) ∧
        (SettlementTiming config = "before" →
         Keys c !! PaymentDataKey = None →
         user_code_leaves_PaymentData config c →
         ∀ pd, GetPaymentData (serve config c) = Returns (Some pd) →
               pd_RequestBody pd = unread r)
  end.

(** C6, as amended. For every request whose body can be read to the end
    without error: body capture returns the whole body and replaces the
    stream with a fresh view over those bytes, so that the request the
    engine is shown carries that view and the first read made behind the
    middleware returns exactly the original bytes; under before-timing the
    captured bytes are the RequestBody of the PaymentData that is stored.
    When the body is absent the capture changes nothing and returns no
    bytes. When reading the body fails, no bytes are captured and the
    stream is not replaced: it stays as the failed read left it. *)
Theorem body_capture_preserves_readable_bodies config c l :
  panicked c = false →
  trace (serve config c) = trace c ++ l →
  body_capture_outcome config c l.
Proof.
  intros Hp Ht. unfold body_capture_outcome.
  destruct (Body (Request c)) as [r|] eqn:Hb; [|by apply captureRequestBody_absent].
  destruct (broken r) eqn:Hr; [by apply (captureRequestBody_failed c r)|].
  pose proof (captureRequestBody_read c r Hb Hr) as Hc.
  split_and!.
  - done.
  - unfold engine_view. by rewrite Hc.
  - destruct (serve_body config c r Hp Hb Hr) as (l' & Ht' & B).
    rewrite Ht in Ht'. apply app_inv_head in Ht'. subst l'.
    intros data err Hf. rewrite Hf in B. by simplify_eq.
  - intros Hbefore Hk Hu pd Hpd.
    destruct (serve_keys json_Marshal server config c l Hp Hk Hu Ht)
      as [[Hn _]|[_ [[Hn _]|(pre & p & rq & res & post & _ & _ & _ & _ & Hfin)]]];
      rewrite GetPaymentData_view in Hpd.
    + by rewrite Hn in Hpd.
    + by rewrite Hn in Hpd.
    + rewrite Hfin in Hpd. simpl in Hpd. simplify_eq. simpl. by rewrite Hc.
Qed.
End RequestBody.

(** * A sample shop: concrete requests for the theorems above *)

(** A stand-in for the JSON encoder: the values of the object's fields,
    separated by bars. *)
Definition sample_json (v : any) : bytes :=
  match v with
  | any_string s => bytes_of_string s
  | any_H [(_, any_string a); (_, any_string b)] => bytes_of_string (a +:+ "|" +:+ b)
  | _ => []
  end.

Definition sample_payload : PaymentPayload :=
  mkPaymentPayload [] "0xpayer" "0xshop" "1500000" 0 600 [].

Definition sample_requirements : PaymentRequirements :=
  mkPaymentRequirements "exact" "eip155:84532" "0xshop" "USDC" "1500000".

(** An engine that asks for payment when [paid], verifies every payment,
    and settles with the given result. *)
Definition sample_engine (paid : bool) (settleResult : ProcessSettleResult) : HTTPServer :=
  mkHTTPServer
    (λ _, paid)
    (λ _ _, mkHTTPProcessResult ResultPaymentVerified None
                                (Some sample_payload) (Some sample_requirements))
    (λ _ _, settleResult).

Definition settled : ProcessSettleResult :=
  mkProcessSettleResult true "" "0xabc" "eip155:84532" "0xpayer" ∅.

Definition unsettled : ProcessSettleResult :=
  mkProcessSettleResult false "insufficient funds" "" "eip155:84532" "0xpayer" ∅.

Definition sample_request (body : Reader) : http_Request :=
  mkRequest "POST" "/api/purchase" "shop.example" false ∅ (Some body) [].

Definition order : bytes := bytes_of_string "{}".

(** A handler that looks at what it was given and creates the order. *)
Definition processOrder : HandlerFunc :=
  [OpGetPaymentData; OpReadBody; OpWriteHeader 201; OpWriteString "created"].

Definition purchase : Context := newContext (sample_request (NewBuffer order)) [processOrder].

(** A hook that vetoes every payment. *)
Definition sold_out : Context → VerifyResponse → list HandlerOp * option string :=
  λ _ _, ([], Some "sold out").

(** A hook that vetoes every payment and answers the client itself. *)
Definition out_of_stock : Context → VerifyResponse → list HandlerOp * option string :=
  λ _ _, ([OpWriteHeader 409; OpWriteString "out of stock"], Some "sold out").

(** A hook that tells the client what it is doing, and accepts. *)
Definition announce : Context → VerifyResponse → list HandlerOp * option string :=
  λ _ _, ([OpWriteString "checking stock;"], None).

Definition before_with_veto : MiddlewareConfig :=
  applyOptions [WithSettlementTiming "before"; WithBeforeSettleHook (Some sold_out)]
               defaultConfig.

Definition before_plain : MiddlewareConfig :=
  applyOptions [WithSettlementTiming "before"] defaultConfig.

(** A custom error handler that answers 500 on its own. *)
Definition answer_500 : Context → string → list HandlerOp :=
  λ _ _, [OpWriteHeader 500; OpWriteString "oops"].

Definition before_with_veto_and_handler : MiddlewareConfig :=
  applyOptions [WithErrorHandler (Some answer_500)] before_with_veto.

Lemma entry_purchase : entry purchase.
Proof. by repeat split. Qed.

Definition before_out_of_stock : MiddlewareConfig :=
  applyOptions [WithSettlementTiming "before"; WithBeforeSettleHook (Some out_of_stock)]
               defaultConfig.



Definition after_announcing : MiddlewareConfig :=
  applyOptions [WithBeforeSettleHook (Some announce)] defaultConfig.

(** C2, as stated, fails: the hook is called on the connection itself, and
    what it has sent stands. Here the handler has completed with status 201
    in the proxy, the hook has written to the client and accepted, and the
    settlement fails: the client has status 200, not 402, and the JSON body
    follows what the hook wrote. *)
Lemma response_begun_by_the_hook_is_not_402 :
  SettlementTiming after_announcing = "after" ∧
  entry purchase ∧
  ErrorHandler after_announcing = None ∧
  aborted (after_handler (sample_engine true unsettled) after_announcing purchase)
    = false ∧
  statusCode (capture (after_handler (sample_engine true unsettled) after_announcing
                                     purchase)) = 201 ∧
  EvProcessSettlement sample_payload sample_requirements unsettled
    ∈ trace (serve sample_json (sample_engine true unsettled) after_announcing
                   purchase) ∧
  Success unsettled = false ∧
  wire_status (writermem (serve sample_json (sample_engine true unsettled)
                                after_announcing purchase))
    = Some 200 ∧
  wire_body (writermem (serve sample_json (sample_engine true unsettled)
                              after_announcing purchase))
    = bytes_of_string "checking stock;"
      ++ bytes_of_string "Settlement failed|insufficient funds".
Proof.
  split_and!; [done|apply entry_purchase|done|done|done| |done|done|done].
  vm_compute. repeat constructor.
Qed.


Definition after_out_of_stock : MiddlewareConfig :=
  applyOptions [WithBeforeSettleHook (Some out_of_stock)] defaultConfig.

(** C4, as stated, fails: a hook that answers the client itself and then
    returns its error is not overwritten. Without a custom error handler
    the response keeps the hook's status 409, and the "Pre-settlement
    validation failed" JSON follows the hook's own body. *)
Lemma answer_of_the_hook_is_not_402 :
  entry purchase ∧
  ErrorHandler after_out_of_stock = None ∧
  EvBeforeSettleHook (mkVerifyResponse true "" "") (Some "sold out")
    ∈ trace (serve sample_json (sample_engine true settled) after_out_of_stock
                   purchase) ∧
  wire_status (writermem (serve sample_json (sample_engine true settled)
                                after_out_of_stock purchase))
    = Some 409 ∧
  wire_body (writermem (serve sample_json (sample_engine true settled)
                              after_out_of_stock purchase))
    = bytes_of_string "out of stock"
      ++ bytes_of_string "Pre-settlement validation failed|sold out".
Proof.
  split_and!; [apply entry_purchase|done| |done|done].
  vm_compute. repeat constructor.
Qed.


(** A handler that turns the order down. *)
Definition rejectOrder : HandlerFunc := [OpWriteHeader 400; OpWriteString "bad request"].

Definition bad_purchase : Context :=
  newContext (sample_request (NewBuffer order)) [rejectOrder].


(** A handler that answers with a status that has four digits. *)
Definition strangeOrder : HandlerFunc := [OpWriteHeader 1000; OpWriteString "strange"].

Definition strange_purchase : Context :=
  newContext (sample_request (NewBuffer order)) [strangeOrder].

(** C5, as stated, fails: a captured status above 999 cannot be sent. The
    handler has not aborted and its status is 400 or more, the settlement
    is not called, but writing the captured response panics in [net/http]
    and the client is sent neither the status nor the body. *)
Lemma status_of_four_digits_is_not_sent :
  SettlementTiming defaultConfig = "after" ∧
  entry strange_purchase ∧
  aborted (after_handler (sample_engine true settled) defaultConfig strange_purchase)
    = false ∧
  statusCode (capture (after_handler (sample_engine true settled) defaultConfig
                                     strange_purchase)) = 1000 ∧
  body (capture (after_handler (sample_engine true settled) defaultConfig
                               strange_purchase)) = bytes_of_string "strange" ∧
  panicked (serve sample_json (sample_engine true settled) defaultConfig
                  strange_purchase) = true ∧
  wire_status (writermem (serve sample_json (sample_engine true settled) defaultConfig
                                strange_purchase)) = None ∧
  wire_body (writermem (serve sample_json (sample_engine true settled) defaultConfig
                              strange_purchase)) = [].
Proof. split_and!; by repeat split. Qed.

Lemma body_capture_witness :
  body_capture_outcome sample_json (sample_engine true settled) before_plain purchase
    (trace (serve sample_json (sample_engine true settled) before_plain purchase)).
Proof.
  apply (body_capture_preserves_readable_bodies sample_json
           (sample_engine true settled) before_plain purchase).
  - vm_compute. reflexivity.
  - vm_compute. reflexivity.
Defined.

(** A request whose body stream breaks after two bytes, on a route that
    needs no payment, served by a handler that reads the body. *)
Definition interrupted : Context :=
  newContext (sample_request (mkReader (bytes_of_string "ab") true)) [[OpReadBody]].

(** C6, as stated, fails: when reading the body fails, nothing is captured,
    the stream is not replaced by a view over the captured bytes, and the
    handler behind the middleware reads nothing of the original "ab". *)
Lemma failed_body_read_is_not_restored :
  (captureRequestBody interrupted).1 = [] ∧
  Body (Request (captureRequestBody interrupted).2) = Some (mkReader [] true) ∧
  Body (Request (captureRequestBody interrupted).2)
    ≠ Some (NewBuffer (captureRequestBody interrupted).1) ∧
  first_read (trace (serve sample_json (sample_engine false settled) defaultConfig
                           interrupted))
    = Some ([], true).
Proof. split_and!; done. Qed.

Lemma PaymentData_scope_witness :
  PaymentData_scope sample_json (sample_engine true settled) defaultConfig purchase
    (trace (serve sample_json (sample_engine true settled) defaultConfig purchase)).
Proof.
  apply (PaymentData_only_after_settlement_in_before_timing sample_json
           (sample_engine true settled) defaultConfig purchase).
  - vm_compute. reflexivity.
  - vm_compute. reflexivity.
  - split_and!.
    + repeat constructor.
    + intros h x e Hh. discriminate Hh.
    + intros h x s Hh. discriminate Hh.
    + intros h x v Hh. discriminate Hh.
  - vm_compute. reflexivity.
Defined.

(* ====================================================================== *)
(** * Further properties of the code                                       *)
(* ====================================================================== *)

(** ** Options *)

(** An option that leaves the settlement timing as it finds it. *)
Definition keeps_timing (opt : MiddlewareOption) : Prop :=
  ∀ config, SettlementTiming (opt config) = SettlementTiming config.

Lemma applyOptions_app opts1 opts2 config :
  applyOptions (opts1 ++ opts2) config = applyOptions opts2 (applyOptions opts1 config).
Proof. apply fold_left_app. Qed.

Lemma applyOptions_keeps_timing opts : ∀ config,
  Forall keeps_timing opts →
  SettlementTiming (applyOptions opts config) = SettlementTiming config.
Proof.
  induction opts as [|opt opts IH]; intros config Hopts; [done|].
  apply Forall_cons in Hopts as [Hopt Hopts]. simpl.
  change (fold_left _ opts (opt config)) with (applyOptions opts (opt config)).
  by rewrite IH, Hopt.
Qed.

(** X1. Options are applied in order and WithSettlementTiming
    overwrites the timing: when the options that follow a
    WithSettlementTiming leave the timing as they find it, the resulting
    configuration has the timing it was given, whatever options came
    before; options that leave the timing alone, applied to the
    configuration PaymentMiddleware starts from, keep its default "after";
    and WithPaywallConfig, WithSyncFacilitatorOnStart, WithErrorHandler,
    WithSettlementHandler, WithTimeout and WithBeforeSettleHook do leave the
    timing alone. *)
Theorem settlement_timing_last_option_wins opts timing rest config :
  Forall keeps_timing rest →
  SettlementTiming (applyOptions (opts ++ WithSettlementTiming timing :: rest) config)
    = timing ∧
  SettlementTiming (applyOptions rest defaultConfig) = "after" ∧
  (∀ paywall sync errorHandler settlementHandler timeout hook,
     Forall keeps_timing
       [WithPaywallConfig paywall; WithSyncFacilitatorOnStart sync;
        WithErrorHandler errorHandler; WithSettlementHandler settlementHandler;
        WithTimeout timeout; WithBeforeSettleHook hook]).
Proof.
  intros Hrest. split_and!.
  - rewrite applyOptions_app. simpl.
    change (fold_left _ rest ?x) with (applyOptions rest x).
    by rewrite applyOptions_keeps_timing.
  - by rewrite applyOptions_keeps_timing.
  - intros. by repeat constructor.
Qed.

(** ** The payment-data accessor *)

(** X2. GetPaymentData reads the gin key "xtended402PaymentData": it
    returns the PaymentData last stored there with c.Set, is not affected by
    c.Set on any other key, returns nil when the key is absent, and panics
    when the key holds a value of another type. *)
Theorem GetPaymentData_reads_the_gin_key (c : Context) :
  (∀ pd, GetPaymentData (c_Set PaymentDataKey (any_PaymentData pd) c)
         = Returns (Some pd)) ∧
  (∀ key v, key ≠ PaymentDataKey → GetPaymentData (c_Set key v c) = GetPaymentData c) ∧
  (Keys c !! PaymentDataKey = None → GetPaymentData c = Returns None) ∧
  (∀ v, (∀ pd, v ≠ any_PaymentData pd) →
        GetPaymentData (c_Set PaymentDataKey v c) = Panics).
Proof.
  unfold GetPaymentData, c_Get, c_Set. simpl. split_and!.
  - intros pd. by rewrite lookup_insert_eq.
  - intros key v Hk. by rewrite lookup_insert_ne.
  - by intros ->.
  - intros v Hv. rewrite lookup_insert_eq. destruct v; try done. by destruct (Hv p).
Qed.

(** ** Values in the request context *)

(** X3. SetContextValueGin binds the key in the request's context and
    changes nothing else: the value is what the context then answers for the
    key, every other key answers as before, the rest of the request (method,
    path, host, headers, body) and of the gin context (writer, gin keys,
    pending handlers, abort flag) is untouched, and the new request context
    is the one StoreForValidation builds from the old one. *)
Theorem SetContextValueGin_binds_only_the_key (c : Context) (key : string) (value : any) :
  let c' := SetContextValueGin c key value in
  ctx_Value (req_ctx (Request c')) (key_string key) = value ∧
  (∀ k, k ≠ key_string key →
        ctx_Value (req_ctx (Request c')) k = ctx_Value (req_ctx (Request c)) k) ∧
  req_ctx (Request c') = StoreForValidation (req_ctx (Request c)) key value ∧
  StoreForValidationGin c key value = c' ∧
  Request_WithContext (req_ctx (Request c)) (Request c') = Request c ∧
  set_Request (Request c') c = c'.
Proof.
  simpl. unfold SetContextValueGin, StoreForValidationGin, StoreForValidation, WithValue.
  simpl. split_and!; try done.
  - by rewrite decide_True.
  - intros k Hk. by rewrite decide_False.
  - by destruct c as [[] ? ? ? ? ? ? ? ?].
Qed.

(** The values of the context handed to the engine's operations: that of
    the request once its body has been captured (the timeout derived from it
    adds a deadline only). *)
Definition engine_context (c : Context) : GoContext :=
  req_ctx (Request (captureRequestBody c).2).

Lemma engine_context_eq c : engine_context c = req_ctx (Request c).
Proof.
  unfold engine_context, captureRequestBody, io_ReadAll.
  repeat case_match; simplify_eq/=; done.
Qed.

(** X4. A price stored by an upstream handler with SetContextValueGin is
    the price ContextPrice resolves from the context the middleware hands
    to the engine: body capture does not disturb the request context. A
    value stored with c.Set, in gin's own key store, is not seen: the
    price function answers as if it had not been stored. *)
Theorem upstream_price_reaches_the_engine
    (c : Context) (key price : string) (reqCtx : HTTPRequestContext) :
  ContextPrice key (engine_context (SetContextValueGin c key (any_string price))) reqCtx
    = (any_string price, None) ∧
  ContextPrice key (engine_context (c_Set key (any_string price) c)) reqCtx
    = ContextPrice key (engine_context c) reqCtx.
Proof.
  rewrite !engine_context_eq. split; [|done].
  unfold ContextPrice, SetContextValueGin, WithValue. simpl. by rewrite decide_True.
Qed.

(** ** Handlers writing through the capture proxy *)

(** The calls a handler's operations make on [c.Writer]. *)
Definition calls_of_op (op : HandlerOp) : list CaptureCall :=
  match op with
  | OpWriteHeader code => [CallWriteHeader code]
  | OpWrite data => [CallWrite data]
  | OpWriteString s => [CallWrite (bytes_of_string s)]
  | _ => []
  end.

Definition calls_of (ops : list HandlerOp) : list CaptureCall :=
  flat_map calls_of_op ops.

(** The calls that the proxy does not override and that send. *)
Definition promoted_write (op : HandlerOp) : bool :=
  match op with
  | OpWriteHeaderNow | OpFlush => true
  | _ => false
  end.

Lemma run_op_captured op c :
  Writer c = ToCapture →
  capture (run_op op c) = rc_calls (calls_of_op op) (capture c).
Proof.
  intros HW.
  destruct op; simpl;
    unfold c_Writer_WriteHeader, c_Writer_WriteString, c_Writer_Write, c_Writer_Write_err,
           c_Writer_WriteHeaderNow, c_Writer_Flush, on_writermem, c_Header,
           c_Abort, c_Set;
    rewrite ?HW; repeat case_match; simplify_eq/=; done.
Qed.

Lemma run_ops_captured ops : ∀ c,
  Writer c = ToCapture →
  panicked (run_ops ops c) = false →
  capture (run_ops ops c) = rc_calls (calls_of ops) (capture c).
Proof.
  induction ops as [|op ops IH]; intros c HW Hp; [done|].
  change (run_ops (op :: ops) c) with (andThen (run_op op c) (run_ops ops)) in *.
  unfold andThen in *. unfold calls_of. simpl.
  rewrite rc_calls_app, <- run_op_captured by done.
  destruct (panicked (run_op op c)) eqn:E; [congruence|].
  apply IH; [|done]. by rewrite (frame_Writer _ _ _ (run_op_frame op c)).
Qed.

Lemma run_op_proxied op c :
  Writer c = ToCapture → promoted_write op = false →
  same_wire (writermem c) (writermem (run_op op c)).
Proof.
  intros HW Hop.
  destruct op; simpl in *; try done;
    unfold c_Writer_WriteHeader, c_Writer_WriteString, c_Writer_Write, c_Writer_Write_err,
           c_Header, c_Abort, c_Set;
    rewrite ?HW; repeat case_match; simplify_eq/=; by repeat split.
Qed.

Lemma run_ops_proxied ops : ∀ c,
  Writer c = ToCapture → Forall (λ op, promoted_write op = false) ops →
  same_wire (writermem c) (writermem (run_ops ops c)).
Proof.
  induction ops as [|op ops IH]; intros c HW Hops; [apply same_wire_refl|].
  apply Forall_cons in Hops as [Hop Hops].
  change (run_ops (op :: ops) c) with (andThen (run_op op c) (run_ops ops)).
  unfold andThen. case_match; [by apply run_op_proxied|].
  eapply same_wire_trans; [by apply run_op_proxied|].
  apply IH; [|done]. by rewrite (frame_Writer _ _ _ (run_op_frame op c)).
Qed.

(** What a handler's writes leave in a freshly installed proxy, and what
    they leave of the framework's writer when the handler makes no call
    that the proxy does not override. *)
Definition captured_response (ops : list HandlerOp) (c : Context) : Prop :=
  statusCode (capture (run_ops ops c)) = first_status (calls_of ops) ∧
  body (capture (run_ops ops c)) = written_bytes (calls_of ops) ∧
  (Forall (λ op, promoted_write op = false) ops →
   same_wire (writermem c) (writermem (run_ops ops c))).

(** X5. While the capture proxy is installed, the status and body a
    handler writes (WriteHeader, Write, WriteString) go to the proxy and not
    to the connection: after the handler has run, the proxy holds the code
    of its first WriteHeader, or 200 when it wrote first or wrote nothing,
    and the bytes it wrote in order, WriteString counting as a Write of the
    string's bytes; and when these are the only calls the handler makes on
    the writer (WriteHeaderNow and Flush are not overridden by the proxy),
    the framework's writer has sent nothing more. *)
Theorem handler_writes_are_captured (ops : list HandlerOp) (c : Context) :
  Writer c = ToCapture →
  capture c = newResponseCapture →
  panicked (run_ops ops c) = false →
  captured_response ops c.
Proof.
  intros HW Hc Hp. unfold captured_response.
  rewrite (run_ops_captured ops c HW Hp), Hc.
  split_and!.
  - destruct (calls_of ops) as [|call calls]; [done|]. simpl.
    destruct (rc_calls_written calls _ (rc_call_fixes newResponseCapture call)) as (-> & _).
    by destruct call.
  - destruct (calls_of ops) as [|call calls]; [done|]. simpl.
    destruct (rc_calls_written calls _ (rc_call_fixes newResponseCapture call))
      as (_ & _ & ->).
    by destruct call.
  - by apply run_ops_proxied.
Qed.

(** ** Requests that are not settled: free routes, unknown results, payment errors *)

(** A response rendered before anything was sent, with a status that
    allows no body: the header goes out and the bytes are left. *)
Lemma c_Render_unwritten_no_body code contentType data c :
  unwritten c → 200 ≤ code ≤ 999 → bodyAllowedForStatus code = false →
  c_Render code contentType data c
  = set_writermem
      (mkResponseWriter code 0
         (with_content_type contentType (rw_header (writermem c)))
         (wire_interim (writermem c)) (Some code) (wire_body (writermem c))) c.
Proof.
  intros (HW & HU & HS) Hcode Hbody.
  unfold c_Render, c_Status, c_Writer_WriteHeader. rewrite HW, Hbody.
  rewrite rw_WriteHeader_unwritten by (done || lia). simpl negb. cbv iota.
  unfold writeContentType, c_Writer_Header, c_Writer_WriteHeaderNow, on_writermem,
         with_content_type.
  simpl.
  destruct (rw_header (writermem c) !! "Content-Type") eqn:E; simpl.
  all: rewrite rw_WriteHeaderNow_unwritten; simpl; try done; try (left; lia).
  all: by destruct c; simpl in *; subst.
Qed.

(** The bytes [handlePaymentError] sends for the engine's instructions:
    the string itself for an HTML body, the JSON encoding otherwise. There
    are none when an HTML body is not a string. *)
Definition error_payload (json_Marshal : any → bytes) (response : HTTPResponseInstructions)
    : option bytes :=
  if ri_IsHTML response then
    match ri_Body response with
    | any_string s => Some (bytes_of_string s)
    | _ => None
    end
  else Some (json_Marshal (ri_Body response)).

Definition error_content_type (response : HTTPResponseInstructions) : string :=
  if ri_IsHTML response then "text/html; charset=utf-8"
  else "application/json; charset=utf-8".

Section Unsettled.
Variable json_Marshal : any → bytes.
Variable server : HTTPServer.

Local Abbreviation After := (handlePaymentVerifiedSettleAfter json_Marshal server).
Local Abbreviation serve := (serve json_Marshal server).
Local Abbreviation engine_requires := (engine_requires server).
Local Abbreviation engine_result := (engine_result server).
Local Abbreviation required_context := (required_context server).
Local Abbreviation processed_context := (processed_context server).

(** The two calls that open the history of a request on a paid route. *)
Definition engine_queries (config : MiddlewareConfig) (c : Context) : list Event :=
  [EvRequiresPayment (engine_view c) true;
   EvProcessHTTPRequest (engine_view c) (engine_result config c)].

Lemma trace_processed config c :
  engine_requires c = true →
  trace (processed_context config c) = trace c ++ engine_queries config c.
Proof.
  intros Hr. rewrite processed_context_eq. simpl. rewrite Hr. by rewrite <- app_assoc.
Qed.

Lemma unwritten_headers code headers c :
  unwritten c → unwritten (range_Header headers (c_Status code c)).
Proof.
  intros (HW & HU & HS). rewrite range_Header_eq. unfold c_Status, c_Writer_WriteHeader.
  rewrite HW. split_and!; [done|simpl..].
  - unfold rw_Written, rw_WriteHeader in *. by repeat case_match.
  - unfold rw_WriteHeader. by repeat case_match.
Qed.

Lemma writermem_headers code headers c :
  unwritten c →
  wire_interim (writermem (range_Header headers (c_Status code c)))
    = wire_interim (writermem c) ∧
  wire_body (writermem (range_Header headers (c_Status code c)))
    = wire_body (writermem c) ∧
  rw_header (writermem (range_Header headers (c_Status code c)))
    = merge_header headers (rw_header (writermem c)).
Proof.
  intros (HW & HU & HS). rewrite range_Header_eq. unfold c_Status, c_Writer_WriteHeader.
  rewrite HW. simpl. unfold rw_WriteHeader. by repeat case_match.
Qed.

(** What [handlePaymentError] leaves behind. *)
Definition payment_error_answer (response : HTTPResponseInstructions) (c c' : Context)
    : Prop :=
  match error_payload json_Marshal response with
  | Some data =>
      panicked c' = false ∧ aborted c' = true ∧
      wire_status (writermem c') = Some (ri_Status response) ∧
      wire_body (writermem c')
        = wire_body (writermem c)
          ++ (if bodyAllowedForStatus (ri_Status response) then data else []) ∧
      rw_header (writermem c')
        = with_content_type (error_content_type response)
            (merge_header (ri_Headers response) (rw_header (writermem c)))
  | None =>
      panicked c' = true ∧
      wire_status (writermem c') = wire_status (writermem c) ∧
      wire_body (writermem c') = wire_body (writermem c)
  end.

Lemma handlePaymentError_answer c response config :
  unwritten c → panicked c = false → 200 ≤ ri_Status response ≤ 999 →
  payment_error_answer response c
    (handlePaymentError json_Marshal c (Some response) config).
Proof.
  intros Hu Hp Hst.
  pose proof (unwritten_headers (ri_Status response) (ri_Headers response) c Hu) as Hu'.
  destruct (writermem_headers (ri_Status response) (ri_Headers response) c Hu)
    as (Hi & Hb & Hh).
  unfold payment_error_answer, error_payload, error_content_type, handlePaymentError,
         c_JSON, c_Data, c_Abort, andThen.
  cbv zeta.
  set (x := range_Header _ _) in *.
  assert (panicked x = false) as Hpx.
  { unfold x. rewrite range_Header_eq. unfold c_Status. simpl.
    by autorewrite with fields. }
  assert (wire_status (writermem x) = wire_status (writermem c)) as Hs.
  { destruct Hu as (_ & _ & ->). by destruct Hu' as (_ & _ & ->). }
  clearbody x.
  destruct (ri_IsHTML response); [destruct (ri_Body response)|]; simpl; try done.
  all: destruct (bodyAllowedForStatus (ri_Status response)) eqn:Hba; simpl.
  all: rewrite ?c_Render_unwritten by done;
       rewrite ?c_Render_unwritten_no_body by done; simpl.
  all: rewrite ?Hpx; simpl; rewrite ?app_nil_r, ?Hb, ?Hh; by split_and!.
Qed.

(** The context from which the chain is let through. *)
Inductive waived (config : MiddlewareConfig) (c : Context) : Context → Prop :=
| waived_route :
    engine_requires c = false →
    waived config c (required_context c)
| waived_request :
    engine_requires c = true →
    res_Type (engine_result config c) = ResultNoPaymentRequired →
    waived config c (processed_context config c)
| waived_unknown other :
    engine_requires c = true →
    res_Type (engine_result config c) = ResultOther other →
    waived config c (processed_context config c).

(** [x] is the context the middleware was given, up to the body stream and
    the history, and the request is whatever the chain does from [x]. *)
Definition passed_through (config : MiddlewareConfig) (c x : Context) : Prop :=
  serve config c = c_Next x ∧
  Request x = Request (captureRequestBody c).2 ∧
  Writer x = Writer c ∧ writermem x = writermem c ∧ capture x = capture c ∧
  Keys x = Keys c ∧ handlers x = handlers c ∧ aborted x = aborted c ∧
  ∃ l, trace (serve config c) = trace x ++ l ∧ Forall is_downstream l.

(** X6. When the engine says the route needs no payment, when its
    verification answers that no payment is required, and also when it
    answers with a result type the middleware's switch does not know, the
    middleware lets the request through: the handlers behind it run on the
    context it was given, with the framework's own writer, and from then on
    the history holds nothing but what they do, so that neither the hook
    nor the settlement operation nor a callback is called. *)
Theorem requests_without_verdict_pass_through config c x :
  panicked c = false →
  waived config c x →
  passed_through config c x.
Proof.
  intros Hp Hw.
  assert (∀ y, serve config c = c_Next y →
               ∃ l, trace (serve config c) = trace y ++ l ∧ Forall is_downstream l) as Hl.
  { intros y ->. apply (frame_trace _ _ _ (c_Next_frame y)). }
  destruct (serve_cases json_Marshal server config c Hp)
    as [Hr Hs|Hr Hv He Hs|Hr Hv Hs|Hr Hv Hb Hs|Hr Hv Hb Hs];
    destruct Hw as [Hr'|Hr' Hv'|other Hr' Hv']; try congruence.
  all: unfold passed_through; split_and!; try done; try (by apply Hl).
  all: by rewrite ?required_context_eq, ?processed_context_eq.
Qed.

(** The outcome of a request the engine answers with a payment error. *)
Definition payment_error_outcome (config : MiddlewareConfig) (c : Context)
    (response : HTTPResponseInstructions) : Prop :=
  trace (serve config c) = trace c ++ engine_queries config c ∧
  payment_error_answer response c (serve config c).


(** X8. The settlement timing is compared with "before" and nothing
    else: a configuration with any other timing, such as "Before", "pre" or
    the empty string, serves every request exactly as the configuration
    with timing "after" does. *)
Theorem any_other_timing_is_after config c :
  SettlementTiming config ≠ "before" →
  serve config c = serve (WithSettlementTiming "after" config) c.
Proof.
  intros Hb.
  change (andThen (createMiddlewareHandler json_Marshal server config c) c_Next
          = andThen (createMiddlewareHandler json_Marshal server
                       (WithSettlementTiming "after" config) c) c_Next).
  f_equal. unfold createMiddlewareHandler.
  destruct (captureRequestBody c) as [requestBody c0]. cbv zeta. simpl.
  rewrite !decide_False by done. done.
Qed.

End Unsettled.

(** ** The calls of the settlement phase *)

Lemma rejection_settlement l p r res reason :
  EvProcessSettlement p r res ∈ l →
  Success res = false →
  reason = failure_reason res →
  rejection l "Settlement failed" reason ("settlement failed: " +:+ reason).
Proof. intros Hin Hf ->. by eapply rejected_by_settlement. Qed.

Lemma rejection_mono l l' error details err :
  (∀ e, e ∈ l → e ∈ l') → rejection l error details err → rejection l' error details err.
Proof.
  intros Hsub [vr reason Hin|p r res Hin Hf].
  - eapply rejected_by_hook. by apply Hsub.
  - eapply rejected_by_settlement; [by apply Hsub|done].
Qed.

(** Find an entry in a history made of explicit entries and segments. *)
Ltac find_elem :=
  solve [ left
        | right; find_elem
        | apply elem_of_app; left; find_elem
        | apply elem_of_app; right; find_elem ].

(** Split an explicit history [l] between what comes before its last
    segment and that segment, when it is the run of the chain. *)
Ltac split_last l k :=
  lazymatch l with
  | ?a :: ?r => split_last r ltac:(fun m p => k (a :: m) p)
  | ?x ++ ?r => split_last r ltac:(fun m p => k (x ++ m) p)
  | ?x =>
      lazymatch goal with
      | F : Forall is_downstream x |- _ => k (@nil Event) x
      | _ => k x (@nil Event)
      end
  end.

Lemma split_at_first {A} (l1 l2 pre post : list A) (e : A) :
  l1 ++ l2 = pre ++ e :: post → e ∉ l1 → ∃ k, pre = l1 ++ k ∧ l2 = k ++ e :: post.
Proof.
  intros Heq Hn. apply app_eq_inv in Heq as [(k & -> & Hk)|(k & -> & Hk)].
  - destruct k as [|e' k]; simplify_eq/=.
    + exists []. by rewrite !app_nil_r.
    + exfalso. apply Hn. apply elem_of_app. right. left.
  - by exists k.
Qed.

Section SettlementPhase.
Variable json_Marshal : any → bytes.
Variable server : HTTPServer.

Local Abbreviation Before := (handlePaymentVerifiedSettleBefore json_Marshal server).
Local Abbreviation After := (handlePaymentVerifiedSettleAfter json_Marshal server).
Local Abbreviation serve := (serve json_Marshal server).
Local Abbreviation engine_requires := (engine_requires server).
Local Abbreviation engine_result := (engine_result server).
Local Abbreviation required_context := (required_context server).
Local Abbreviation processed_context := (processed_context server).

(** The [SettleResponse] the middleware builds from a settlement result. *)
Definition settleResponse_of (res : ProcessSettleResult) : SettleResponse :=
  mkSettleResponse true "" (Transaction res) (Network res) (Payer res).

(** [settlement_phase result config mid]: [mid] is the part of a history
    between the verification and the end of the callbacks, for the
    verification result [result]. *)
Definition settlement_phase (result : HTTPProcessResult) (config : MiddlewareConfig)
    (mid : list Event) : Prop :=
  (EvHandler ∉ mid) ∧
  (∀ p r res, EvProcessSettlement p r res ∈ mid →
     res_PaymentPayload result = Some p ∧ res_PaymentRequirements result = Some r ∧
     res = ProcessSettlement server p r) ∧
  (∀ sr, EvSettlementHandler sr ∈ mid →
     ∃ p r res, EvProcessSettlement p r res ∈ mid ∧ Success res = true ∧
                sr = settleResponse_of res) ∧
  (∀ p r res, EvProcessSettlement p r res ∈ mid → Success res = true →
     SettlementHandler config ≠ None → EvSettlementHandler (settleResponse_of res) ∈ mid) ∧
  (∀ err, EvErrorHandler err ∈ mid → ∃ error details, rejection mid error details err).

Lemma settlement_phase_nil result config : settlement_phase result config [].
Proof.
  unfold settlement_phase.
  split_and!;
    [ by intros ?%elem_of_nil | by intros ? ? ? ?%elem_of_nil | by intros ? ?%elem_of_nil
    | by intros ? ? ? ?%elem_of_nil | by intros ? ?%elem_of_nil ].
Qed.

Ltac settled_true := by match goal with |- ?b = true => destruct b end.
Ltac settled_false := by match goal with |- ?b = false => destruct b end.

Ltac phase_facts :=
  unfold settlement_phase, settleResponse_of; split_and!;
  [ no_elem
  | let H := fresh in intros ? ? ? H; split_elem H; simplify_eq; by split_and!
  | let H := fresh in intros ? H; split_elem H; simplify_eq;
    (eexists _, _, _; split_and!; [find_elem|settled_true|reflexivity])
  | let H := fresh in intros ? ? ? H ? ?; split_elem H; simplify_eq;
    first [ done | find_elem
          | match goal with
            | H1 : ?b = true, H2 : negb ?b = true |- _ => rewrite H1 in H2; discriminate
            end ]
  | let H := fresh in intros ? H; split_elem H; simplify_eq;
    (eexists _, _;
     first [ by (eapply rejected_by_hook; find_elem)
           | eapply rejection_settlement;
             [ find_elem
             | settled_false
             | unfold failure_reason; by rewrite ?decide_True, ?decide_False by done ] ]) ].

Lemma Before_phases c result config requestBody l :
  trace (Before c result config requestBody) = trace c ++ l →
  ∃ mid post,
    l = mid ++ post ∧ settlement_phase result config mid ∧ Forall is_downstream post ∧
    (post ≠ [] → ∃ p r res, EvProcessSettlement p r res ∈ mid ∧ Success res = true).
Proof.
  unfold handlePaymentVerifiedSettleBefore, call_BeforeSettleHook, call_ErrorHandler,
         call_SettlementHandler, c_Abort, c_Set, andThen.
  cbv zeta.
  repeat (case_match; simplify_eq/=).
  all: trace_norm; intros Ht.
  all: first
    [ apply app_inv_head in Ht;
      lazymatch type of Ht with
      | ?x = _ => split_last x ltac:(fun m p => exists m, p)
      end
    | apply app_self_nil in Ht; exists [], [] ];
    subst l.
  all: split_and!;
    [ by rewrite ?app_nil_r, <- ?app_assoc
    | phase_facts
    | first [ done | by constructor ]
    | first [ by (intros Hne; destruct Hne)
            | intros _; eexists _, _, _; split; [find_elem|settled_true] ] ].
Qed.

Lemma After_phases c result config requestBody l :
  trace (After c result config requestBody) = trace c ++ l →
  ∃ pre mid,
    l = pre ++ mid ∧ Forall is_downstream pre ∧ settlement_phase result config mid.
Proof.
  unfold handlePaymentVerifiedSettleAfter, call_BeforeSettleHook, call_ErrorHandler,
         call_SettlementHandler, c_IsAborted, andThen.
  cbv zeta.
  destruct (frame_trace _ _ _
              (c_Next_frame (set_Writer ToCapture (set_capture newResponseCapture c))))
    as (l1 & FT & FD).
  simpl in FT.
  set (c1 := c_Next _) in *. clearbody c1.
  repeat (case_match; simplify_eq/=).
  all: trace_norm; rewrite ?FT, <- ?app_assoc; intros Ht;
    apply app_inv_head in Ht.
  all: lazymatch type of Ht with
       | ?a ++ ?x = _ => exists a, x
       | ?a = _ => exists a, []
       end; subst l.
  all: split_and!; [by rewrite ?app_nil_r|done|].
  all: first [ apply settlement_phase_nil | phase_facts ].
Qed.

End SettlementPhase.

(** ** The order of calls within a request *)

Definition is_engine_query (e : Event) : Prop :=
  match e with
  | EvRequiresPayment _ _ | EvProcessHTTPRequest _ _ => True
  | _ => False
  end.

(** The hook, the settlement and the two callbacks. *)
Definition is_settlement_step (e : Event) : bool :=
  match e with
  | EvBeforeSettleHook _ _ | EvProcessSettlement _ _ _
  | EvErrorHandler _ | EvSettlementHandler _ => true
  | _ => false
  end.

Definition is_handler_run (e : Event) : bool :=
  match e with EvHandler => true | _ => false end.

Lemma no_handler_run l : EvHandler ∉ l → count_events is_handler_run l = 0%nat.
Proof.
  induction l as [|e l IH]; [done|]. intros Hn. simpl.
  rewrite IH by (intros Hin; apply Hn; by right).
  destruct e; try done. exfalso. apply Hn. left.
Qed.

Section Ordering.
Variable json_Marshal : any → bytes.
Variable server : HTTPServer.

Local Abbreviation Before := (handlePaymentVerifiedSettleBefore json_Marshal server).
Local Abbreviation After := (handlePaymentVerifiedSettleAfter json_Marshal server).
Local Abbreviation serve := (serve json_Marshal server).
Local Abbreviation engine_requires := (engine_requires server).
Local Abbreviation engine_result := (engine_result server).
Local Abbreviation required_context := (required_context server).
Local Abbreviation processed_context := (processed_context server).
Local Abbreviation settlement_phase := (settlement_phase server).

Definition verified (config : MiddlewareConfig) (c : Context) : Prop :=
  engine_requires c = true ∧ res_Type (engine_result config c) = ResultPaymentVerified.

(** The history [l] of a request, by phase: the engine's answers, the
    chain when it runs first, the settlement phase, the chain when it runs
    last. *)
Definition request_phases (config : MiddlewareConfig) (c : Context) (l : list Event)
    : Prop :=
  ∃ head pre mid post,
    l = head ++ pre ++ mid ++ post ∧
    Forall is_engine_query head ∧ Forall is_downstream pre ∧ Forall is_downstream post ∧
    settlement_phase (engine_result config c) config mid ∧
    (mid ≠ [] → verified config c) ∧
    (SettlementTiming config ≠ "before" → post = []) ∧
    (SettlementTiming config = "before" → verified config c →
       pre = [] ∧
       (post ≠ [] → ∃ p r res, EvProcessSettlement p r res ∈ mid ∧ Success res = true)).

Ltac close_phases :=
  split_and!; try done; try congruence;
  try (by rewrite ?app_nil_r);
  try (by repeat constructor);
  try apply settlement_phase_nil;
  try (intros _ [? ?]; congruence).

Lemma serve_phases config c l :
  panicked c = false →
  trace (serve config c) = trace c ++ l →
  request_phases config c l.
Proof.
  intros Hp Ht. unfold request_phases, verified.
  destruct (serve_cases json_Marshal server config c Hp)
    as [Hr Hs|Hr Hv He' Hs|Hr Hv Hs|Hr Hv Hb Hs|Hr Hv Hb Hs]; rewrite Hs in Ht.
  - destruct (frame_trace _ _ _ (c_Next_frame (required_context c))) as (l1 & T & F).
    rewrite T, required_context_eq in Ht. simpl in Ht.
    rewrite <- app_assoc in Ht. apply app_inv_head in Ht. subst l.
    exists [EvRequiresPayment (engine_view c) (engine_requires c)], l1, [], [].
    close_phases.
  - destruct (frame_trace _ _ _ (c_Next_frame (processed_context config c)))
      as (l1 & T & F).
    rewrite T, processed_context_eq in Ht. simpl in Ht.
    rewrite <- !app_assoc in Ht. apply app_inv_head in Ht. subst l.
    exists [EvRequiresPayment (engine_view c) (engine_requires c);
            EvProcessHTTPRequest (engine_view c) (engine_result config c)], l1, [], [].
    close_phases.
  - rewrite handlePaymentError_trace, processed_context_eq in Ht. simpl in Ht.
    rewrite <- !app_assoc in Ht. apply app_inv_head in Ht. subst l.
    exists [EvRequiresPayment (engine_view c) (engine_requires c);
            EvProcessHTTPRequest (engine_view c) (engine_result config c)], [], [], [].
    close_phases.
  - destruct (Before_protocol json_Marshal server (processed_context config c)
                (engine_result config c) config (captureRequestBody c).1)
      as (l' & Hl' & _).
    destruct (Before_phases json_Marshal server _ _ _ _ _ Hl')
      as (mid & post & -> & Hmid & Fpost & Hpost).
    rewrite Hl', processed_context_eq in Ht. simpl in Ht.
    rewrite <- !app_assoc in Ht. apply app_inv_head in Ht. subst l.
    exists [EvRequiresPayment (engine_view c) (engine_requires c);
            EvProcessHTTPRequest (engine_view c) (engine_result config c)], [], mid, post.
    close_phases.
  - destruct (After_protocol json_Marshal server (processed_context config c)
                (engine_result config c) config (captureRequestBody c).1)
      as (l' & Hl' & _).
    destruct (After_phases json_Marshal server _ _ _ _ _ Hl')
      as (pre & mid & -> & Fpre & Hmid).
    rewrite Hl', processed_context_eq in Ht. simpl in Ht.
    rewrite <- !app_assoc in Ht. apply app_inv_head in Ht. subst l.
    exists [EvRequiresPayment (engine_view c) (engine_requires c);
            EvProcessHTTPRequest (engine_view c) (engine_result config c)], pre, mid, [].
    close_phases.
Qed.

(** An entry that belongs to the settlement phase is in its part of the
    history. *)
Lemma settlement_step_in_phase head pre mid post e :
  Forall is_engine_query head → Forall is_downstream pre → Forall is_downstream post →
  is_settlement_step e = true →
  e ∈ head ++ pre ++ mid ++ post → e ∈ mid.
Proof.
  intros Fh Fpre Fpost He Hin.
  apply elem_of_app in Hin as [Hin|Hin];
    [pose proof (Forall_elem _ _ _ Fh Hin); by destruct e|].
  apply elem_of_app in Hin as [Hin|Hin];
    [pose proof (Forall_elem _ _ _ Fpre Hin); by destruct e|].
  apply elem_of_app in Hin as [Hin|Hin]; [done|].
  pose proof (Forall_elem _ _ _ Fpost Hin). by destruct e.
Qed.

Lemma in_phase head pre mid post (e : Event) :
  e ∈ mid → e ∈ head ++ pre ++ mid ++ post.
Proof. intros Hin. rewrite !elem_of_app. auto. Qed.

(** X9. The payment that is settled is the payment that was verified:
    whenever the settlement operation is called during a request, the
    engine had said that the route requires payment and had answered the
    verification with a verified result, and the call is made with the
    payload and the requirements of that very result; what the history
    records as its outcome is what the engine answered. *)
Theorem settlement_is_for_the_verified_payment config c l p r res :
  panicked c = false →
  trace (serve config c) = trace c ++ l →
  EvProcessSettlement p r res ∈ l →
  verified config c ∧
  res_PaymentPayload (engine_result config c) = Some p ∧
  res_PaymentRequirements (engine_result config c) = Some r ∧
  res = ProcessSettlement server p r.
Proof.
  intros Hp Ht Hin.
  destruct (serve_phases config c l Hp Ht)
    as (head & pre & mid & post & -> & Fh & Fpre & Fpost & Hmid & Hver & _).
  apply settlement_step_in_phase in Hin; try done.
  destruct Hmid as (_ & Hsettle & _).
  split; [|by apply Hsettle].
  apply Hver. intros ->. by apply elem_of_nil in Hin.
Qed.

(** When and with what the settlement handler is called. *)
Definition settlement_handler_discipline (config : MiddlewareConfig) (l : list Event)
    : Prop :=
  (∀ settleResponse,
     EvSettlementHandler settleResponse ∈ l →
     ∃ p r res,
       EvProcessSettlement p r res ∈ l ∧ Success res = true ∧
       settleResponse
       = mkSettleResponse true "" (Transaction res) (Network res) (Payer res)) ∧
  (∀ p r res,
     EvProcessSettlement p r res ∈ l → Success res = true →
     SettlementHandler config ≠ None →
     EvSettlementHandler
       (mkSettleResponse true "" (Transaction res) (Network res) (Payer res)) ∈ l).

(** X10. In both timing modes the custom settlement handler is called
    only for a settlement that succeeded, with a SettleResponse whose
    Success is true, whose error reason is empty and whose transaction,
    network and payer are those of the settlement result; and whenever a
    settlement succeeds and a settlement handler is configured, it is
    called. *)
Theorem settlement_handler_follows_successful_settlement config c l :
  panicked c = false →
  trace (serve config c) = trace c ++ l →
  settlement_handler_discipline config l.
Proof.
  intros Hp Ht.
  destruct (serve_phases config c l Hp Ht)
    as (head & pre & mid & post & -> & Fh & Fpre & Fpost & Hmid & _).
  destruct Hmid as (_ & _ & Hcalled & Hnotified & _).
  split.
  - intros sr Hin. apply settlement_step_in_phase in Hin; try done.
    destruct (Hcalled sr Hin) as (p & r & res & Hs & Hok & ->).
    exists p, r, res. split_and!; try done. by apply in_phase.
  - intros p r res Hin Hok Hh. apply settlement_step_in_phase in Hin; try done.
    apply in_phase. by apply Hnotified with p r.
Qed.

(** X11. The custom error handler is called for a hook veto and for a
    failed settlement, and for nothing else: every call of it in the
    history of a request comes with a veto of the hook or a failed
    settlement in that history, and carries the error built from it,
    "before-settle hook failed: " or "settlement failed: " followed by the
    reason. In particular it is not called for the engine's payment errors,
    nor for requests that are let through. *)
Theorem error_handler_is_called_for_rejections_only config c l err :
  panicked c = false →
  trace (serve config c) = trace c ++ l →
  EvErrorHandler err ∈ l →
  ∃ error details, rejection l error details err.
Proof.
  intros Hp Ht Hin.
  destruct (serve_phases config c l Hp Ht)
    as (head & pre & mid & post & -> & Fh & Fpre & Fpost & Hmid & _).
  destruct Hmid as (_ & _ & _ & _ & Herr).
  apply settlement_step_in_phase in Hin; try done.
  destruct (Herr err Hin) as (error & details & Hrej).
  exists error, details. eapply rejection_mono; [|done]. intros e. apply in_phase.
Qed.

(** X12. Under settlementTiming "before", a handler behind the
    middleware runs on a verified request only once the payment has been
    settled: every run of a handler in the history of such a request is
    preceded by a settlement call that succeeded. *)
Theorem before_timing_handlers_run_after_settlement config c l pre post :
  SettlementTiming config = "before" →
  verified config c →
  panicked c = false →
  trace (serve config c) = trace c ++ l →
  l = pre ++ EvHandler :: post →
  ∃ p r res, EvProcessSettlement p r res ∈ pre ∧ Success res = true.
Proof.
  intros Hb Hv Hp Ht Hl.
  destruct (serve_phases config c l Hp Ht)
    as (head & pre0 & mid & post0 & Hl0 & Fh & Fpre & Fpost & Hmid & _ & _ & Hbefore).
  destruct (Hbefore Hb Hv) as (-> & Hsettled). simpl in Hl0.
  rewrite Hl0, app_assoc in Hl.
  apply split_at_first in Hl as (k & -> & Hk).
  - destruct Hsettled as (p & r & res & Hin & Hok); [by intros ->; destruct k|].
    exists p, r, res. split; [|done]. rewrite !elem_of_app. auto.
  - destruct Hmid as (Hno & _). intros [Hin|Hin]%elem_of_app; [|done].
    by pose proof (Forall_elem _ _ _ Fh Hin).
Qed.

(** X13. Under settlementTiming "after" (any value other than "before")
    the handlers behind the middleware have all run before the settlement
    phase starts: no handler runs after the hook has been called, after the
    settlement operation has been called, or after one of the two callbacks
    has been called. *)
Theorem after_timing_handlers_run_before_settlement config c l pre e post :
  SettlementTiming config ≠ "before" →
  panicked c = false →
  trace (serve config c) = trace c ++ l →
  l = pre ++ e :: post →
  is_settlement_step e = true →
  count_events is_handler_run post = 0%nat.
Proof.
  intros Hb Hp Ht Hl He.
  destruct (serve_phases config c l Hp Ht)
    as (head & pre0 & mid & post0 & Hl0 & Fh & Fpre & Fpost & Hmid & _ & Hafter & _).
  rewrite (Hafter Hb), app_nil_r in Hl0.
  rewrite Hl0, app_assoc in Hl.
  apply split_at_first in Hl as (k & _ & ->).
  - destruct Hmid as (Hno & _). apply no_handler_run. intros Hin. apply Hno.
    apply elem_of_app. right. by right.
  - intros [Hin|Hin]%elem_of_app.
    + pose proof (Forall_elem _ _ _ Fh Hin). by destruct e.
    + pose proof (Forall_elem _ _ _ Fpre Hin). by destruct e.
Qed.

(** What a handler finds in the PaymentData it is given. *)
Definition PaymentData_contents (config : MiddlewareConfig) (c : Context)
    (pre : list Event) (pd : PaymentData) : Prop :=
  ∃ p r res,
    EvProcessSettlement p r res ∈ pre ∧ Success res = true ∧
    pd_PaymentPayload pd = res_PaymentPayload (engine_result config c) ∧
    pd_PaymentRequirements pd = res_PaymentRequirements (engine_result config c) ∧
    pd_SettleResponse pd
    = Some (mkSettleResponse true "" (Transaction res) (Network res) (Payer res)) ∧
    pd_VerifyResponse pd = Some (mkVerifyResponse true "" "") ∧
    pd_RequestBody pd = (captureRequestBody c).1.

Lemma observed_PaymentData config c l pre pd post :
  panicked c = false →
  Keys c !! PaymentDataKey = None →
  user_code_leaves_PaymentData config c →
  trace (serve config c) = trace c ++ l →
  l = pre ++ EvGetPaymentData (Some pd) :: post →
  PaymentData_contents config c pre pd.
Proof.
  intros Hp Hk Hu Ht Hl.
  assert (∀ k, Forall (sees k) l → view k = Returns (Some pd)) as Hsee.
  { intros k F. apply (Forall_elem (sees k) l (EvGetPaymentData (Some pd)) F).
    rewrite Hl. apply elem_of_app. right. left. }
  destruct (serve_keys json_Marshal server config c l Hp Hk Hu Ht)
    as [[_ F]|[_ [[_ F]|(pre' & p & r & res & post' & Hl' & Hok & Fpre & Fpost & _)]]];
    [by pose proof (Hsee _ F)|by pose proof (Hsee _ F)|].
  rewrite Hl in Hl'.
  apply app_eq_inv in Hl' as [(k & -> & Hk')|(k & -> & Hk')].
  - destruct k as [|e k]; simplify_eq/=.
    apply Forall_app in Fpost as [_ Fpost].
    apply Forall_cons in Fpost as [Hpd _]. simpl in Hpd. simplify_eq.
    exists p, r, res. split_and!; try done. apply elem_of_app. right. left.
  - exfalso. destruct k as [|e k]; simplify_eq/=.
    apply Forall_app in Fpre as [_ Fk].
    apply Forall_cons in Fk as [Habs _]. simpl in Habs. congruence.
Qed.

(** X14. Whenever GetPaymentData hands a handler a PaymentData (the
    scope holding none when the middleware is entered, and the handlers and
    callbacks not writing the key themselves), a settlement has succeeded
    before, and the PaymentData carries the payload and the requirements of
    the verification result, a SettleResponse with Success true and the
    transaction, network and payer of that settlement, the VerifyResponse
    whose only set field is IsValid, and the request body the middleware
    captured. *)
Theorem PaymentData_describes_the_settled_payment config c l pre pd post :
  panicked c = false →
  Keys c !! PaymentDataKey = None →
  user_code_leaves_PaymentData config c →
  trace (serve config c) = trace c ++ l →
  l = pre ++ EvGetPaymentData (Some pd) :: post →
  PaymentData_contents config c pre pd.
Proof. apply observed_PaymentData. Qed.

End Ordering.

(** ** After-timing: what becomes of the captured response *)

Lemma run_chain_proxied hs : ∀ c,
  Writer c = ToCapture → Forall (Forall (λ op, promoted_write op = false)) hs →
  same_wire (writermem c) (writermem (run_chain hs c)).
Proof.
  induction hs as [|h hs IH]; intros c HW Hhs; simpl; [apply same_wire_refl|].
  apply Forall_cons in Hhs as [Hh Hhs].
  unfold c_IsAborted. case_match; [apply same_wire_refl|].
  pose proof (run_ops_proxied h (log EvHandler (set_handlers hs c)) HW Hh) as S1.
  simpl in S1.
  unfold andThen. case_match; [done|].
  eapply same_wire_trans; [exact S1|]. apply IH; [|done].
  by rewrite (frame_Writer _ _ _ (run_ops_frame h _)).
Qed.

Lemma c_Next_proxied c :
  Writer c = ToCapture → Forall (Forall (λ op, promoted_write op = false)) (handlers c) →
  same_wire (writermem c) (writermem (c_Next c)).
Proof. apply run_chain_proxied. Qed.

Section CapturedResponse.
Variable json_Marshal : any → bytes.
Variable server : HTTPServer.

Local Abbreviation After := (handlePaymentVerifiedSettleAfter json_Marshal server).
Local Abbreviation serve := (serve json_Marshal server).
Local Abbreviation engine_requires := (engine_requires server).
Local Abbreviation engine_result := (engine_result server).
Local Abbreviation processed_context := (processed_context server).
Local Abbreviation verified := (verified server).

(** The chain as the after-timing branch runs it from [c]. *)
Local Abbreviation captured c :=
  (c_Next (set_Writer ToCapture (set_capture newResponseCapture c))).

Lemma hooked_capture config c :
  Writer c = ToWritermem → capture (hooked config c) = capture c.
Proof. apply (frame_capture _ _ _ (hooked_frame config c)). Qed.

Lemma capture_WriteHeader code c :
  Writer c = ToWritermem → capture (c_Writer_WriteHeader code c) = capture c.
Proof. intros HW. unfold c_Writer_WriteHeader. by rewrite HW. Qed.

Lemma After_settled c result config requestBody l p r res :
  Writer c = ToWritermem →
  trace (After c result config requestBody) = trace c ++ l →
  EvProcessSettlement p r res ∈ l →
  Success res = true →
  SettlementHandler config = None →
  unwritten (hooked config (handled c)) →
  200 ≤ statusCode (capture (captured c)) ≤ 999 →
  panicked (After c result config requestBody) = false ∧
  wire_status (writermem (After c result config requestBody))
    = Some (statusCode (capture (captured c))) ∧
  wire_body (writermem (After c result config requestBody))
    = wire_body (writermem (hooked config (handled c)))
      ++ (if bodyAllowedForStatus (statusCode (capture (captured c)))
          then body (capture (captured c)) else []) ∧
  rw_header (writermem (After c result config requestBody))
    = merge_header (Headers res) (rw_header (writermem (hooked config (handled c)))).
Proof.
  intros HW Ht Hin Hok Hnone Hu Hst. revert Ht Hst Hu.
  pose proof (hooked_capture config (handled c)) as Hcap. revert Hcap.
  unfold handlePaymentVerifiedSettleAfter, hooked, handled, call_BeforeSettleHook,
         call_ErrorHandler, call_SettlementHandler, c_IsAborted, andThen.
  cbv zeta. rewrite HW, Hnone.
  destruct (frame_trace _ _ _
              (c_Next_frame (set_Writer ToCapture (set_capture newResponseCapture c))))
    as (l1 & FT & FD).
  simpl in FT.
  set (c1 := c_Next _) in *. clearbody c1.
  repeat (case_match; simplify_eq/=).
  all: intros Hcap; specialize (Hcap eq_refl); simpl in Hcap.
  all: trace_norm; rewrite ?FT, <- ?app_assoc; intros Ht Hst Hu; delta Ht l.
  all: split_elem Hin; simplify_eq.
  all: try match goal with
       | H1 : ?b = true, H2 : negb ?b = true |- _ => rewrite H1 in H2; discriminate
       end.
  all: change (mkVerifyResponse true "" "") with simplifiedVerify in *.
  all: try match goal with
       | H : panicked (range_Header _ _) = true |- _ =>
           autorewrite with fields in H; simpl in H; congruence
       end.
  all: rewrite ?range_Header_eq; simpl.
  all: try match goal with
       | H : (_ _ simplifiedVerify).2 = _ |- _ => rewrite H in Hcap, Hu |- *
       end.
  all: try (set (hk := run_ops _ _) in *; clearbody hk).
  all: destruct Hu as (HWk & HUk & HSk).
  all: rewrite ?capture_WriteHeader by done; simpl; rewrite ?Hcap.
  all: match goal with
       | |- context [c_Writer_Write ?d (c_Writer_WriteHeader ?st ?x)] =>
           rewrite (flush_unwritten st d x) by (done || by split_and!)
       end.
  all: simpl.
  all: match goal with
       | H : panicked _ = false |- _ => rewrite ?H
       end.
  all: split_and!; try done.
  all: repeat match goal with
       | H : bodyAllowedForStatus _ = _ |- _ => rewrite H
       end; by rewrite ?app_nil_r.
Qed.

(** The outcome of an after-timing request whose handler aborted the
    chain. *)
Definition dropped_response (config : MiddlewareConfig) (c : Context) : Prop :=
  serve config c = after_handler server config c ∧
  Writer (serve config c) = ToCapture ∧
  (Forall (Forall (λ op, promoted_write op = false)) (handlers c) →
   same_wire (writermem c) (writermem (serve config c))) ∧
  ∃ l, trace (serve config c) = trace c ++ engine_queries server config c ++ l ∧
       Forall is_downstream l.

(** X15. Under settlementTiming "after", when a handler behind the
    middleware aborts the chain, the middleware returns at once: the hook
    and the settlement are not called, and the status and body the handlers
    wrote to the capture proxy stay there, the proxy being left installed
    as the context's writer. Nothing is sent on the connection when the
    handlers have made no call that the proxy does not override
    (WriteHeaderNow, Flush). *)
Theorem aborted_handler_response_is_dropped config c :
  SettlementTiming config ≠ "before" →
  panicked c = false →
  verified config c →
  panicked (after_handler server config c) = false →
  aborted (after_handler server config c) = true →
  dropped_response config c.
Proof.
  intros Hb Hp0 [Hr Hv] Hp Ha.
  destruct (serve_cases json_Marshal server config c Hp0)
    as [Hr' Hs|Hr' Hv' He' Hs|Hr' Hv' Hs|Hr' Hv' Hb' Hs|_ _ _ Hs]; [congruence..|].
  pose proof (trace_processed server config c Hr) as Htr.
  assert (writermem (processed_context config c) = writermem c) as Hwm
    by (by rewrite processed_context_eq).
  assert (handlers (processed_context config c) = handlers c) as Hhs
    by (by rewrite processed_context_eq).
  unfold dropped_response. rewrite Hs. clear Hs.
  unfold handlePaymentVerifiedSettleAfter, c_IsAborted, andThen. cbv zeta.
  unfold after_handler in *.
  set (pc := processed_context config c) in *. clearbody pc.
  pose proof (c_Next_proxied
                (set_Writer ToCapture (set_capture newResponseCapture pc)) eq_refl) as FR.
  destruct (c_Next_frame (set_Writer ToCapture (set_capture newResponseCapture pc)))
    as [FW (l1 & FT & FD) _ _ _ _].
  simpl in FW, FT, FR.
  set (c1 := c_Next _) in *. clearbody c1.
  rewrite Hp, Ha. split_and!; try done.
  - intros Hq. rewrite <- Hwm. apply FR. by rewrite Hhs.
  - exists l1. by rewrite FT, Htr, <- app_assoc.
Qed.


(** The outcome of an after-timing request whose settlement succeeded. *)
Definition captured_response_sent (config : MiddlewareConfig) (c : Context)
    (res : ProcessSettleResult) : Prop :=
  panicked (serve config c) = false ∧
  wire_status (writermem (serve config c))
    = Some (statusCode (capture (after_handler server config c))) ∧
  wire_body (writermem (serve config c))
    = wire_body (writermem c)
      ++ (if bodyAllowedForStatus (statusCode (capture (after_handler server config c)))
          then body (capture (after_handler server config c)) else []) ∧
  rw_header (writermem (serve config c))
    = merge_header (Headers res) (rw_header (writermem (settling server config c))) ∧
  (BeforeSettleHook config = None →
   rw_header (writermem (settling server config c))
   = rw_header (writermem (after_handler server config c))).



End CapturedResponse.

(** ** Before-timing: what the handlers are given *)

Section SettledFirst.
Variable json_Marshal : any → bytes.
Variable server : HTTPServer.

Local Abbreviation Before := (handlePaymentVerifiedSettleBefore json_Marshal server).
Local Abbreviation serve := (serve json_Marshal server).
Local Abbreviation engine_requires := (engine_requires server).
Local Abbreviation engine_result := (engine_result server).
Local Abbreviation processed_context := (processed_context server).

(** The context [x] from which the chain runs once the payment is
    settled, [c] being the context the hook has left. *)
Definition settled_context (result : HTTPProcessResult) (requestBody : bytes)
    (res : ProcessSettleResult) (c x : Context) : Prop :=
  Request x = Request c ∧
  Writer x = Writer c ∧
  same_wire (writermem c) (writermem x) ∧
  rw_header (writermem x) = merge_header (Headers res) (rw_header (writermem c)) ∧
  Keys x
  = <[PaymentDataKey := any_PaymentData (paymentData_of result res requestBody)]> (Keys c) ∧
  handlers x = handlers c ∧
  aborted x = aborted c.

Lemma Before_settled c result config requestBody l p r res :
  panicked c = false →
  trace (Before c result config requestBody) = trace c ++ l →
  EvProcessSettlement p r res ∈ l →
  Success res = true →
  SettlementHandler config = None →
  ∃ x, Before c result config requestBody = c_Next x ∧
       settled_context result requestBody res (hooked config c) x.
Proof.
  intros Hp Ht Hin Hok Hnone. revert Ht.
  unfold handlePaymentVerifiedSettleBefore, hooked, call_BeforeSettleHook,
         call_ErrorHandler, call_SettlementHandler, c_Abort, c_Set, andThen.
  cbv zeta. rewrite Hnone.
  repeat (case_match; simplify_eq/=).
  all: trace_norm; intros Ht; delta Ht l.
  all: split_elem Hin; simplify_eq.
  all: try match goal with
       | H1 : ?b = true, H2 : negb ?b = true |- _ => rewrite H1 in H2; discriminate
       end.
  all: try match goal with
       | H : panicked (range_Header _ _) = true |- _ =>
           autorewrite with fields in H; simpl in H; congruence
       end.
  all: change (mkVerifyResponse true "" "") with simplifiedVerify in *.
  all: try match goal with
       | H : (_ _ simplifiedVerify).2 = _ |- _ => rewrite H
       end.
  all: eexists; split; [reflexivity|].
  all: unfold settled_context, paymentData_of; autorewrite with fields; simpl.
  all: repeat match goal with
       | E : res_PaymentPayload _ = _ |- _ => rewrite E; clear E
       | E : res_PaymentRequirements _ = _ |- _ => rewrite E; clear E
       end.
  all: split_and!; try done; by repeat split.
Qed.

(** A hook that validates and does nothing to the context it is given. *)
Definition hook_only_validates (config : MiddlewareConfig) (c : Context) : Prop :=
  ∀ hook, BeforeSettleHook config = Some hook →
          (hook (processed_context config c) simplifiedVerify).1 = [].

(** The context handed to the handlers of a request settled first. *)
Definition handed_to_handlers (config : MiddlewareConfig) (c : Context)
    (res : ProcessSettleResult) (x : Context) : Prop :=
  serve config c = c_Next x ∧
  Writer x = Writer c ∧
  same_wire (writermem (settling server config c)) (writermem x) ∧
  rw_header (writermem x)
  = merge_header (Headers res) (rw_header (writermem (settling server config c))) ∧
  GetPaymentData x
  = Returns (Some (paymentData_of (engine_result config c) res (captureRequestBody c).1)) ∧
  handlers x = handlers c ∧
  aborted x = aborted (settling server config c) ∧
  (hook_only_validates config c →
   same_wire (writermem c) (writermem x) ∧
   rw_header (writermem x) = merge_header (Headers res) (rw_header (writermem c)) ∧
   aborted x = aborted c).


End SettledFirst.

(** ** Settlement is attempted, and the chain runs once *)

Lemma count_handler_run_observation l :
  Forall is_observation l → count_events is_handler_run l = 0%nat.
Proof. induction 1 as [|e l He _ IH]; simpl; [done|]. by destruct e. Qed.

Lemma run_chain_runs hs : ∀ c,
  ∃ l, trace (run_chain hs c) = trace c ++ l ∧
       (count_events is_handler_run l ≤ length hs)%nat.
Proof.
  induction hs as [|h hs IH]; intros c; simpl.
  - exists []. rewrite app_nil_r. split; [done|simpl; lia].
  - unfold c_IsAborted, andThen. case_match.
    { exists []. rewrite app_nil_r. split; [done|simpl; lia]. }
    destruct (frame_trace _ _ _ (run_ops_frame h (log EvHandler (set_handlers hs c))))
      as (l1 & T1 & F1).
    simpl in T1. pose proof (count_handler_run_observation l1 F1) as H1.
    case_match.
    + exists ([EvHandler] ++ l1). rewrite T1, <- app_assoc. split; [done|].
      rewrite count_events_app. simpl. lia.
    + destruct (IH (run_ops h (log EvHandler (set_handlers hs c)))) as (l2 & T2 & H2).
      exists ([EvHandler] ++ l1 ++ l2). rewrite T2, T1, <- !app_assoc. split; [done|].
      rewrite !count_events_app. simpl. lia.
Qed.

Lemma c_Next_runs c :
  ∃ l, trace (c_Next c) = trace c ++ l ∧
       (count_events is_handler_run l ≤ length (handlers c))%nat.
Proof. apply run_chain_runs. Qed.

Lemma count_events_elem p e l :
  e ∈ l → p e = true → (1 ≤ count_events p l)%nat.
Proof.
  induction 1 as [e l|e e' l Hin IH]; simpl; intros He.
  - rewrite He. lia.
  - specialize (IH He). lia.
Qed.

(** Replace the history of each [c_Next] in the goal by the history
    before it and the entries it added, of which at most one per pending
    handler is a run of a handler. *)
Ltac chain_runs :=
  repeat match goal with
  | |- context [trace (c_Next ?x)] =>
      let l := fresh "l" in let E := fresh "E" in let R := fresh "R" in
      destruct (c_Next_runs x) as (l & E & R);
      rewrite E; clear E;
      repeat (autorewrite with fields in R; simpl in R; rewrite ?run_ops_handlers in R)
  end.

Ltac count_runs :=
  rewrite ?count_events_app; simpl;
  repeat match goal with
  | F : Forall is_observation ?l |- context [count_events is_handler_run ?l] =>
      rewrite (count_handler_run_observation l F)
  end;
  lia.

Section Progress.
Variable json_Marshal : any → bytes.
Variable server : HTTPServer.

Local Abbreviation Before := (handlePaymentVerifiedSettleBefore json_Marshal server).
Local Abbreviation After := (handlePaymentVerifiedSettleAfter json_Marshal server).
Local Abbreviation serve := (serve json_Marshal server).
Local Abbreviation engine_requires := (engine_requires server).
Local Abbreviation engine_result := (engine_result server).
Local Abbreviation required_context := (required_context server).
Local Abbreviation processed_context := (processed_context server).

(** The hook, if there is one, accepts when it is called on [x]: it
    returns, and returns no error. *)
Definition hook_approves (config : MiddlewareConfig) (x : Context) : Prop :=
  ∀ hook, BeforeSettleHook config = Some hook →
          (hook x (mkVerifyResponse true "" "")).2 = None ∧
          panicked (call_BeforeSettleHook hook (mkVerifyResponse true "" "") x) = false.

Lemma Before_settles c result config requestBody p r :
  res_PaymentPayload result = Some p →
  res_PaymentRequirements result = Some r →
  hook_approves config c →
  ∃ l, trace (Before c result config requestBody) = trace c ++ l ∧
       EvProcessSettlement p r (ProcessSettlement server p r) ∈ l.
Proof.
  intros Hpay Hreq Hhook.
  unfold handlePaymentVerifiedSettleBefore, call_ErrorHandler, call_SettlementHandler,
         c_Abort, c_Set, andThen.
  cbv zeta. rewrite Hpay, Hreq.
  destruct (BeforeSettleHook config) as [hook|] eqn:Hh;
    [destruct (Hhook hook Hh) as [-> ->]|].
  all: unfold call_BeforeSettleHook.
  all: repeat (case_match; simplify_eq/=).
  all: trace_norm.
  all: eexists; split; [reflexivity|find_elem].
Qed.

Lemma After_settles c result config requestBody p r :
  res_PaymentPayload result = Some p →
  res_PaymentRequirements result = Some r →
  panicked (c_Next (set_Writer ToCapture (set_capture newResponseCapture c))) = false →
  aborted (c_Next (set_Writer ToCapture (set_capture newResponseCapture c))) = false →
  statusCode (capture (c_Next (set_Writer ToCapture (set_capture newResponseCapture c))))
    < 400 →
  hook_approves config
    (set_Writer (Writer c)
       (c_Next (set_Writer ToCapture (set_capture newResponseCapture c)))) →
  ∃ l, trace (After c result config requestBody) = trace c ++ l ∧
       EvProcessSettlement p r (ProcessSettlement server p r) ∈ l.
Proof.
  intros Hpay Hreq Hp Ha Hst Hhook.
  unfold handlePaymentVerifiedSettleAfter, call_ErrorHandler, call_SettlementHandler,
         c_IsAborted, andThen.
  cbv zeta. rewrite Hpay, Hreq.
  destruct (frame_trace _ _ _
              (c_Next_frame (set_Writer ToCapture (set_capture newResponseCapture c))))
    as (l1 & FT & FD).
  simpl in FT.
  set (c1 := c_Next _) in *. clearbody c1.
  rewrite Hp, Ha. simpl.
  assert ((400 <=? statusCode (capture c1)) = false) as -> by lia.
  destruct (BeforeSettleHook config) as [hook|] eqn:Hh;
    [destruct (Hhook hook Hh) as [-> ->]|].
  all: unfold call_BeforeSettleHook.
  all: repeat (case_match; simplify_eq/=).
  all: trace_norm; rewrite ?FT, <- ?app_assoc.
  all: eexists; split; [reflexivity|find_elem].
Qed.

(** The request is about to be settled: under before-timing the hook
    accepts; under after-timing the handlers have returned without aborting
    and with a status below 400, and the hook accepts then. *)
Definition ready_to_settle (config : MiddlewareConfig) (c : Context) : Prop :=
  if decide (SettlementTiming config = "before") then
    hook_approves config (processed_context config c)
  else
    panicked (after_handler server config c) = false ∧
    aborted (after_handler server config c) = false ∧
    statusCode (capture (after_handler server config c)) < 400 ∧
    hook_approves config (set_Writer (Writer c) (after_handler server config c)).

(** X19. A verified payment is settled unless something stands in the
    way: when the engine has verified the request and returned its payload
    and requirements, and, under before-timing, the hook (if any) accepts,
    or, under after-timing, the handlers have returned without aborting and
    with a status below 400 and the hook (if any) accepts then, the
    settlement operation is called with that payload and those
    requirements, exactly once. *)
Theorem approved_payment_is_settled config c p r :
  panicked c = false →
  verified server config c →
  res_PaymentPayload (engine_result config c) = Some p →
  res_PaymentRequirements (engine_result config c) = Some r →
  ready_to_settle config c →
  ∃ l, trace (serve config c) = trace c ++ l ∧
       EvProcessSettlement p r (ProcessSettlement server p r) ∈ l ∧
       count_events is_settlement l = 1%nat.
Proof.
  intros Hp [Hr Hv] Hpay Hreq Hready.
  assert (∃ l', trace (serve config c) = trace (processed_context config c) ++ l' ∧
                EvProcessSettlement p r (ProcessSettlement server p r) ∈ l')
    as (l' & Ht & Hin).
  { unfold ready_to_settle in Hready.
    destruct (serve_cases json_Marshal server config c Hp)
      as [Hr' Hs|Hr' Hv' He' Hs|Hr' Hv' Hs|Hr' Hv' Hb Hs|Hr' Hv' Hb Hs];
      [congruence..| |]; rewrite Hs.
    - rewrite decide_True in Hready by done. by apply Before_settles.
    - rewrite decide_False in Hready by done.
      destruct Hready as (Hp' & Ha' & Hst & Hhook).
      apply After_settles; try done.
      by rewrite processed_context_eq at 1. }
  rewrite (trace_processed server config c Hr), <- app_assoc in Ht.
  exists (engine_queries server config c ++ l'). split_and!; [done| |].
  - apply elem_of_app. by right.
  - destruct (serve_protocol json_Marshal server config c) as (l0 & Ht0 & Hrun).
    rewrite Ht in Ht0. apply app_inv_head in Ht0. subst l0.
    apply protocol_run_counts in Hrun as (_ & Hs & _).
    rewrite <- (count_protocol_events is_settlement) in Hs by (by intros []).
    assert (1 ≤ count_events is_settlement (engine_queries server config c ++ l'))%nat.
    { apply count_events_elem with (EvProcessSettlement p r (ProcessSettlement server p r));
        [|done].
      apply elem_of_app. by right. }
    lia.
Qed.

Lemma Before_runs c result config requestBody :
  ∃ l, trace (Before c result config requestBody) = trace c ++ l ∧
       (count_events is_handler_run l ≤ length (handlers c))%nat.
Proof.
  unfold handlePaymentVerifiedSettleBefore, call_BeforeSettleHook, call_ErrorHandler,
         call_SettlementHandler, c_Abort, c_Set, andThen.
  cbv zeta.
  repeat (case_match; simplify_eq/=).
  all: chain_runs.
  all: trace_norm.
  all: eexists; split; [first [reflexivity | symmetry; apply app_nil_r]|].
  all: count_runs.
Qed.

Lemma After_runs c result config requestBody :
  ∃ l, trace (After c result config requestBody) = trace c ++ l ∧
       (count_events is_handler_run l ≤ length (handlers c))%nat.
Proof.
  unfold handlePaymentVerifiedSettleAfter, call_BeforeSettleHook, call_ErrorHandler,
         call_SettlementHandler, c_IsAborted, andThen.
  cbv zeta.
  destruct (c_Next_runs (set_Writer ToCapture (set_capture newResponseCapture c)))
    as (l1 & FT & R).
  simpl in FT, R.
  set (c1 := c_Next _) in *. clearbody c1.
  repeat (case_match; simplify_eq/=).
  all: trace_norm; rewrite ?FT, <- ?app_assoc.
  all: eexists; split; [first [reflexivity | symmetry; apply app_nil_r]|].
  all: count_runs.
Qed.

(** X20. The middleware never runs the chain behind it twice: in the
    history of a request, whatever the engine answers and whatever the
    timing, the hook and the callbacks, there are at most as many runs of a
    handler as there were handlers pending when the middleware was
    entered. *)
Theorem handlers_run_at_most_once config c l :
  panicked c = false →
  trace (serve config c) = trace c ++ l →
  (count_events is_handler_run l ≤ length (handlers c))%nat.
Proof.
  intros Hp Ht.
  assert (∀ x, handlers x = handlers c →
               ∃ l', trace (c_Next x) = trace x ++ l' ∧
                     (count_events is_handler_run l' ≤ length (handlers c))%nat) as Hnext.
  { intros x <-. apply c_Next_runs. }
  assert (handlers (processed_context config c) = handlers c) as Hh
    by (by rewrite processed_context_eq).
  destruct (serve_cases json_Marshal server config c Hp)
    as [Hr Hs|Hr Hv He' Hs|Hr Hv Hs|Hr Hv Hb Hs|Hr Hv Hb Hs]; rewrite Hs in Ht.
  - destruct (Hnext (required_context c)) as (l' & T & R);
      [by rewrite required_context_eq|].
    rewrite T, required_context_eq in Ht. simpl in Ht.
    rewrite <- app_assoc in Ht. apply app_inv_head in Ht. subst l. simpl. lia.
  - destruct (Hnext (processed_context config c) Hh) as (l' & T & R).
    rewrite T, processed_context_eq in Ht. simpl in Ht.
    rewrite <- !app_assoc in Ht. apply app_inv_head in Ht. subst l. simpl. lia.
  - rewrite handlePaymentError_trace, processed_context_eq in Ht. simpl in Ht.
    rewrite <- !app_assoc in Ht. apply app_inv_head in Ht. subst l. simpl. lia.
  - destruct (Before_runs (processed_context config c) (engine_result config c) config
                (captureRequestBody c).1) as (l' & T & R).
    rewrite Hh in R. rewrite T, processed_context_eq in Ht. simpl in Ht.
    rewrite <- !app_assoc in Ht. apply app_inv_head in Ht. subst l. simpl. lia.
  - destruct (After_runs (processed_context config c) (engine_result config c) config
                (captureRequestBody c).1) as (l' & T & R).
    rewrite Hh in R. rewrite T, processed_context_eq in Ht. simpl in Ht.
    rewrite <- !app_assoc in Ht. apply app_inv_head in Ht. subst l. simpl. lia.
Qed.

(** The bytes of the request body as body capture gets them: none when
    the body is absent or cannot be read to the end. *)
Definition readable_body (c : Context) : bytes :=
  match Body (Request c) with
  | Some r => if broken r then [] else unread r
  | None => []
  end.

Lemma captureRequestBody_fst c : (captureRequestBody c).1 = readable_body c.
Proof.
  unfold captureRequestBody, readable_body, io_ReadAll.
  repeat case_match; simplify_eq/=; done.
Qed.

(** X21. UnmarshalOrderData, called on the PaymentData a handler was
    given (the scope holding none when the middleware is entered, and the
    handlers, callbacks and hook not writing the key themselves), decodes the
    bytes of the request body as they were when the middleware was entered;
    when the request had no body, an empty body, or a body that could not
    be read to the end, it decodes nothing and returns without error, so
    that these three cases look the same to the handler. *)
Theorem UnmarshalOrderData_decodes_the_captured_body config c l pre pd post :
  panicked c = false →
  Keys c !! PaymentDataKey = None →
  user_code_leaves_PaymentData config c →
  trace (serve config c) = trace c ++ l →
  l = pre ++ EvGetPaymentData (Some pd) :: post →
  UnmarshalOrderData_input pd
  = match readable_body c with
    | [] => None
    | b :: data => Some (b :: data)
    end.
Proof.
  intros Hp Hk Hu Ht Hl.
  destruct (observed_PaymentData json_Marshal server config c l pre pd post
              Hp Hk Hu Ht Hl) as (p & r & res & _ & _ & _ & _ & _ & _ & Hbody).
  unfold UnmarshalOrderData_input. rewrite Hbody, captureRequestBody_fst.
  by destruct (readable_body c).
Qed.

End Progress.

(** ** The engine's view of the request, and hooks built from validators *)

Lemma captureRequestBody_Request c :
  Request_set_Body (Body (Request c)) (Request (captureRequestBody c).2) = Request c.
Proof.
  unfold captureRequestBody, io_ReadAll.
  destruct c as [[] ? ? ? ? ? ? ? ?]. simpl.
  repeat case_match; simplify_eq/=; done.
Qed.

(** X22. The adapter handed to the engine reports the request as it
    arrived: body capture changes nothing but the body stream, so the
    method and path of the request context and of the adapter are those of
    the request, a header is the request's header filed under the canonical
    form of the name asked for (the empty string when there is none), so
    that "PAYMENT-SIGNATURE" and "payment-signature" both read the header
    "Payment-Signature", and the URL is the scheme (https exactly when the
    connection is TLS), the request's host, or its Host header when the
    host is empty, and the path, with no query string. *)
Theorem engine_is_shown_the_request (c : Context) :
  let a := Adapter (engine_view c) in
  Request_set_Body (Body (Request c)) (ctx a) = Request c ∧
  rc_Method (engine_view c) = Method (Request c) ∧
  rc_Path (engine_view c) = URL_Path (Request c) ∧
  GetMethod a = Method (Request c) ∧
  GetPath a = URL_Path (Request c) ∧
  (∀ name, GetHeader a name
           = default "" (Header (Request c) !! CanonicalMIMEHeaderKey name)) ∧
  GetHeader a "PAYMENT-SIGNATURE"
    = default "" (Header (Request c) !! "Payment-Signature") ∧
  GetHeader a "payment-signature"
    = default "" (Header (Request c) !! "Payment-Signature") ∧
  GetAcceptHeader a = default "" (Header (Request c) !! "Accept") ∧
  GetUserAgent a = default "" (Header (Request c) !! "User-Agent") ∧
  GetURL a
  = (if TLS (Request c) then "https" else "http") +:+ "://"
    +:+ (if decide (Host (Request c) = "")
         then default "" (Header (Request c) !! "Host") else Host (Request c))
    +:+ URL_Path (Request c).
Proof.
  pose proof (captureRequestBody_Request c) as Hc. revert Hc.
  unfold engine_view, GetMethod, GetPath, GetAcceptHeader, GetUserAgent, GetURL,
         GetHeader, NewGinAdapter.
  simpl.
  destruct (Request (captureRequestBody c).2) as [m p h t hd b x].
  destruct (Request c) as [m' p' h' t' hd' b' x']. simpl.
  unfold Request_set_Body. simpl. intros Hc. injection Hc; intros; by subst.
Qed.

(** X23. The hook CreateBeforeSettleHook builds never returns an error
    of its own: it runs the validation on the context of the settlement,
    returns no result when the validation passes, and the result that
    aborts, with the validation's message as the reason, when it fails. A
    validation that looks at the value under a key sees what
    StoreForValidation stored under it. *)
Theorem CreateBeforeSettleHook_aborts_when_validation_fails
    (validateFn : GoContext → option string) (settleCtx : SettleContext) :
  (CreateBeforeSettleHook validateFn settleCtx).2 = None ∧
  (validateFn (Ctx settleCtx) = None →
     (CreateBeforeSettleHook validateFn settleCtx).1 = None) ∧
  (∀ err, validateFn (Ctx settleCtx) = Some err →
     (CreateBeforeSettleHook validateFn settleCtx).1
     = Some (mkBeforeHookResult true err)) ∧
  (∀ (check : any → option string) ctx key value,
     CreateBeforeSettleHook (λ ctx, check (ctx_Value ctx (key_string key)))
       (mkSettleContext (StoreForValidation ctx key value))
     = match check value with
       | Some err => (Some (mkBeforeHookResult true err), None)
       | None => (None, None)
       end).
Proof.
  unfold CreateBeforeSettleHook. split_and!.
  - by destruct (validateFn _).
  - by intros ->.
  - by intros err ->.
  - intros check ctx key value. unfold StoreForValidation, WithValue. simpl.
    by rewrite decide_True.
Qed.

(** ** The engine's two questions *)

(** Case analysis on [Hin : e ∈ l] for an entry [e] that is one of the
    engine's two questions, [He : is_engine_query e]. *)
Ltac no_query Hin He :=
  repeat match type of Hin with
  | _ ∈ _ ++ _ => apply elem_of_app in Hin as [Hin|Hin]
  | _ ∈ _ :: _ => apply elem_of_cons in Hin as [Hin|Hin]
  | _ ∈ [] => by apply elem_of_nil in Hin
  | ?e ∈ ?l =>
      match goal with
      | F : Forall _ l |- _ => pose proof (Forall_elem _ _ _ F Hin); by destruct e
      end
  end;
  try (subst; done).

Section Verification.
Variable json_Marshal : any → bytes.
Variable server : HTTPServer.

Local Abbreviation Before := (handlePaymentVerifiedSettleBefore json_Marshal server).
Local Abbreviation After := (handlePaymentVerifiedSettleAfter json_Marshal server).
Local Abbreviation serve := (serve json_Marshal server).
Local Abbreviation engine_requires := (engine_requires server).
Local Abbreviation engine_result := (engine_result server).
Local Abbreviation required_context := (required_context server).
Local Abbreviation processed_context := (processed_context server).

Lemma Before_asks_nothing c result config requestBody :
  ∃ l, trace (Before c result config requestBody) = trace c ++ l ∧
       ∀ e, e ∈ l → is_engine_query e → False.
Proof.
  unfold handlePaymentVerifiedSettleBefore, call_BeforeSettleHook, call_ErrorHandler,
         call_SettlementHandler, c_Abort, c_Set, andThen.
  cbv zeta.
  repeat (case_match; simplify_eq/=).
  all: trace_norm.
  all: eexists; split; [first [reflexivity | symmetry; apply app_nil_r]|].
  all: intros ev Hin Hq; no_query Hin Hq.
Qed.

Lemma After_asks_nothing c result config requestBody :
  ∃ l, trace (After c result config requestBody) = trace c ++ l ∧
       ∀ e, e ∈ l → is_engine_query e → False.
Proof.
  unfold handlePaymentVerifiedSettleAfter, call_BeforeSettleHook, call_ErrorHandler,
         call_SettlementHandler, c_IsAborted, andThen.
  cbv zeta.
  destruct (frame_trace _ _ _
              (c_Next_frame (set_Writer ToCapture (set_capture newResponseCapture c))))
    as (l1 & FT & FD).
  simpl in FT.
  set (c1 := c_Next _) in *. clearbody c1.
  repeat (case_match; simplify_eq/=).
  all: trace_norm; rewrite ?FT, <- ?app_assoc.
  all: eexists; split; [first [reflexivity | symmetry; apply app_nil_r]|].
  all: intros ev Hin Hq; no_query Hin Hq.
Qed.

(** What the engine is asked in the history [l] of a request. *)
Definition engine_questions (config : MiddlewareConfig) (c : Context) (l : list Event)
    : Prop :=
  (∃ l', l = EvRequiresPayment (engine_view c) (RequiresPayment server (engine_view c))
               :: l' ∧
         ∀ reqCtx requires, EvRequiresPayment reqCtx requires ∉ l') ∧
  (∀ reqCtx result,
     EvProcessHTTPRequest reqCtx result ∈ l →
     RequiresPayment server (engine_view c) = true ∧
     reqCtx = engine_view c ∧
     result = ProcessHTTPRequest server (engine_view c) (PaywallConfig_ config)).

(** X24. The first thing the middleware does with a request is to ask
    the engine whether the route requires payment, once, showing it the
    request as it stands after body capture. Verification is asked for
    only when the answer is yes, for that same request context and with the
    paywall configuration of the middleware's configuration. *)
Theorem verification_only_on_paid_routes config c l :
  panicked c = false →
  trace (serve config c) = trace c ++ l →
  engine_questions config c l.
Proof.
  intros Hp Ht.
  assert (∃ l', trace (serve config c) = trace (required_context c) ++ l' ∧
                (∀ reqCtx b, EvRequiresPayment reqCtx b ∉ l') ∧
                (∀ reqCtx result, EvProcessHTTPRequest reqCtx result ∈ l' →
                   engine_requires c = true ∧ reqCtx = engine_view c ∧
                   result = engine_result config c)) as (l' & Ht' & Hreq & Hver).
  { assert (trace (processed_context config c)
            = trace (required_context c)
              ++ [EvProcessHTTPRequest (engine_view c) (engine_result config c)])
      as Hpc by done.
    assert (∀ l1, (∀ e, e ∈ l1 → is_engine_query e → False) →
              (∀ reqCtx b,
                 EvRequiresPayment reqCtx b
                 ∉ [EvProcessHTTPRequest (engine_view c) (engine_result config c)] ++ l1) ∧
              (∀ reqCtx result,
                 EvProcessHTTPRequest reqCtx result
                 ∈ [EvProcessHTTPRequest (engine_view c) (engine_result config c)] ++ l1 →
                 reqCtx = engine_view c ∧ result = engine_result config c)) as Hrest.
    { intros l1 Hl1. split.
      - intros reqCtx b [Hin|Hin]%elem_of_cons; [done|]. by eapply Hl1.
      - intros reqCtx res [Hin|Hin]%elem_of_cons; [by simplify_eq|].
        exfalso. by eapply Hl1. }
    assert (∀ l1, Forall is_downstream l1 → ∀ e, e ∈ l1 → is_engine_query e → False)
      as Hdown.
    { intros l1 F e Hin He. pose proof (Forall_elem _ _ _ F Hin). by destruct e. }
    destruct (serve_cases json_Marshal server config c Hp)
      as [Hr Hs|Hr Hv He' Hs|Hr Hv Hs|Hr Hv Hb Hs|Hr Hv Hb Hs]; rewrite Hs.
    - destruct (frame_trace _ _ _ (c_Next_frame (required_context c))) as (l1 & T & F).
      exists l1. split_and!; [done| |].
      + intros reqCtx b Hin. by eapply (Hdown l1).
      + intros reqCtx res Hin. exfalso. by eapply (Hdown l1).
    - destruct (frame_trace _ _ _ (c_Next_frame (processed_context config c)))
        as (l1 & T & F).
      exists ([EvProcessHTTPRequest (engine_view c) (engine_result config c)] ++ l1).
      rewrite T, Hpc, <- app_assoc.
      destruct (Hrest l1 (Hdown l1 F)) as [H1 H2]. split_and!; [done|done|].
      intros reqCtx res Hin. by destruct (H2 reqCtx res Hin).
    - exists ([EvProcessHTTPRequest (engine_view c) (engine_result config c)] ++ []).
      rewrite handlePaymentError_trace, Hpc.
      destruct (Hrest []) as [H1 H2]; [by intros e ?%elem_of_nil|].
      split_and!; [done|done|].
      intros reqCtx res Hin. by destruct (H2 reqCtx res Hin).
    - destruct (Before_asks_nothing (processed_context config c)
                  (engine_result config c) config (captureRequestBody c).1)
        as (l1 & T & Hq).
      exists ([EvProcessHTTPRequest (engine_view c) (engine_result config c)] ++ l1).
      rewrite T, Hpc, <- app_assoc.
      destruct (Hrest l1 Hq) as [H1 H2]. split_and!; [done|done|].
      intros reqCtx res Hin. by destruct (H2 reqCtx res Hin).
    - destruct (After_asks_nothing (processed_context config c)
                  (engine_result config c) config (captureRequestBody c).1)
        as (l1 & T & Hq).
      exists ([EvProcessHTTPRequest (engine_view c) (engine_result config c)] ++ l1).
      rewrite T, Hpc, <- app_assoc.
      destruct (Hrest l1 Hq) as [H1 H2]. split_and!; [done|done|].
      intros reqCtx res Hin. by destruct (H2 reqCtx res Hin). }
  rewrite Ht', required_context_eq in Ht. simpl in Ht.
  rewrite <- app_assoc in Ht. apply app_inv_head in Ht. subst l.
  split.
  - by exists l'.
  - intros reqCtx res Hin. apply elem_of_cons in Hin as [Hin|Hin]; [done|].
    by apply Hver.
Qed.

End Verification.

(** ** After-timing: a handler that aborts with a status *)

(** [c.AbortWithStatus(code)]: [c.Status(code)], [c.Writer.WriteHeaderNow()]
    and [c.Abort()]. *)
Definition AbortWithStatus (code : Z) : list HandlerOp :=
  [OpWriteHeader code; OpWriteHeaderNow; OpAbort].

Section AbortWithStatus.
Variable json_Marshal : any → bytes.
Variable server : HTTPServer.

Local Abbreviation serve := (serve json_Marshal server).

(** The outcome of an after-timing request whose first handler aborts
    with a status. *)
Definition aborted_with_status (config : MiddlewareConfig) (c : Context) (code : Z)
    : Prop :=
  panicked (serve config c) = false ∧
  aborted (serve config c) = true ∧
  statusCode (capture (serve config c)) = code ∧
  wire_status (writermem (serve config c)) = Some (rw_status (writermem c)) ∧
  wire_body (writermem (serve config c)) = wire_body (writermem c) ∧
  trace (serve config c) = trace c ++ engine_queries server config c ++ [EvHandler].

(** The chain run against the proxy when its first handler aborts with a
    status. *)
Lemma AbortWithStatus_captured c code hs :
  unwritten c → aborted c = false → panicked c = false →
  handlers c = AbortWithStatus code :: hs →
  final_status (rw_status (writermem c)) →
  let c1 := c_Next (set_Writer ToCapture (set_capture newResponseCapture c)) in
  panicked c1 = false ∧ aborted c1 = true ∧
  statusCode (capture c1) = code ∧
  wire_status (writermem c1) = Some (rw_status (writermem c)) ∧
  wire_body (writermem c1) = wire_body (writermem c) ∧
  trace c1 = trace c ++ [EvHandler].
Proof.
  intros (HW & HU & HS) Ha Hpc Hh Hfin. cbv zeta.
  unfold c_Next. simpl handlers. rewrite Hh. simpl run_chain.
  unfold c_IsAborted. simpl aborted. rewrite Ha.
  set (x := run_ops _ _).
  assert (panicked x = false ∧ aborted x = true ∧ statusCode (capture x) = code ∧
          wire_status (writermem x) = Some (rw_status (writermem c)) ∧
          wire_body (writermem x) = wire_body (writermem c) ∧
          trace x = trace c ++ [EvHandler] ∧ handlers x = hs) as (Hp & Hab & ? & ? & ? & ? & Hhx).
  { unfold x, AbortWithStatus, run_ops, andThen, run_op, c_Writer_WriteHeader,
           c_Writer_WriteHeaderNow, on_writermem.
    simpl. rewrite (rw_WriteHeaderNow_unwritten (writermem c)) by done.
    simpl. rewrite Hpc. by split_and!. }
  clearbody x. unfold andThen. rewrite Hp.
  assert (run_chain hs x = x) as ->.
  { destruct hs as [|h hs']; simpl.
    - destruct x; simpl in *; by subst.
    - unfold c_IsAborted. by rewrite Hab. }
  by split_and!.
Qed.

(** X25. Under settlementTiming "after", when the first handler behind
    the middleware aborts with c.AbortWithStatus(code), the status it asked
    for stays in the capture proxy and the client is sent the status that
    was pending in the framework's writer instead (200 on a context the
    framework has just set up): AbortWithStatus sends the header through
    WriteHeaderNow, which the proxy does not override. The chain is aborted,
    no other handler runs, and neither the hook nor the settlement is
    called. *)
Theorem abort_with_status_sends_the_pending_status config c code hs :
  SettlementTiming config ≠ "before" →
  entry c →
  verified server config c →
  handlers c = AbortWithStatus code :: hs →
  final_status (rw_status (writermem c)) →
  aborted_with_status config c code.
Proof.
  intros Hb He [Hr Hv] Hh Hfin.
  assert (panicked c = false) as Hp by (by destruct He as (_ & _ & ?)).
  destruct (serve_cases json_Marshal server config c Hp)
    as [Hr' Hs|Hr' Hv' He' Hs|Hr' Hv' Hs|Hr' Hv' Hb' Hs|_ _ _ Hs]; [congruence..|].
  destruct (entry_processed server config c He) as (Hu & Ha & Hp').
  pose proof (trace_processed server config c Hr) as Htr.
  assert (writermem (processed_context server config c) = writermem c) as Hwm
    by (by rewrite processed_context_eq).
  assert (handlers (processed_context server config c) = AbortWithStatus code :: hs)
    as Hhs by (by rewrite processed_context_eq).
  rewrite <- Hwm in Hfin.
  destruct (AbortWithStatus_captured (processed_context server config c) code hs
              Hu Ha Hp' Hhs Hfin) as (H1 & H2 & H3 & H4 & H5 & H6).
  unfold aborted_with_status. rewrite Hs. clear Hs.
  unfold handlePaymentVerifiedSettleAfter, c_IsAborted, andThen. cbv zeta.
  set (pc := processed_context server config c) in *. clearbody pc.
  set (c1 := c_Next _) in *. clearbody c1.
  rewrite H1, H2, <- Hwm. split_and!; try done.
  by rewrite H6, Htr, <- app_assoc.
Qed.

End AbortWithStatus.

(** * The sample shop again: concrete requests for the further properties *)

Lemma settlement_timing_last_option_witness :
  SettlementTiming
    (applyOptions ([WithTimeout (5 * Second)]
                   ++ WithSettlementTiming "before"
                      :: [WithBeforeSettleHook (Some sold_out)])
                  defaultConfig)
    = "before" ∧
  SettlementTiming (applyOptions [WithBeforeSettleHook (Some sold_out)] defaultConfig)
    = "after" ∧
  (∀ paywall sync errorHandler settlementHandler timeout hook,
     Forall keeps_timing
       [WithPaywallConfig paywall; WithSyncFacilitatorOnStart sync;
        WithErrorHandler errorHandler; WithSettlementHandler settlementHandler;
        WithTimeout timeout; WithBeforeSettleHook hook]).
Proof.
  apply (settlement_timing_last_option_wins [WithTimeout (5 * Second)] "before"
           [WithBeforeSettleHook (Some sold_out)] defaultConfig).
  constructor; [|constructor]. intros config. reflexivity.
Defined.

Lemma handler_writes_witness :
  captured_response rejectOrder (set_Writer ToCapture purchase).
Proof.
  apply (handler_writes_are_captured rejectOrder (set_Writer ToCapture purchase)).
  - reflexivity.
  - reflexivity.
  - vm_compute. reflexivity.
Defined.

(** An engine that answers every verification with a result type of its
    own. *)
Definition pending_engine : HTTPServer :=
  mkHTTPServer
    (λ _, true)
    (λ _ _, mkHTTPProcessResult (ResultOther "payment-pending") None None None)
    (λ _ _, unsettled).

Lemma pass_through_witness :
  passed_through sample_json pending_engine defaultConfig purchase
    (processed_context pending_engine defaultConfig purchase).
Proof.
  apply (requests_without_verdict_pass_through sample_json pending_engine
           defaultConfig purchase).
  - vm_compute. reflexivity.
  - apply (waived_unknown pending_engine defaultConfig purchase "payment-pending").
    + vm_compute. reflexivity.
    + vm_compute. reflexivity.
Defined.

(** An engine that refuses every payment with these instructions. *)
Definition payment_required : HTTPResponseInstructions :=
  mkHTTPResponseInstructions 402 (<["PAYMENT-REQUIRED" := "e30="]> ∅)
                             (any_string "payment required") false.

Definition refusing_engine : HTTPServer :=
  mkHTTPServer
    (λ _, true)
    (λ _ _, mkHTTPProcessResult ResultPaymentError (Some payment_required) None None)
    (λ _ _, unsettled).


(** A timing written with a capital letter. *)
Definition capitalised : MiddlewareConfig :=
  applyOptions [WithSettlementTiming "Before"] defaultConfig.

Lemma other_timing_witness :
  serve sample_json (sample_engine true settled) capitalised purchase
  = serve sample_json (sample_engine true settled)
          (WithSettlementTiming "after" capitalised) purchase.
Proof.
  apply (any_other_timing_is_after sample_json (sample_engine true settled)
           capitalised purchase).
  discriminate.
Defined.

Lemma settlement_of_verified_payment_witness :
  verified (sample_engine true settled) defaultConfig purchase ∧
  res_PaymentPayload (engine_result (sample_engine true settled) defaultConfig purchase)
    = Some sample_payload ∧
  res_PaymentRequirements
    (engine_result (sample_engine true settled) defaultConfig purchase)
    = Some sample_requirements ∧
  settled = ProcessSettlement (sample_engine true settled) sample_payload
              sample_requirements.
Proof.
  apply (settlement_is_for_the_verified_payment sample_json (sample_engine true settled)
           defaultConfig purchase
           (trace (serve sample_json (sample_engine true settled) defaultConfig
                         purchase))).
  - vm_compute. reflexivity.
  - vm_compute. reflexivity.
  - vm_compute. repeat constructor.
Defined.

(** A settlement handler that puts the transaction in a response header. *)
Definition add_receipt : Context → SettleResponse → list HandlerOp :=
  λ _ settleResponse, [OpHeader "X-Transaction" (sr_Transaction settleResponse)].

Definition with_receipt : MiddlewareConfig :=
  applyOptions [WithSettlementHandler (Some add_receipt)] defaultConfig.

Lemma settlement_handler_witness :
  settlement_handler_discipline with_receipt
    (trace (serve sample_json (sample_engine true settled) with_receipt purchase)).
Proof.
  apply (settlement_handler_follows_successful_settlement sample_json
           (sample_engine true settled) with_receipt purchase).
  - vm_compute. reflexivity.
  - vm_compute. reflexivity.
Defined.

Lemma error_handler_witness :
  ∃ error details,
    rejection (trace (serve sample_json (sample_engine true settled)
                            before_with_veto_and_handler purchase))
              error details "before-settle hook failed: sold out".
Proof.
  apply (error_handler_is_called_for_rejections_only sample_json
           (sample_engine true settled) before_with_veto_and_handler purchase).
  - vm_compute. reflexivity.
  - vm_compute. reflexivity.
  - vm_compute. repeat constructor.
Defined.

Lemma handlers_after_settlement_witness :
  ∃ p r res,
    EvProcessSettlement p r res
      ∈ take 3 (trace (serve sample_json (sample_engine true settled) before_plain
                             purchase)) ∧
    Success res = true.
Proof.
  apply (before_timing_handlers_run_after_settlement sample_json
           (sample_engine true settled) before_plain purchase
           (trace (serve sample_json (sample_engine true settled) before_plain purchase))
           (take 3 (trace (serve sample_json (sample_engine true settled) before_plain
                                 purchase)))
           (drop 4 (trace (serve sample_json (sample_engine true settled) before_plain
                                 purchase)))).
  - vm_compute. reflexivity.
  - split; vm_compute; reflexivity.
  - vm_compute. reflexivity.
  - vm_compute. reflexivity.
  - vm_compute. reflexivity.
Defined.

Lemma handlers_before_settlement_witness :
  count_events is_handler_run
    (drop 6 (trace (serve sample_json (sample_engine true settled) defaultConfig
                          purchase)))
  = 0%nat.
Proof.
  apply (after_timing_handlers_run_before_settlement sample_json
           (sample_engine true settled) defaultConfig purchase
           (trace (serve sample_json (sample_engine true settled) defaultConfig purchase))
           (take 5 (trace (serve sample_json (sample_engine true settled) defaultConfig
                                 purchase)))
           (EvProcessSettlement sample_payload sample_requirements settled)).
  - discriminate.
  - vm_compute. reflexivity.
  - vm_compute. reflexivity.
  - vm_compute. reflexivity.
  - vm_compute. reflexivity.
Defined.

Lemma PaymentData_contents_witness :
  PaymentData_contents (sample_engine true settled) before_plain purchase
    (take 4 (trace (serve sample_json (sample_engine true settled) before_plain
                          purchase)))
    (paymentData_of (engine_result (sample_engine true settled) before_plain purchase)
                    settled order).
Proof.
  apply (PaymentData_describes_the_settled_payment sample_json
           (sample_engine true settled) before_plain purchase
           (trace (serve sample_json (sample_engine true settled) before_plain purchase))
           _ _
           (drop 5 (trace (serve sample_json (sample_engine true settled) before_plain
                                 purchase)))).
  - vm_compute. reflexivity.
  - vm_compute. reflexivity.
  - split_and!.
    + repeat constructor.
    + intros h x e Hh. discriminate Hh.
    + intros h x s Hh. discriminate Hh.
    + intros h x v Hh. discriminate Hh.
  - vm_compute. reflexivity.
  - vm_compute. reflexivity.
Defined.

(** A handler that turns the customer away and aborts the chain. *)
Definition refuseOrder : HandlerFunc :=
  [OpWriteHeader 403; OpWriteString "forbidden"; OpAbort].

Definition refused_purchase : Context :=
  newContext (sample_request (NewBuffer order)) [refuseOrder].

Lemma dropped_response_witness :
  dropped_response sample_json (sample_engine true settled) defaultConfig
    refused_purchase.
Proof.
  apply (aborted_handler_response_is_dropped sample_json (sample_engine true settled)
           defaultConfig refused_purchase).
  - discriminate.
  - vm_compute. reflexivity.
  - split; vm_compute; reflexivity.
  - vm_compute. reflexivity.
  - vm_compute. reflexivity.
Defined.


(** A handler that labels its response, behind a hook that vetoes. *)
Definition labelled : HandlerFunc :=
  [OpHeader "x-order-id" "42"; OpHeader "content-type" "text/plain";
   OpWriteHeader 201; OpWriteString "created"].

Definition labelled_purchase : Context :=
  newContext (sample_request (NewBuffer order)) [labelled].

Definition after_with_veto : MiddlewareConfig :=
  applyOptions [WithBeforeSettleHook (Some sold_out)] defaultConfig.


(** The customer is turned away with [c.AbortWithStatus(401)]. *)
Definition unauthorized_purchase : Context :=
  newContext (sample_request (NewBuffer order)) [AbortWithStatus 401].

Lemma abort_with_status_witness :
  aborted_with_status sample_json (sample_engine true settled) defaultConfig
    unauthorized_purchase 401.
Proof.
  apply (abort_with_status_sends_the_pending_status sample_json
           (sample_engine true settled) defaultConfig unauthorized_purchase 401 []).
  - discriminate.
  - by repeat split.
  - split; vm_compute; reflexivity.
  - reflexivity.
  - left. split; vm_compute; discriminate.
Defined.


Lemma approved_payment_witness :
  ∃ l,
    trace (serve sample_json (sample_engine true settled) with_receipt purchase)
    = trace purchase ++ l ∧
    EvProcessSettlement sample_payload sample_requirements
      (ProcessSettlement (sample_engine true settled) sample_payload sample_requirements)
      ∈ l ∧
    count_events is_settlement l = 1%nat.
Proof.
  apply (approved_payment_is_settled sample_json (sample_engine true settled)
           with_receipt purchase sample_payload sample_requirements).
  - vm_compute. reflexivity.
  - split; vm_compute; reflexivity.
  - vm_compute. reflexivity.
  - vm_compute. reflexivity.
  - unfold ready_to_settle. rewrite decide_False by discriminate.
    split_and!.
    + vm_compute. reflexivity.
    + vm_compute. reflexivity.
    + vm_compute. reflexivity.
    + intros hook Hh. discriminate Hh.
Defined.

Lemma handlers_run_once_witness :
  (count_events is_handler_run
     (trace (serve sample_json (sample_engine true settled) before_plain purchase))
   ≤ length (handlers purchase))%nat.
Proof.
  apply (handlers_run_at_most_once sample_json (sample_engine true settled)
           before_plain purchase).
  - vm_compute. reflexivity.
  - vm_compute. reflexivity.
Defined.

Lemma UnmarshalOrderData_witness :
  UnmarshalOrderData_input
    (paymentData_of (engine_result (sample_engine true settled) before_plain purchase)
                    settled order)
  = match readable_body purchase with
    | [] => None
    | b :: data => Some (b :: data)
    end.
Proof.
  apply (UnmarshalOrderData_decodes_the_captured_body sample_json
           (sample_engine true settled) before_plain purchase
           (trace (serve sample_json (sample_engine true settled) before_plain purchase))
           (take 4 (trace (serve sample_json (sample_engine true settled) before_plain
                                 purchase)))
           _
           (drop 5 (trace (serve sample_json (sample_engine true settled) before_plain
                                 purchase)))).
  - vm_compute. reflexivity.
  - vm_compute. reflexivity.
  - split_and!.
    + repeat constructor.
    + intros h x e Hh. discriminate Hh.
    + intros h x s Hh. discriminate Hh.
    + intros h x v Hh. discriminate Hh.
  - vm_compute. reflexivity.
  - vm_compute. reflexivity.
Defined.

Lemma engine_questions_witness :
  engine_questions (sample_engine true settled) defaultConfig purchase
    (trace (serve sample_json (sample_engine true settled) defaultConfig purchase)).
Proof.
  apply (verification_only_on_paid_routes sample_json (sample_engine true settled)
           defaultConfig purchase).
  - vm_compute. reflexivity.
  - vm_compute. reflexivity.
Defined.
